(** * CI/CD pipeline engine: template instantiation and execution scheduler

    A shallow embedding of [src/python/deployment/cicd_pipeline.py]:
    [PipelineStep], [Pipeline], [PipelineTemplate.create_pipeline],
    [PipelineExecutor.execute_step] and [PipelineExecutor.execute_pipeline],
    together with the properties the specification states about them. *)

From Stdlib Require Import String Ascii List Bool Arith Lia Relations.
From Stdlib Require ListDec.
Import ListNotations.

Local Open Scope string_scope.
Local Open Scope list_scope.

Set Implicit Arguments.

(* ================================================================== *)
(** ** Python [str] operations used by the module *)
(* ================================================================== *)

Module Str.

(** The scan behind [str.replace(old, new)] for a non-empty [old]:
    left to right, and after a match the scan resumes behind the matched
    text.  [skip] counts the characters of a match still to be passed
    over, so that the recursion stays structural in the scanned text. *)
Fixpoint replace_from (old new : string) (skip : nat) (s : string) : string :=
  match s with
  | EmptyString => EmptyString
  | String c s' =>
      match skip with
      | S k => replace_from old new k s'
      | O =>
          if String.prefix old s
          then new ++ replace_from old new (String.length old - 1) s'
          else String c (replace_from old new 0 s')
      end
  end.

(** For the empty pattern Python puts [new] before every character and
    at the end. *)
Fixpoint intersperse (new s : string) : string :=
  match s with
  | EmptyString => new
  | String c s' => new ++ String c (intersperse new s')
  end.

(** [s.replace(old, new)] *)
Definition replace (old new s : string) : string :=
  match old with
  | EmptyString => intersperse new s
  | String _ _ => replace_from old new 0 s
  end.

(** [c in s] for a character. *)
Fixpoint contains (c : ascii) (s : string) : bool :=
  match s with
  | EmptyString => false
  | String d s' => Ascii.eqb c d || contains c s'
  end.

End Str.

(** The f-string [f"${{{var_name}}}"]: a dollar sign, an opening brace, the
    name and a closing brace. *)
Definition placeholder (var_name : string) : string :=
  "${" ++ var_name ++ "}".

(* ================================================================== *)
(** ** Python [dict] with string keys: insertion-ordered, one entry per key *)
(* ================================================================== *)

Definition Dict (V : Type) : Type := list (string * V).

Section DictOps.
Variable V : Type.

(** [d.get(k)] / [d[k]] *)
Fixpoint dict_get (d : Dict V) (k : string) : option V :=
  match d with
  | [] => None
  | (k', v) :: d' => if String.eqb k k' then Some v else dict_get d' k
  end.

(** [k in d] *)
Definition dict_mem (d : Dict V) (k : string) : bool :=
  match dict_get d k with Some _ => true | None => false end.

(** [d[k] = v]: an existing key keeps its position, a new key goes last. *)
Fixpoint dict_set (d : Dict V) (k : string) (v : V) : Dict V :=
  match d with
  | [] => [(k, v)]
  | (k', v') :: d' =>
      if String.eqb k k' then (k', v) :: d' else (k', v') :: dict_set d' k v
  end.

(** [d.update(e)] *)
Definition dict_update (d e : Dict V) : Dict V :=
  fold_left (fun acc kv => dict_set acc (fst kv) (snd kv)) e d.

Definition dict_keys (d : Dict V) : list string := map fst d.
Definition dict_values (d : Dict V) : list V := map snd d.

(** The representation invariant of a dict: no key twice. *)
Definition dict_wf (d : Dict V) : Prop := NoDup (dict_keys d).

End DictOps.

(** The loop [for var_name, var_value in variables.items(): command =
    command.replace(f"${{{var_name}}}", var_value)] of [create_pipeline]. *)
Definition substitute (command : string) (variables : Dict string) : string :=
  fold_left
    (fun cmd kv => Str.replace (placeholder (fst kv)) (snd kv) cmd)
    variables command.

(* ================================================================== *)
(** ** Data model *)
(* ================================================================== *)

(** A reading of [datetime.datetime.utcnow()], abstracted to the ordinal
    of the reading: every call to [utcnow] advances the clock by one. *)
Definition Time : Type := nat.

Inductive PipelineStage : Type := SOURCE | BUILD | TEST | DEPLOY | VERIFY.

Inductive PipelineStatus : Type :=
  PENDING | IN_PROGRESS | SUCCEEDED | FAILED | ABORTED.

(** [PipelineStep.status] is a string; these are the four values the
    module ever stores in it. *)
Inductive StepStatus : Type := pending | in_progress | succeeded | failed.

Definition StepStatus_eqb (a b : StepStatus) : bool :=
  match a, b with
  | pending, pending | in_progress, in_progress
  | succeeded, succeeded | failed, failed => true
  | _, _ => false
  end.

Module PipelineStep.

Record t : Type := mk {
  id : string;
  name : string;
  stage : PipelineStage;
  command : string;
  dependencies : list string;
  status : StepStatus;
  logs : string;
  started_at : option Time;
  completed_at : option Time
}.

(** [PipelineStep(name, stage, command, dependencies)]; [fresh] is the
    string [str(uuid.uuid4())] drawn by the constructor. *)
Definition init (fresh name : string) (stage : PipelineStage)
    (command : string) (dependencies : list string) : t :=
  mk fresh name stage command dependencies pending "" None None.

(** [step.start()] at clock reading [now]. *)
Definition start (self : t) (now : Time) : t :=
  mk (id self) (name self) (stage self) (command self) (dependencies self)
     in_progress (logs self) (Some now) (completed_at self).

(** [step.complete(success, logs)] at clock reading [now]. *)
Definition complete (self : t) (success : bool) (text : string)
    (now : Time) : t :=
  mk (id self) (name self) (stage self) (command self) (dependencies self)
     (if success then succeeded else failed)
     (logs self ++ text) (started_at self) (Some now).

Definition set_dependencies (self : t) (deps : list string) : t :=
  mk (id self) (name self) (stage self) (command self) deps
     (status self) (logs self) (started_at self) (completed_at self).

(** [s.status in ["succeeded", "failed"]] *)
Definition is_terminal (self : t) : bool :=
  match status self with
  | succeeded | failed => true
  | _ => false
  end.

End PipelineStep.

Module Pipeline.

Record t : Type := mk {
  id : string;
  name : string;
  app_id : string;
  version : string;
  steps : Dict PipelineStep.t;
  status : PipelineStatus;
  created_at : Time;
  updated_at : Time;
  started_at : option Time;
  completed_at : option Time
}.

(** [Pipeline(name, app_id, version)] *)
Definition init (fresh name app_id version : string) (now : Time) : t :=
  mk fresh name app_id version [] PENDING now now None None.

Definition with_steps (self : t) (steps' : Dict PipelineStep.t) : t :=
  mk (id self) (name self) (app_id self) (version self) steps'
     (status self) (created_at self) (updated_at self)
     (started_at self) (completed_at self).

(** [pipeline.add_step(step)] *)
Definition add_step (self : t) (step : PipelineStep.t) (now : Time) : t :=
  mk (id self) (name self) (app_id self) (version self)
     (dict_set (steps self) (PipelineStep.id step) step)
     (status self) (created_at self) now
     (started_at self) (completed_at self).

(** [pipeline.start()] *)
Definition start (self : t) (now : Time) : t :=
  mk (id self) (name self) (app_id self) (version self) (steps self)
     IN_PROGRESS (created_at self) now (Some now) (completed_at self).

(** [pipeline.complete(status)] *)
Definition complete (self : t) (status' : PipelineStatus) (now : Time) : t :=
  mk (id self) (name self) (app_id self) (version self) (steps self)
     status' (created_at self) now (started_at self) (Some now).

End Pipeline.

(* ================================================================== *)
(** ** Template instantiation *)
(* ================================================================== *)

Module PipelineTemplate.

(** One entry of [PipelineTemplate.steps], the dict built by
    [add_step_template]. *)
Record StepTemplate : Type := mkStepTemplate {
  st_name : string;
  st_stage : PipelineStage;
  command_template : string;
  st_dependencies : list string
}.

Record t : Type := mk {
  id : string;
  name : string;
  description : string;
  steps : list StepTemplate;
  created_at : Time
}.

(** [add_step_template(name, stage, command_template, dependencies)] *)
Definition add_step_template (self : t) (name' : string)
    (stage : PipelineStage) (cmd : string) (deps : list string) : t :=
  mk (id self) (name self) (description self)
     (steps self ++ [mkStepTemplate name' stage cmd deps])
     (created_at self).

(** What [create_pipeline] reads and writes besides its arguments: the
    clock, the source of [uuid4] strings, and the heap of [dict] objects
    in which the caller's [variables] lives.  A reference is an index
    into [heap]. *)
Record Runtime : Type := mkRuntime {
  clock : Time;
  uuid_next : nat;
  heap : list (Dict string)
}.

Definition utcnow (rt : Runtime) : Time * Runtime :=
  (clock rt, mkRuntime (S (clock rt)) (uuid_next rt) (heap rt)).

Definition deref (rt : Runtime) (ref : nat) : Dict string :=
  nth ref (heap rt) [].

(** A new dict object [{}]. *)
Definition alloc (rt : Runtime) : nat * Runtime :=
  (List.length (heap rt),
   mkRuntime (clock rt) (uuid_next rt) (heap rt ++ [[]])).

Fixpoint list_set {A : Type} (l : list A) (i : nat) (x : A) : list A :=
  match l, i with
  | [], _ => []
  | _ :: l', O => x :: l'
  | y :: l', S j => y :: list_set l' j x
  end.

(** In-place mutation of the dict object at [ref]. *)
Definition store (rt : Runtime) (ref : nat) (d : Dict string) : Runtime :=
  mkRuntime (clock rt) (uuid_next rt) (list_set (heap rt) ref d).

Section WithUuid.

(** [uuid4 n]: the string the [n]-th call of [str(uuid.uuid4())]
    returns. *)
Variable uuid4 : nat -> string.

Definition fresh_uuid (rt : Runtime) : string * Runtime :=
  (uuid4 (uuid_next rt),
   mkRuntime (clock rt) (S (uuid_next rt)) (heap rt)).

(** Lines 151-155: [variables = variables or {}] keeps the caller's
    object only when it is a non-empty dict ([None] and [{}] are both
    falsy); [variables.update(...)] then mutates that object in
    place.  Returns the reference the local name [variables] holds. *)
Definition bind_variables (app_id version : string)
    (variables : option nat) (rt : Runtime) : nat * Runtime :=
  let '(ref, rt1) :=
    match variables with
    | None => alloc rt
    | Some r =>
        match deref rt r with
        | [] => alloc rt
        | _ :: _ => (r, rt)
        end
    end in
  (ref,
   store rt1 ref
     (dict_update (deref rt1 ref)
        [("APP_ID", app_id); ("VERSION", version)])).

(** One iteration of the first loop (lines 161-178). *)
Definition instantiate_step (vars : Dict string)
    (acc : Pipeline.t * Dict string * Runtime) (step_template : StepTemplate)
    : Pipeline.t * Dict string * Runtime :=
  let '(pipeline, step_id_map, rt) := acc in
  let command := substitute (command_template step_template) vars in
  let '(fresh, rt1) := fresh_uuid rt in
  let step :=
    PipelineStep.init fresh (st_name step_template)
      (st_stage step_template) command [] in
  let '(now, rt2) := utcnow rt1 in
  (Pipeline.add_step pipeline step now,
   dict_set step_id_map (st_name step_template) (PipelineStep.id step),
   rt2).

(** The list comprehension of lines 186-189. *)
Definition resolve_dependencies (step_id_map : Dict string)
    (names : list string) : list string :=
  flat_map
    (fun dep_name =>
       match dict_get step_id_map dep_name with
       | Some step_id => [step_id]
       | None => []
       end)
    names.

(** The second loop (lines 181-189), from index [i] on.  [None] is the
    [IndexError] of [list(pipeline.steps.keys())[i]]. *)
Fixpoint wire_dependencies (step_id_map : Dict string) (i : nat)
    (templates : list StepTemplate) (steps : Dict PipelineStep.t)
    : option (Dict PipelineStep.t) :=
  match templates with
  | [] => Some steps
  | step_template :: rest =>
      match nth_error (dict_keys steps) i with
      | None => None
      | Some step_id =>
          match dict_get steps step_id with
          | None => None
          | Some step =>
              wire_dependencies step_id_map (S i) rest
                (dict_set steps step_id
                   (PipelineStep.set_dependencies step
                      (resolve_dependencies step_id_map
                         (st_dependencies step_template))))
          end
      end
  end.

(** [template.create_pipeline(app_id, version, variables)].  The
    result also gives the reference held by the local [variables], for
    the statements about the bindings in force. *)
Definition create_pipeline_with (self : t) (app_id version : string)
    (variables : option nat) (rt : Runtime)
    : option (Pipeline.t * nat * Runtime) :=
  let '(ref, rt1) := bind_variables app_id version variables rt in
  let '(fresh, rt2) := fresh_uuid rt1 in
  let '(now, rt3) := utcnow rt2 in
  let pipeline := Pipeline.init fresh (name self) app_id version now in
  let '(pipeline1, step_id_map, rt4) :=
    fold_left (instantiate_step (deref rt3 ref)) (steps self)
      (pipeline, [], rt3) in
  match wire_dependencies step_id_map 0 (steps self)
          (Pipeline.steps pipeline1) with
  | None => None
  | Some steps' => Some (Pipeline.with_steps pipeline1 steps', ref, rt4)
  end.

Definition create_pipeline (self : t) (app_id version : string)
    (variables : option nat) (rt : Runtime)
    : option (Pipeline.t * Runtime) :=
  match create_pipeline_with self app_id version variables rt with
  | None => None
  | Some (pipeline, _, rt') => Some (pipeline, rt')
  end.

End WithUuid.

End PipelineTemplate.

(* ================================================================== *)
(** ** Execution scheduler *)
(* ================================================================== *)

Module PipelineExecutor.

(** What the body of the [try] block of [execute_step] does at the place
    where "a real implementation would execute the command": it goes on,
    or an [Exception] whose [str(e)] is [message] reaches the handler. *)
Inductive Outcome : Type := Returns | Raises (message : string).

(** An auxiliary record of one call to [step.start()]: the pipeline and
    step concerned and the steps of that pipeline as they were when
    [start] was called.  No code path reads it. *)
Record StartEvent : Type := mkStartEvent {
  ev_pipeline : string;
  ev_step : string;
  ev_steps : Dict PipelineStep.t
}.

(** The state the executor works on: the clock, the executor's own
    [current_executions], and the history of [start()] calls, newest
    first.  A pipeline object is held by value under its id: the
    parameter [pipeline] of [execute_pipeline] and the entry
    [current_executions[pipeline.id]] are one object in the source, so
    every read and write of [pipeline] goes through that entry. *)
Record State : Type := mkState {
  clock : Time;
  current_executions : Dict Pipeline.t;
  started : list StartEvent
}.

(** The outcome of a computation with a loop: it returns, or the given
    number of iterations did not suffice. *)
Inductive Run (A : Type) : Type :=
| Returned (result : A) (w : State)
| OutOfFuel (w : State).
Arguments OutOfFuel {A} w.

Definition final_state {A : Type} (r : Run A) : State :=
  match r with
  | Returned _ w => w
  | OutOfFuel w => w
  end.

(** The loop of lines 252-260: [true] when it runs to its end, [false]
    when it reaches one of the two [return False]. *)
Fixpoint dependencies_succeeded (steps : Dict PipelineStep.t)
    (deps : list string) : bool :=
  match deps with
  | [] => true
  | dep_id :: rest =>
      match dict_get steps dep_id with
      | None => false
      | Some dep_step =>
          if StepStatus_eqb (PipelineStep.status dep_step) succeeded
          then dependencies_succeeded steps rest
          else false
      end
  end.

(** The generator expression of lines 311-315. *)
Definition deps_complete (steps : Dict PipelineStep.t)
    (deps : list string) : bool :=
  forallb
    (fun dep_id =>
       match dict_get steps dep_id with
       | Some dep_step => StepStatus_eqb (PipelineStep.status dep_step) succeeded
       | None => false
       end)
    (filter (dict_mem steps) deps).

Definition all_complete (steps : Dict PipelineStep.t) : bool :=
  forallb PipelineStep.is_terminal (dict_values steps).

Definition any_failed (steps : Dict PipelineStep.t) : bool :=
  existsb (fun s => StepStatus_eqb (PipelineStep.status s) failed)
    (dict_values steps).

Section WithRunner.

Variable run_command : PipelineStep.t -> Outcome.

(** Lines 262-291 of [execute_step], once the guards are passed:
    [step.start()], the [try] block and its handler, on the pipeline
    object and the clock.  Gives the value returned, the pipeline
    afterwards and the clock afterwards. *)
Definition run_step (pipeline : Pipeline.t) (step_id : string)
    (step : PipelineStep.t) (t0 : Time) : bool * Pipeline.t * Time :=
  let step1 := PipelineStep.start step t0 in
  match run_command step1 with
  | Returns =>
      let step2 :=
        PipelineStep.complete step1 true
          "Step executed successfully" (S t0) in
      let pipeline1 :=
        Pipeline.with_steps pipeline
          (dict_set (Pipeline.steps pipeline) step_id step2) in
      if all_complete (Pipeline.steps pipeline1)
      then
        (true,
         Pipeline.complete pipeline1
           (if any_failed (Pipeline.steps pipeline1)
            then FAILED else SUCCEEDED)
           (S (S t0)),
         S (S (S t0)))
      else (true, pipeline1, S (S t0))
  | Raises message =>
      let step2 :=
        PipelineStep.complete step1 false
          ("Error: " ++ message) (S t0) in
      let pipeline1 :=
        Pipeline.with_steps pipeline
          (dict_set (Pipeline.steps pipeline) step_id step2) in
      (false, Pipeline.complete pipeline1 FAILED (S (S t0)),
       S (S (S t0)))
  end.

(** [executor.execute_step(pipeline_id, step_id)] *)
Definition execute_step (w : State) (pipeline_id step_id : string)
    : bool * State :=
  match dict_get (current_executions w) pipeline_id with
  | None => (false, w)
  | Some pipeline =>
      match dict_get (Pipeline.steps pipeline) step_id with
      | None => (false, w)
      | Some step =>
          if dependencies_succeeded (Pipeline.steps pipeline)
               (PipelineStep.dependencies step)
          then
            let event :=
              mkStartEvent pipeline_id step_id (Pipeline.steps pipeline) in
            let '(result, pipeline', t') :=
              run_step pipeline step_id step (clock w) in
            (result,
             mkState t'
               (dict_set (current_executions w) pipeline_id pipeline')
               (event :: started w))
          else (false, w)
      end
  end.

(** The steps of the pipeline being executed, as they are now. *)
Definition live_steps (w : State) (pipeline_id : string)
    : Dict PipelineStep.t :=
  match dict_get (current_executions w) pipeline_id with
  | Some pipeline => Pipeline.steps pipeline
  | None => []
  end.

Definition live_status (w : State) (pipeline_id : string)
    : option PipelineStatus :=
  option_map Pipeline.status (dict_get (current_executions w) pipeline_id).

(** Body of the loop of lines 299-301. *)
Definition visit_root (pipeline_id : string) (w : State)
    (step_id : string) : State :=
  match dict_get (live_steps w pipeline_id) step_id with
  | None => w
  | Some step =>
      match PipelineStep.dependencies step with
      | [] => snd (execute_step w pipeline_id step_id)
      | _ :: _ => w
      end
  end.

(** Body of the loop of lines 308-319, on the pair of [progress_made]
    and the state. *)
Definition visit (pipeline_id : string) (acc : bool * State)
    (step_id : string) : bool * State :=
  let '(progress_made, w) := acc in
  match dict_get (live_steps w pipeline_id) step_id with
  | None => acc
  | Some step =>
      match PipelineStep.status step with
      | pending =>
          if deps_complete (live_steps w pipeline_id)
               (PipelineStep.dependencies step)
          then (true, snd (execute_step w pipeline_id step_id))
          else acc
      | _ => acc
      end
  end.

(** One pass of the [for] loop inside the [while]. *)
Definition scan (pipeline_id : string) (w : State) : bool * State :=
  fold_left (visit pipeline_id)
    (dict_keys (live_steps w pipeline_id)) (false, w).

(** The [while] loop of lines 304-319; [fuel] bounds the number of
    passes. *)
Fixpoint while_loop (fuel : nat) (pipeline_id : string)
    (progress_made : bool) (w : State) : Run unit :=
  if progress_made
     && match live_status w pipeline_id with
        | Some IN_PROGRESS => true
        | _ => false
        end
  then
    match fuel with
    | O => OutOfFuel w
    | S fuel' =>
        let '(progress_made', w') := scan pipeline_id w in
        while_loop fuel' pipeline_id progress_made' w'
    end
  else Returned tt w.

(** [executor.execute_pipeline(pipeline)].  [w1] is the state after lines
    295-296 (the pipeline registered under its id, then started), [w2]
    the state after the loop of lines 299-301; the value returned is
    [pipeline.status == PipelineStatus.SUCCEEDED]. *)
Definition execute_pipeline (fuel : nat) (w : State)
    (pipeline : Pipeline.t) : Run bool :=
  let pipeline_id := Pipeline.id pipeline in
  let w1 :=
    mkState (S (clock w))
      (dict_set (current_executions w) pipeline_id
         (Pipeline.start pipeline (clock w)))
      (started w) in
  let w2 :=
    fold_left (visit_root pipeline_id)
      (dict_keys (live_steps w1 pipeline_id)) w1 in
  match while_loop fuel pipeline_id true w2 with
  | OutOfFuel w3 => OutOfFuel w3
  | Returned _ w3 =>
      Returned
        match live_status w3 pipeline_id with
        | Some SUCCEEDED => true
        | _ => false
        end
        w3
  end.

End WithRunner.

(** The body of the [try] block as the source has it: "we'll simulate a
    successful execution". *)
Definition simulated (_ : PipelineStep.t) : Outcome := Returns.

Definition idle : State := mkState 0 [] [].

End PipelineExecutor.

(* ================================================================== *)
(** ** The manager *)
(* ================================================================== *)

Module CICDManager.

Import PipelineExecutor.

(** [PipelineTemplate(name, description)]; [fresh] is the string
    [str(uuid.uuid4())] drawn by the constructor, [now] its reading of
    the clock. *)
Definition new_template (fresh name description : string) (now : Time)
    : PipelineTemplate.t :=
  PipelineTemplate.mk fresh name description [] now.

(** The manager together with what its methods read and write besides
    it: [pipeline_templates] and [pipelines] are the manager's dicts,
    [current_executions] is the dict of its [pipeline_executor] and
    [started] the history of [start()] calls kept with it; then the
    clock, the source of [uuid4] strings and the heap of [variables]
    dicts.  The dict [deployment_options] is left out: no method modelled
    here reads or writes it.

    A pipeline object is held by value under its id.  The entries
    [pipelines[id]] and [current_executions[id]] are one object in the
    source from the moment [execute_pipeline] registers it, so that
    [execute_pipeline] below stores what the executor made of the
    pipeline under both. *)
Record t : Type := mk {
  pipeline_templates : Dict PipelineTemplate.t;
  pipelines : Dict Pipeline.t;
  current_executions : Dict Pipeline.t;
  started : list StartEvent;
  clock : Time;
  uuid_next : nat;
  heap : list (Dict string)
}.

Definition runtime (m : t) : PipelineTemplate.Runtime :=
  PipelineTemplate.mkRuntime (clock m) (uuid_next m) (heap m).

Definition executor_state (m : t) : State :=
  mkState (clock m) (current_executions m) (started m).

(** What a method has made of the manager. *)
Inductive Call (A : Type) : Type :=
| Finished (result : A) (m : t)
| Unfinished (m : t).
Arguments Unfinished {A} m.

Section WithUuid.

Variable uuid4 : nat -> string.

(** Lines 340-380: the template ["Standard CI/CD Pipeline"]. *)
Definition standard (fresh : string) (now : Time) : PipelineTemplate.t :=
  let t0 :=
    new_template fresh "Standard CI/CD Pipeline"
      "Standard pipeline for building, testing, and deploying AI apps" now in
  let t1 :=
    PipelineTemplate.add_step_template t0 "Checkout Code" SOURCE
      "git checkout ${BRANCH} && git pull" [] in
  let t2 :=
    PipelineTemplate.add_step_template t1 "Install Dependencies" BUILD
      "pip install -r requirements.txt" ["Checkout Code"] in
  let t3 :=
    PipelineTemplate.add_step_template t2 "Run Tests" TEST
      "pytest tests/ -v" ["Install Dependencies"] in
  let t4 :=
    PipelineTemplate.add_step_template t3 "Build Package" BUILD
      "python setup.py bdist_wheel" ["Run Tests"] in
  let t5 :=
    PipelineTemplate.add_step_template t4 "Deploy to Staging" DEPLOY
      "deploy_to_staging.sh ${APP_ID} ${VERSION}" ["Build Package"] in
  PipelineTemplate.add_step_template t5 "Verify Deployment" VERIFY
    "verify_deployment.sh ${APP_ID} ${VERSION} staging" ["Deploy to Staging"].

(** Lines 385-432: the template ["Microservice CI/CD Pipeline"]. *)
Definition microservice (fresh : string) (now : Time) : PipelineTemplate.t :=
  let t0 :=
    new_template fresh "Microservice CI/CD Pipeline"
      "Pipeline for building and deploying microservice-based AI apps" now in
  let t1 :=
    PipelineTemplate.add_step_template t0 "Checkout Code" SOURCE
      "git checkout ${BRANCH} && git pull" [] in
  let t2 :=
    PipelineTemplate.add_step_template t1 "Build Docker Image" BUILD
      "docker build -t ${APP_ID}:${VERSION} ." ["Checkout Code"] in
  let t3 :=
    PipelineTemplate.add_step_template t2 "Run Tests" TEST
      "docker run --rm ${APP_ID}:${VERSION} pytest -v"
      ["Build Docker Image"] in
  let t4 :=
    PipelineTemplate.add_step_template t3 "Push Docker Image" BUILD
      "docker push ${DOCKER_REGISTRY}/${APP_ID}:${VERSION}" ["Run Tests"] in
  let t5 :=
    PipelineTemplate.add_step_template t4 "Deploy to Kubernetes" DEPLOY
      "kubectl apply -f kubernetes/${ENV}/deployment.yaml"
      ["Push Docker Image"] in
  PipelineTemplate.add_step_template t5 "Verify Deployment" VERIFY
    "verify_k8s_deployment.sh ${APP_ID} ${VERSION} ${ENV}"
    ["Deploy to Kubernetes"].

(** [self._create_default_templates()] *)
Definition _create_default_templates (m : t) : t :=
  let standard' := standard (uuid4 (uuid_next m)) (clock m) in
  let templates1 :=
    dict_set (pipeline_templates m) (PipelineTemplate.id standard')
      standard' in
  let microservice' :=
    microservice (uuid4 (S (uuid_next m))) (S (clock m)) in
  let templates2 :=
    dict_set templates1 (PipelineTemplate.id microservice') microservice' in
  mk templates2 (pipelines m) (current_executions m) (started m)
     (S (S (clock m))) (S (S (uuid_next m))) (heap m).

(** [self.create_pipeline_template(name, description)] *)
Definition create_pipeline_template (m : t) (name description : string)
    : PipelineTemplate.t * t :=
  let template := new_template (uuid4 (uuid_next m)) name description (clock m) in
  (template,
   mk (dict_set (pipeline_templates m) (PipelineTemplate.id template) template)
      (pipelines m) (current_executions m) (started m)
      (S (clock m)) (S (uuid_next m)) (heap m)).

(** [self.get_pipeline_template(template_id)] *)
Definition get_pipeline_template (m : t) (template_id : string)
    : option PipelineTemplate.t :=
  dict_get (pipeline_templates m) template_id.

(** [self.create_pipeline_from_template(template_id, app_id, version,
    variables)].  The outer [None] is the [IndexError] that
    [create_pipeline] can raise, the inner one the [None] returned for a
    template id that is not known. *)
Definition create_pipeline_from_template (m : t) (template_id : string)
    (app_id version : string) (variables : option nat)
    : option (option Pipeline.t * t) :=
  match dict_get (pipeline_templates m) template_id with
  | None => Some (None, m)
  | Some template =>
      match PipelineTemplate.create_pipeline uuid4 template app_id version
              variables (runtime m) with
      | None => None
      | Some (pipeline, rt') =>
          Some
            (Some pipeline,
             mk (pipeline_templates m)
                (dict_set (pipelines m) (Pipeline.id pipeline) pipeline)
                (current_executions m) (started m)
                (PipelineTemplate.clock rt')
                (PipelineTemplate.uuid_next rt')
                (PipelineTemplate.heap rt'))
      end
  end.

End WithUuid.

(** [self.get_pipeline(pipeline_id)] *)
Definition get_pipeline (m : t) (pipeline_id : string) : option Pipeline.t :=
  dict_get (pipelines m) pipeline_id.

(** [self.execute_pipeline(pipeline_id)], with the executor allowed
    [fuel] passes of its loop. *)
Definition execute_pipeline (run_command : PipelineStep.t -> Outcome)
    (fuel : nat) (m : t) (pipeline_id : string) : Call bool :=
  match dict_get (pipelines m) pipeline_id with
  | None => Finished false m
  | Some pipeline =>
      let run :=
        PipelineExecutor.execute_pipeline run_command fuel
          (executor_state m) pipeline in
      let w' := final_state run in
      let pipelines' :=
        match dict_get (PipelineExecutor.current_executions w')
                (Pipeline.id pipeline) with
        | Some pipeline' => dict_set (pipelines m) pipeline_id pipeline'
        | None => pipelines m
        end in
      let m' :=
        mk (pipeline_templates m) pipelines'
           (PipelineExecutor.current_executions w')
           (PipelineExecutor.started w')
           (PipelineExecutor.clock w') (uuid_next m) (heap m) in
      match run with
      | Returned result _ => Finished result m'
      | OutOfFuel _ => Unfinished m'
      end
  end.

(** A manager before [__init__] has filled it. *)
Definition empty : t := mk [] [] [] [] 0 0 [].

End CICDManager.

(* ================================================================== *)
(** ** Vocabulary of the properties *)
(* ================================================================== *)

Module Props.

Import PipelineExecutor.

(** The dependency graph of a pipeline: every step id with the ids it
    depends on. *)
Definition graph (steps : Dict PipelineStep.t) : Dict (list string) :=
  map (fun kv => (fst kv, PipelineStep.dependencies (snd kv))) steps.

(** [depends_on steps k d]: the step stored under [k] names [d] among its
    dependencies. *)
Definition depends_on (steps : Dict PipelineStep.t) (k d : string) : Prop :=
  exists step,
    dict_get steps k = Some step /\ In d (PipelineStep.dependencies step).

(** No step reaches itself along dependencies. *)
Definition acyclic (steps : Dict PipelineStep.t) : Prop :=
  forall k, ~ clos_trans string (depends_on steps) k k.

(** Every dependency id is the id of a step of the pipeline. *)
Definition ids_present (steps : Dict PipelineStep.t) : Prop :=
  forall k step d,
    dict_get steps k = Some step ->
    In d (PipelineStep.dependencies step) ->
    dict_mem steps d = true.

(** A pipeline as it is built, before any execution. *)
Definition all_pending (steps : Dict PipelineStep.t) : Prop :=
  forall step,
    In step (dict_values steps) -> PipelineStep.status step = pending.

Definition all_succeeded (steps : Dict PipelineStep.t) : Prop :=
  forall step,
    In step (dict_values steps) -> PipelineStep.status step = succeeded.

Definition some_failed (steps : Dict PipelineStep.t) : Prop :=
  exists step,
    In step (dict_values steps) /\ PipelineStep.status step = failed.

(** Every step is succeeded or failed. *)
Definition all_terminal (steps : Dict PipelineStep.t) : Prop :=
  forall step,
    In step (dict_values steps) ->
    PipelineStep.status step = succeeded \/ PipelineStep.status step = failed.

(** Some step is neither succeeded nor failed. *)
Definition unfinished (steps : Dict PipelineStep.t) : Prop :=
  exists step,
    In step (dict_values steps) /\ PipelineStep.is_terminal step = false.

Definition is_pending (step : PipelineStep.t) : bool :=
  StepStatus_eqb (PipelineStep.status step) pending.

Definition pending_count (steps : Dict PipelineStep.t) : nat :=
  List.length (filter is_pending (dict_values steps)).

(** The pipeline registered under [pipeline_id]. *)
Definition registered (w : State) (pipeline_id : string) (p : Pipeline.t)
    : Prop :=
  dict_get (current_executions w) pipeline_id = Some p.

(** A call of [start()] was sound when, in the pipeline as it was at
    that call, every dependency of the step was the id of a step with
    status succeeded. *)
Definition sound_start (ev : StartEvent) : Prop :=
  forall step dep_id,
    dict_get (ev_steps ev) (ev_step ev) = Some step ->
    In dep_id (PipelineStep.dependencies step) ->
    exists dep_step,
      dict_get (ev_steps ev) dep_id = Some dep_step
      /\ PipelineStep.status dep_step = succeeded.

(** The ready set of the scan is empty: no pending step has all of its
    dependencies that name a step of the pipeline succeeded. *)
Definition stalled (steps : Dict PipelineStep.t) : Prop :=
  forall k step,
    dict_get steps k = Some step ->
    PipelineStep.status step = pending ->
    deps_complete steps (PipelineStep.dependencies step) = false.

(** The status [execute_step] derives from the steps once all are
    terminal. *)
Definition verdict (steps : Dict PipelineStep.t) : PipelineStatus :=
  if any_failed steps then FAILED else SUCCEEDED.

(** What holds of the pipeline under [pipeline_id] whenever all of its
    steps are terminal: its status is the verdict over the steps, and its
    [completed_at] is the reading of the clock that follows the
    [completed_at] of a step, with no reading taken since. *)
Definition settled (pipeline_id : string) (w : State) : Prop :=
  exists p,
    registered w pipeline_id p
    /\ (all_complete (Pipeline.steps p) = true ->
        Pipeline.status p = verdict (Pipeline.steps p)
        /\ exists step_id step t,
             dict_get (Pipeline.steps p) step_id = Some step
             /\ PipelineStep.completed_at step = Some t
             /\ Pipeline.completed_at p = Some (S t)
             /\ clock w = S (S t)).

(** The pipeline under [pipeline_id] still has the dependency graph
    [g]: execution changes neither the ids nor the dependencies. *)
Definition tracked (pipeline_id : string) (g : Dict (list string))
    (w : State) : Prop :=
  exists p, registered w pipeline_id p /\ graph (Pipeline.steps p) = g.

(** What a run without failing steps keeps true of the pipeline under
    [pipeline_id]: its graph is [g], every step is pending or succeeded,
    and the pipeline has left IN_PROGRESS only if all steps are
    terminal. *)
Definition clean (pipeline_id : string) (g : Dict (list string))
    (w : State) : Prop :=
  exists p,
    registered w pipeline_id p
    /\ graph (Pipeline.steps p) = g
    /\ (forall step,
          In step (dict_values (Pipeline.steps p)) ->
          PipelineStep.status step = pending
          \/ PipelineStep.status step = succeeded)
    /\ (Pipeline.status p = IN_PROGRESS
        \/ all_complete (Pipeline.steps p) = true).

(** The step under [k] is pending. *)
Definition pending_at (steps : Dict PipelineStep.t) (k : string) : Prop :=
  exists step,
    dict_get steps k = Some step /\ PipelineStep.status step = pending.

(** A path along [R] from [k] through the nodes of [l] in turn. *)
Fixpoint chain {A : Type} (R : A -> A -> Prop) (k : A) (l : list A) : Prop :=
  match l with
  | [] => True
  | d :: l' => R k d /\ chain R d l'
  end.

(** The state of [execute_pipeline] after lines 295-296: the pipeline
    is registered and started. *)
Definition entered (w : State) (pipeline : Pipeline.t) : State :=
  mkState (S (clock w))
    (dict_set (current_executions w) (Pipeline.id pipeline)
       (Pipeline.start pipeline (clock w)))
    (started w).

(** The step that [run_step] leaves under [step_id]: started at [t0],
    completed at the next reading of the clock. *)
Definition finished (run_command : PipelineStep.t -> Outcome)
    (step : PipelineStep.t) (t0 : Time) : PipelineStep.t :=
  let step1 := PipelineStep.start step t0 in
  match run_command step1 with
  | Returns =>
      PipelineStep.complete step1 true "Step executed successfully" (S t0)
  | Raises message =>
      PipelineStep.complete step1 false ("Error: " ++ message) (S t0)
  end.

End Props.

(* ================================================================== *)
(** ** Vocabulary of the properties of substitution *)
(* ================================================================== *)

Module Binder.

(** A command template read as the specification reads it: literal
    text and placeholders [${NAME}]. *)
Inductive Segment : Type :=
| Lit (text : string)
| Hole (name : string).

Definition seg_text (seg : Segment) : string :=
  match seg with
  | Lit text => text
  | Hole name => placeholder name
  end.

(** The template string the segments stand for. *)
Definition flatten (segs : list Segment) : string :=
  fold_right (fun seg acc => (seg_text seg ++ acc)%string) "" segs.

(** Substitution as the specification words it: every placeholder
    with a binding becomes the bound value, every other
    placeholder and all literal text stay as they are. *)
Definition render_seg (vars : Dict string) (seg : Segment) : string :=
  match seg with
  | Lit text => text
  | Hole name =>
      match dict_get vars name with
      | Some value => value
      | None => placeholder name
      end
  end.

Definition render (vars : Dict string) (segs : list Segment) : string :=
  fold_right (fun seg acc => (render_seg vars seg ++ acc)%string) "" segs.

(** Text without a dollar sign. *)
Definition plain (s : string) : Prop := Str.contains "$"%char s = false.

(** A variable name with neither a dollar sign nor a closing brace. *)
Definition name_ok (n : string) : Prop :=
  Str.contains "$"%char n = false /\ Str.contains "}"%char n = false.

Definition seg_ok (seg : Segment) : Prop :=
  match seg with
  | Lit text => plain text
  | Hole name => name_ok name
  end.

Definition bindings_ok (vars : Dict string) : Prop :=
  forall k v, In (k, v) vars -> name_ok k /\ plain v.

(** One binding applied to a segment. *)
Definition fill (k v : string) (seg : Segment) : Segment :=
  match seg with
  | Lit text => Lit text
  | Hole name => if String.eqb name k then Lit v else Hole name
  end.

(** The dict object the caller handed in, as a value ([None] counts as
    no bindings). *)
Definition caller_dict (rt : PipelineTemplate.Runtime)
    (variables : option nat) : Dict string :=
  match variables with
  | Some ref => PipelineTemplate.deref rt ref
  | None => []
  end.

(** The bindings in force during instantiation: the caller's, with
    APP_ID and VERSION set from the arguments. *)
Definition effective (app_id version : string) (caller : Dict string)
    : Dict string :=
  dict_update caller [("APP_ID", app_id); ("VERSION", version)].

(** The [uuid4] strings drawn for the steps of a template with [n]
    steps, when the call starts with [uuid_next = first]: the one after
    the pipeline's own. *)
Definition step_ids (uuid4 : nat -> string) (first n : nat) : list string :=
  map uuid4 (seq (S first) n).

(** The templates paired with the number of the [uuid4] draw that
    names their step. *)
Fixpoint numbered (first : nat)
    (templates : list PipelineTemplate.StepTemplate)
    : list (nat * PipelineTemplate.StepTemplate) :=
  match templates with
  | [] => []
  | t :: rest => (first, t) :: numbered (S first) rest
  end.

(** The step the first loop of [create_pipeline] builds from a
    template. *)
Definition made_step (uuid4 : nat -> string) (vars : Dict string)
    (it : nat * PipelineTemplate.StepTemplate) : string * PipelineStep.t :=
  (uuid4 (fst it),
   PipelineStep.init (uuid4 (fst it))
     (PipelineTemplate.st_name (snd it))
     (PipelineTemplate.st_stage (snd it))
     (substitute (PipelineTemplate.command_template (snd it)) vars) []).

(** The map from step names to step ids the first loop builds. *)
Definition name_map (uuid4 : nat -> string)
    (its : list (nat * PipelineTemplate.StepTemplate))
    (m0 : Dict string) : Dict string :=
  fold_left
    (fun m it => dict_set m (PipelineTemplate.st_name (snd it)) (uuid4 (fst it)))
    its m0.

(** The steps of the pipeline [create_pipeline] returns, in closed
    form: one per template, in order, pending, with the substituted
    command and the dependency names resolved through [m]. *)
Fixpoint instantiated (uuid4 : nat -> string) (vars m : Dict string)
    (first : nat) (templates : list PipelineTemplate.StepTemplate)
    : Dict PipelineStep.t :=
  match templates with
  | [] => []
  | t :: rest =>
      (uuid4 first,
       PipelineStep.mk (uuid4 first)
         (PipelineTemplate.st_name t) (PipelineTemplate.st_stage t)
         (substitute (PipelineTemplate.command_template t) vars)
         (PipelineTemplate.resolve_dependencies m
            (PipelineTemplate.st_dependencies t))
         pending "" None None)
      :: instantiated uuid4 vars m (S first) rest
  end.

(** Every id the name map gives is a key of [steps]. *)
Definition map_into (m : Dict string) (steps : Dict PipelineStep.t) : Prop :=
  forall n id, dict_get m n = Some id -> In id (dict_keys steps).

(** Every dependency of every step is a key of [steps]. *)
Definition closed (steps : Dict PipelineStep.t) : Prop :=
  forall k s d,
    In (k, s) steps -> In d (PipelineStep.dependencies s) ->
    In d (dict_keys steps).

(** Is [n] the name of a step of the template? *)
Definition names_step (templates : list PipelineTemplate.StepTemplate)
    (n : string) : bool :=
  existsb (fun t => String.eqb n (PipelineTemplate.st_name t)) templates.

End Binder.

(* ================================================================== *)
(** ** Decision procedures and sample pipelines *)
(* ================================================================== *)

Module Check.

Import PipelineExecutor Props.

Fixpoint distinctb (l : list string) : bool :=
  match l with
  | [] => true
  | x :: l' => negb (existsb (String.eqb x) l') && distinctb l'
  end.

Definition all_pendingb (steps : Dict PipelineStep.t) : bool :=
  forallb is_pending (dict_values steps).

Definition ids_presentb (steps : Dict PipelineStep.t) : bool :=
  forallb
    (fun kv => forallb (dict_mem steps) (PipelineStep.dependencies (snd kv)))
    steps.

(** [rank] numbers the steps so that every dependency has a smaller
    number than the step that names it. *)
Definition rankedb (rank : string -> nat) (steps : Dict PipelineStep.t)
    : bool :=
  forallb
    (fun kv =>
       forallb (fun dep_id => Nat.ltb (rank dep_id) (rank (fst kv)))
         (PipelineStep.dependencies (snd kv)))
    steps.

Definition stalledb (steps : Dict PipelineStep.t) : bool :=
  forallb
    (fun kv =>
       negb (is_pending (snd kv))
       || negb (deps_complete steps (PipelineStep.dependencies (snd kv))))
    steps.

(** The position of [k] in [keys] (their number when it is not there). *)
Fixpoint position (keys : list string) (k : string) : nat :=
  match keys with
  | [] => O
  | k' :: keys' => if String.eqb k k' then O else S (position keys' k)
  end.

End Check.

Module Sample.

Import PipelineExecutor.

(** A step as [PipelineStep(name, stage, command, dependencies)] builds
    it, with the given id. *)
Definition step (id : string) (deps : list string) : PipelineStep.t :=
  PipelineStep.init id id BUILD ("run " ++ id) deps.

(** [Pipeline("demo", "app-1", "2.0")] with the steps added in turn. *)
Definition pipeline (steps : list PipelineStep.t) : Pipeline.t :=
  fold_left (fun p s => Pipeline.add_step p s 0) steps
    (Pipeline.init "P" "demo" "app-1" "2.0" 0).

(** The command of the steps with these ids raises; all others go
    through. *)
Definition fails_on (ids : list string) (s : PipelineStep.t) : Outcome :=
  if existsb (String.eqb (PipelineStep.id s)) ids
  then Raises "boom" else Returns.

Definition diamond : Pipeline.t :=
  pipeline [step "A" []; step "B" ["A"]; step "C" ["A"]; step "D" ["B"; "C"]].

(** Two steps that wait for each other. *)
Definition cycle : Pipeline.t :=
  pipeline [step "X" ["Y"]; step "Y" ["X"]].

(** A failing root, a second root and a step that depends on the second
    root only. *)
Definition two_roots : Pipeline.t :=
  pipeline [step "R1" []; step "R2" []; step "X" ["R2"]].

Definition empty : Pipeline.t := pipeline [].

(** A step whose dependency names no step of the pipeline. *)
Definition dangling : Pipeline.t := pipeline [step "X" ["ghost"]].

(** A source of distinct identifiers: [uuid-0], [uuid-1], ... *)
Definition uuid (n : nat) : string :=
  "uuid-" ++ String (ascii_of_nat (48 + n)) "".

(** A template of one step. *)
Definition one_step (command_template : string) : PipelineTemplate.t :=
  PipelineTemplate.add_step_template
    (PipelineTemplate.mk "T" "Deploy" "sample" [] 0)
    "Deploy" DEPLOY command_template [].

(** Steps A, B (after A) and X (after B and after an undeclared Y). *)
Definition with_undeclared : PipelineTemplate.t :=
  PipelineTemplate.add_step_template
    (PipelineTemplate.add_step_template
       (PipelineTemplate.add_step_template
          (PipelineTemplate.mk "T" "Build" "sample" [] 0)
          "A" SOURCE "checkout ${BRANCH}" [])
       "B" BUILD "build ${APP_ID}" ["A"])
    "X" TEST "test ${APP_ID}:${VERSION}" ["B"; "Y"].

(** A runtime whose heap holds the caller's dict at reference 0. *)
Definition runtime (caller : Dict string) : PipelineTemplate.Runtime :=
  PipelineTemplate.mkRuntime 0 0 [caller].

End Sample.

(* ================================================================== *)
(** ** Vocabulary of further properties of the scheduler *)
(* ================================================================== *)

Module Order.

Import PipelineExecutor Props.

(** The step [step] of [steps] has run: it was started at some reading
    [ts] of the clock and completed at the next one, it is succeeded or
    failed, and each of its dependencies is a succeeded step that was
    completed before [ts]. *)
Definition ran_in_order (steps : Dict PipelineStep.t) (step : PipelineStep.t)
    (ts : Time) : Prop :=
  PipelineStep.started_at step = Some ts
  /\ PipelineStep.completed_at step = Some (S ts)
  /\ (PipelineStep.status step = succeeded
      \/ PipelineStep.status step = failed)
  /\ forall dep_id,
       In dep_id (PipelineStep.dependencies step) ->
       exists dep_step td,
         dict_get steps dep_id = Some dep_step
         /\ PipelineStep.status dep_step = succeeded
         /\ PipelineStep.completed_at dep_step = Some td
         /\ td < ts.

(** The steps started since the history was [h0]: their ids, newest
    first. *)
Definition started_ids (new : list StartEvent) : list string :=
  map ev_step new.

(** What a run on a pipeline that was entered with all steps pending
    keeps true: no step is started twice, a step is pending exactly as
    long as it has not been started, and a step that was started has run
    in order, before the present reading of the clock. *)
Definition orderly (pipeline_id : string) (h0 : list StartEvent)
    (w : State) : Prop :=
  exists p new,
    registered w pipeline_id p
    /\ dict_wf (Pipeline.steps p)
    /\ started w = new ++ h0
    /\ NoDup (started_ids new)
    /\ forall k step,
         dict_get (Pipeline.steps p) k = Some step ->
         (PipelineStep.status step = pending /\ ~ In k (started_ids new))
         \/ (In k (started_ids new)
             /\ exists ts,
                  ran_in_order (Pipeline.steps p) step ts
                  /\ S ts < clock w).

(** Two pipelines that differ at most in what execution writes: the
    status, the logs and the timestamps of steps, and the status and the
    timestamps of the pipeline. *)
Definition same_step (s s' : PipelineStep.t) : Prop :=
  PipelineStep.id s' = PipelineStep.id s
  /\ PipelineStep.name s' = PipelineStep.name s
  /\ PipelineStep.stage s' = PipelineStep.stage s
  /\ PipelineStep.command s' = PipelineStep.command s
  /\ PipelineStep.dependencies s' = PipelineStep.dependencies s.

Definition same_pipeline (p p' : Pipeline.t) : Prop :=
  Pipeline.id p' = Pipeline.id p
  /\ Pipeline.name p' = Pipeline.name p
  /\ Pipeline.app_id p' = Pipeline.app_id p
  /\ Pipeline.version p' = Pipeline.version p
  /\ Pipeline.created_at p' = Pipeline.created_at p
  /\ dict_keys (Pipeline.steps p') = dict_keys (Pipeline.steps p)
  /\ forall k s',
       dict_get (Pipeline.steps p') k = Some s' ->
       exists s, dict_get (Pipeline.steps p) k = Some s /\ same_step s s'.

(** The executor holds under [pipeline_id] a pipeline that differs from
    [p] at most in what execution writes, and holds under every other id
    what [w0] held. *)
Definition framed (pipeline_id : string) (w0 : State) (p : Pipeline.t)
    (w : State) : Prop :=
  (forall other,
      other <> pipeline_id ->
      dict_get (current_executions w) other
      = dict_get (current_executions w0) other)
  /\ exists p', registered w pipeline_id p' /\ same_pipeline p p'.

(** A pipeline with status SUCCEEDED has steps, all succeeded, and a
    [completed_at]. *)
Definition success_is_earned (pipeline_id : string) (w : State) : Prop :=
  forall p,
    registered w pipeline_id p ->
    Pipeline.status p = SUCCEEDED ->
    Pipeline.steps p <> []
    /\ all_succeeded (Pipeline.steps p)
    /\ Pipeline.completed_at p <> None.

(** [execute_step] has a reason to refuse: the pipeline id is unknown,
    or the step id is unknown, or some dependency of the step names no
    step of the pipeline or names a step that is not succeeded. *)
Definition refused (w : State) (pipeline_id step_id : string) : Prop :=
  dict_get (current_executions w) pipeline_id = None
  \/ exists p,
       registered w pipeline_id p
       /\ (dict_get (Pipeline.steps p) step_id = None
           \/ exists step dep_id,
                dict_get (Pipeline.steps p) step_id = Some step
                /\ In dep_id (PipelineStep.dependencies step)
                /\ (dict_get (Pipeline.steps p) dep_id = None
                    \/ exists dep_step,
                         dict_get (Pipeline.steps p) dep_id = Some dep_step
                         /\ PipelineStep.status dep_step <> succeeded)).

(** How the pipeline's own status follows its steps in a run that
    was entered with all steps pending: FAILED as soon as a step has
    failed; otherwise IN_PROGRESS while a step is left to finish (or
    there is no step at all), and SUCCEEDED once all have succeeded. *)
Definition judged (pipeline_id : string) (w : State) : Prop :=
  exists p,
    registered w pipeline_id p
    /\ dict_wf (Pipeline.steps p)
    /\ (any_failed (Pipeline.steps p) = true -> Pipeline.status p = FAILED)
    /\ (any_failed (Pipeline.steps p) = false ->
        (Pipeline.status p = IN_PROGRESS
         /\ (Pipeline.steps p = []
             \/ all_complete (Pipeline.steps p) = false))
        \/ (Pipeline.status p = SUCCEEDED
            /\ all_succeeded (Pipeline.steps p))).

(** The pipeline under [pipeline_id] is IN_PROGRESS and its pending
    step [k] names among its dependencies the id [d] of no step. *)
Definition hung (pipeline_id k d : string) (w : State) : Prop :=
  exists p step,
    registered w pipeline_id p
    /\ Pipeline.status p = IN_PROGRESS
    /\ dict_get (Pipeline.steps p) k = Some step
    /\ PipelineStep.status step = pending
    /\ In d (PipelineStep.dependencies step)
    /\ dict_get (Pipeline.steps p) d = None.

(** The step under [k] has no dependencies: the first loop of
    [execute_pipeline] executes it. *)
Definition is_root (steps : Dict PipelineStep.t) (k : string) : bool :=
  match dict_get steps k with
  | Some step =>
      match PipelineStep.dependencies step with
      | [] => true
      | _ :: _ => false
      end
  | None => false
  end.

End Order.
(* ================================================================== *)
(** ** Vocabulary of the properties of templates *)
(* ================================================================== *)

Module Layers.

Import PipelineTemplate.

(** [x in l] for a list of strings. *)
Definition mem (x : string) (l : list string) : bool :=
  existsb (String.eqb x) l.

(** The step templates are layered over the names [seen]: every step
    has a name of its own, and each of its dependencies is the name of a
    step listed before it (or one of [seen]). *)
Fixpoint layered_from (seen : list string) (templates : list StepTemplate)
    : bool :=
  match templates with
  | [] => true
  | t :: rest =>
      negb (mem (st_name t) seen)
      && forallb (fun dep_name => mem dep_name seen) (st_dependencies t)
      && layered_from (st_name t :: seen) rest
  end.

Definition layered (templates : list StepTemplate) : bool :=
  layered_from [] templates.

(** A ranking of the step ids under which every dependency ranks
    below the step that names it. *)
Definition ranked (rank : string -> nat) (steps : Dict PipelineStep.t)
    : Prop :=
  forall k step d,
    dict_get steps k = Some step ->
    In d (PipelineStep.dependencies step) ->
    rank d < rank k.

(** A pipeline as the executor wants it: step ids distinct, every step
    pending, every dependency the id of a step. *)
Definition ready (steps : Dict PipelineStep.t) : Prop :=
  dict_wf steps
  /\ Props.all_pending steps
  /\ Props.ids_present steps
  /\ forall k step,
       dict_get steps k = Some step -> PipelineStep.id step = k.

End Layers.
(* ================================================================== *)
(** ** Sample templates and a sample manager *)
(* ================================================================== *)

Module Demo.

(** Two steps that wait for each other. *)
Definition knot : PipelineTemplate.t :=
  PipelineTemplate.add_step_template
    (PipelineTemplate.add_step_template
       (PipelineTemplate.mk "T" "Knot" "sample" [] 0)
       "A" BUILD "make a" ["B"])
    "B" BUILD "make b" ["A"].

(** Two steps of one name, and a step that depends on the name. *)
Definition twice : PipelineTemplate.t :=
  PipelineTemplate.add_step_template
    (PipelineTemplate.add_step_template
       (PipelineTemplate.add_step_template
          (PipelineTemplate.mk "T" "Twice" "sample" [] 0)
          "Build" BUILD "make" [])
       "Build" BUILD "make again" [])
    "Ship" DEPLOY "ship ${APP_ID}" ["Build"].

(** The variables of the example at the end of the module. *)
Definition variables : Dict string :=
  [("BRANCH", "main"); ("ENV", "staging")].

(** A manager with the default templates, and the variables of the
    example at reference 0 of the heap. *)
Definition manager : CICDManager.t :=
  CICDManager._create_default_templates Sample.uuid
    (CICDManager.mk [] [] [] [] 0 0 [variables]).

(** The manager after
    [create_pipeline_from_template(standard.id, "app-123", "1.0.0", variables)]. *)
Definition manager_with_pipeline : CICDManager.t :=
  match
    CICDManager.create_pipeline_from_template Sample.uuid manager
      "uuid-0" "app-123" "1.0.0" (Some 0)
  with
  | Some (_, m) => m
  | None => manager
  end.

(** The diamond after a run. *)
Definition diamond_done : Pipeline.t :=
  match
    dict_get
      (PipelineExecutor.current_executions
         (PipelineExecutor.final_state
            (PipelineExecutor.execute_pipeline PipelineExecutor.simulated 5
               PipelineExecutor.idle Sample.diamond)))
      "P"
  with
  | Some p => p
  | None => Sample.diamond
  end.


(** A step that runs, then two steps that wait for each other. *)
Definition late_stall : Pipeline.t :=
  Sample.pipeline
    [Sample.step "A" []; Sample.step "B" ["A"];
     Sample.step "X" ["B"; "Y"]; Sample.step "Y" ["X"]].

End Demo.

(* ================================================================== *)
(** * Properties *)
(* ================================================================== *)

Unset Implicit Arguments.

(** ** Dictionaries *)

Section DictFacts.
Context {V : Type}.
Implicit Types (d : Dict V) (k : string) (v : V).

Lemma dict_get_set_same d k v : dict_get (dict_set d k v) k = Some v.
Proof.
  induction d as [|[k' v'] d IH]; simpl.
  - now rewrite String.eqb_refl.
  - destruct (String.eqb k k') eqn:E; simpl; rewrite E; auto.
Qed.

Lemma dict_get_set_other d k k' v :
  k <> k' -> dict_get (dict_set d k v) k' = dict_get d k'.
Proof.
  intros Hne. induction d as [|[k0 v0] d IH]; simpl.
  - destruct (String.eqb_spec k' k); congruence.
  - destruct (String.eqb_spec k k0) as [->|Hk]; simpl.
    + destruct (String.eqb_spec k' k0); congruence.
    + destruct (String.eqb_spec k' k0); auto.
Qed.

Lemma dict_get_set d k k' v :
  dict_get (dict_set d k v) k' =
  if String.eqb k' k then Some v else dict_get d k'.
Proof.
  destruct (String.eqb_spec k' k) as [->|Hne].
  - apply dict_get_set_same.
  - apply dict_get_set_other; congruence.
Qed.

Lemma dict_get_In d k v : dict_get d k = Some v -> In (k, v) d.
Proof.
  induction d as [|[k' v'] d IH]; simpl; [discriminate|].
  destruct (String.eqb_spec k k') as [->|Hne]; intros H.
  - injection H as ->. now left.
  - right; auto.
Qed.

Lemma dict_get_In_keys d k v : dict_get d k = Some v -> In k (dict_keys d).
Proof.
  intros H. apply dict_get_In in H.
  unfold dict_keys. change k with (fst (k, v)). now apply in_map.
Qed.

Lemma dict_get_None d k : dict_get d k = None <-> ~ In k (dict_keys d).
Proof.
  induction d as [|[k' v'] d IH]; simpl.
  - tauto.
  - destruct (String.eqb_spec k k') as [->|Hne].
    + split; [discriminate | intros H; exfalso; apply H; now left].
    + rewrite IH. split; intros H; [intros [E|E]; [congruence | tauto] | tauto].
Qed.

Lemma In_keys_dict_get d k : In k (dict_keys d) -> exists v, dict_get d k = Some v.
Proof.
  intros H. destruct (dict_get d k) as [v|] eqn:E; [now exists v|].
  apply dict_get_None in E. contradiction.
Qed.

Lemma In_dict_get d k v : dict_wf d -> In (k, v) d -> dict_get d k = Some v.
Proof.
  unfold dict_wf. induction d as [|[k' v'] d IH]; simpl; [tauto|].
  intros Hnd [E|Hin].
  - injection E as -> ->. now rewrite String.eqb_refl.
  - inversion Hnd as [|? ? Hnotin Hnd']; subst.
    destruct (String.eqb_spec k k') as [->|Hne]; [|auto].
    exfalso. apply Hnotin. change k' with (fst (k', v)).
    now apply in_map.
Qed.

Lemma dict_mem_true d k : dict_mem d k = true <-> In k (dict_keys d).
Proof.
  unfold dict_mem. destruct (dict_get d k) eqn:E.
  - split; [intros _; eapply dict_get_In_keys; eauto | auto].
  - split; [discriminate | intros H; apply dict_get_None in E; contradiction].
Qed.

(** Assigning to a key that is there keeps the keys and their order. *)
Lemma dict_keys_set_present d k v v' :
  dict_get d k = Some v' -> dict_keys (dict_set d k v) = dict_keys d.
Proof.
  induction d as [|[k0 v0] d IH]; simpl; [discriminate|].
  destruct (String.eqb_spec k k0) as [->|Hne]; simpl; [reflexivity|].
  intros H. now rewrite IH.
Qed.

(** Assigning to a new key appends it. *)
Lemma dict_keys_set_absent d k v :
  dict_get d k = None -> dict_keys (dict_set d k v) = dict_keys d ++ [k].
Proof.
  induction d as [|[k0 v0] d IH]; simpl; [reflexivity|].
  destruct (String.eqb_spec k k0) as [->|Hne]; simpl; [discriminate|].
  intros H. now rewrite IH.
Qed.

Lemma dict_set_keys_incl d k v k' :
  In k' (dict_keys (dict_set d k v)) <-> k' = k \/ In k' (dict_keys d).
Proof.
  destruct (dict_get d k) as [v'|] eqn:E.
  - erewrite dict_keys_set_present by eauto. split; [tauto|].
    intros [->|H]; [eapply dict_get_In_keys; eauto | auto].
  - rewrite dict_keys_set_absent by auto. rewrite in_app_iff. simpl.
    split; intros [H|H]; auto. destruct H as [->|[]]; auto.
Qed.

Lemma dict_wf_set d k v : dict_wf d -> dict_wf (dict_set d k v).
Proof.
  unfold dict_wf. destruct (dict_get d k) as [v'|] eqn:E.
  - now erewrite dict_keys_set_present by eauto.
  - rewrite dict_keys_set_absent by auto. intros H.
    apply NoDup_app; [assumption | repeat constructor; simpl; tauto |].
    intros x Hx [->|[]]. apply dict_get_None in E. contradiction.
Qed.

Lemma dict_get_In_values d k v : dict_get d k = Some v -> In v (dict_values d).
Proof.
  intros H. apply dict_get_In in H.
  unfold dict_values. change v with (snd (k, v)). now apply in_map.
Qed.

Lemma dict_values_set_In d k v x :
  In x (dict_values (dict_set d k v)) -> x = v \/ In x (dict_values d).
Proof.
  induction d as [|[k0 v0] d IH]; simpl.
  - intros [<-|[]]; auto.
  - destruct (String.eqb k k0); simpl; intros [<-|H]; auto.
    destruct (IH H); auto.
Qed.

Lemma In_values_dict_get d v :
  dict_wf d -> In v (dict_values d) -> exists k, dict_get d k = Some v.
Proof.
  intros Hwf H. unfold dict_values in H. apply in_map_iff in H.
  destruct H as ([k v'] & <- & Hin). exists k. now apply In_dict_get.
Qed.

End DictFacts.

(** ** The executor: what one call of [execute_step] does *)

Section ExecutorFacts.

Import PipelineExecutor Props.

Variable run_command : PipelineStep.t -> Outcome.
Variable pipeline_id : string.

Local Abbreviation execute_step := (execute_step run_command).
Local Abbreviation run_step := (run_step run_command).
Local Abbreviation finished := (finished run_command).

Lemma finished_dependencies step t0 :
  PipelineStep.dependencies (finished step t0) = PipelineStep.dependencies step.
Proof. unfold finished. now destruct (run_command _). Qed.

Lemma finished_terminal step t0 :
  PipelineStep.is_terminal (finished step t0) = true.
Proof. unfold finished. now destruct (run_command _). Qed.

Lemma finished_not_pending step t0 : is_pending (finished step t0) = false.
Proof. unfold finished. now destruct (run_command _). Qed.

Lemma finished_completed_at step t0 :
  PipelineStep.completed_at (finished step t0) = Some (S t0).
Proof. unfold finished. now destruct (run_command _). Qed.

Lemma finished_status step t0 :
  PipelineStep.status (finished step t0) =
  match run_command (PipelineStep.start step t0) with
  | Returns => succeeded
  | Raises _ => failed
  end.
Proof. unfold finished. now destruct (run_command _). Qed.

Lemma run_step_steps p step_id step t0 :
  Pipeline.steps (snd (fst (run_step p step_id step t0))) =
  dict_set (Pipeline.steps p) step_id (finished step t0).
Proof.
  unfold run_step, finished.
  destruct (run_command _); simpl; [|reflexivity].
  now destruct (all_complete _).
Qed.

Lemma run_step_id p step_id step t0 :
  Pipeline.id (snd (fst (run_step p step_id step t0))) = Pipeline.id p.
Proof.
  unfold run_step.
  destruct (run_command _); simpl; [|reflexivity].
  now destruct (all_complete _).
Qed.

(** How the pipeline's own status moves in [run_step]. *)
Lemma run_step_status p step_id step t0 :
  let p' := snd (fst (run_step p step_id step t0)) in
  let t' := snd (run_step p step_id step t0) in
  match run_command (PipelineStep.start step t0) with
  | Returns =>
      if all_complete (Pipeline.steps p')
      then Pipeline.status p' = verdict (Pipeline.steps p')
           /\ Pipeline.completed_at p' = Some (S (S t0))
           /\ t' = S (S (S t0))
      else Pipeline.status p' = Pipeline.status p
           /\ Pipeline.completed_at p' = Pipeline.completed_at p
           /\ t' = S (S t0)
  | Raises _ =>
      Pipeline.status p' = FAILED
      /\ Pipeline.completed_at p' = Some (S (S t0))
      /\ t' = S (S (S t0))
  end.
Proof.
  unfold run_step, verdict.
  destruct (run_command _); [|simpl; auto].
  cbv zeta.
  set (steps' := dict_set (Pipeline.steps p) step_id _).
  change (Pipeline.steps (Pipeline.with_steps p steps')) with steps'.
  destruct (all_complete steps') eqn:E; simpl; rewrite E; auto.
Qed.

(** [execute_step] either leaves everything as it is and returns
    [False], or passes its guards and runs the step. *)
Lemma execute_step_inv w step_id :
  execute_step w pipeline_id step_id = (false, w)
  \/ exists p step,
       registered w pipeline_id p
       /\ dict_get (Pipeline.steps p) step_id = Some step
       /\ dependencies_succeeded (Pipeline.steps p)
            (PipelineStep.dependencies step) = true
       /\ execute_step w pipeline_id step_id =
          (fst (fst (run_step p step_id step (clock w))),
           mkState (snd (run_step p step_id step (clock w)))
             (dict_set (current_executions w) pipeline_id
                (snd (fst (run_step p step_id step (clock w)))))
             (mkStartEvent pipeline_id step_id (Pipeline.steps p)
                :: started w)).
Proof.
  unfold execute_step, registered.
  destruct (dict_get (current_executions w) pipeline_id) as [p|]; [|now left].
  destruct (dict_get (Pipeline.steps p) step_id) as [step|] eqn:Es; [|now left].
  destruct (dependencies_succeeded _ _) eqn:Ed; [|now left].
  right. exists p, step. repeat split; auto.
  now destruct (run_step _ _ _ _) as [[r p'] t'].
Qed.

Lemma execute_step_run w step_id p step :
  registered w pipeline_id p ->
  dict_get (Pipeline.steps p) step_id = Some step ->
  dependencies_succeeded (Pipeline.steps p)
    (PipelineStep.dependencies step) = true ->
  execute_step w pipeline_id step_id =
  (fst (fst (run_step p step_id step (clock w))),
   mkState (snd (run_step p step_id step (clock w)))
     (dict_set (current_executions w) pipeline_id
        (snd (fst (run_step p step_id step (clock w)))))
     (mkStartEvent pipeline_id step_id (Pipeline.steps p) :: started w)).
Proof.
  unfold execute_step, registered. intros -> -> ->.
  now destruct (run_step _ _ _ _) as [[r p'] t'].
Qed.

(** *** Properties kept by every call carry over to the loops *)

Section Invariant.

Variable I : State -> Prop.
Hypothesis step_keeps :
  forall w step_id, I w -> I (snd (execute_step w pipeline_id step_id)).

Lemma visit_root_keeps w step_id :
  I w -> I (visit_root run_command pipeline_id w step_id).
Proof.
  intros H. unfold visit_root.
  destruct (dict_get _ step_id) as [step|]; [|assumption].
  destruct (PipelineStep.dependencies step); auto.
Qed.

Lemma roots_keep keys w :
  I w -> I (fold_left (visit_root run_command pipeline_id) keys w).
Proof.
  revert w. induction keys as [|k keys IH]; simpl; intros w H; auto.
  apply IH. now apply visit_root_keeps.
Qed.

Lemma visit_keeps acc step_id :
  I (snd acc) -> I (snd (visit run_command pipeline_id acc step_id)).
Proof.
  destruct acc as [pm w]. simpl. intros H.
  destruct (dict_get _ step_id) as [step|]; [|assumption].
  destruct (PipelineStep.status step); try assumption.
  destruct (deps_complete _ _); simpl; auto.
Qed.

Lemma visits_keep keys acc :
  I (snd acc) ->
  I (snd (fold_left (visit run_command pipeline_id) keys acc)).
Proof.
  revert acc. induction keys as [|k keys IH]; simpl; intros acc H; auto.
  apply IH. now apply visit_keeps.
Qed.

Lemma scan_keeps w : I w -> I (snd (scan run_command pipeline_id w)).
Proof. intros H. unfold scan. now apply visits_keep. Qed.

Lemma while_loop_keeps fuel progress_made w :
  I w ->
  I (final_state (while_loop run_command fuel pipeline_id progress_made w)).
Proof.
  revert progress_made w.
  induction fuel as [|fuel IH]; intros pm w H; simpl.
  - now destruct (pm && _).
  - destruct (pm && _); [|assumption].
    pose proof (scan_keeps w H) as Hs.
    destruct (scan run_command pipeline_id w) as [pm' w']. now apply IH.
Qed.

End Invariant.

End ExecutorFacts.

(** ** Soundness of every [start()], stalls, and the empty pipeline *)

Section Scheduling.

Import PipelineExecutor Props.

Variable run_command : PipelineStep.t -> Outcome.

Local Abbreviation execute_step := (execute_step run_command).
Local Abbreviation execute_pipeline := (execute_pipeline run_command).
Local Abbreviation while_loop := (while_loop run_command).
Local Abbreviation scan := (scan run_command).
Local Abbreviation visit := (visit run_command).
Local Abbreviation visit_root := (visit_root run_command).

Lemma execute_pipeline_unfold fuel w p :
  execute_pipeline fuel w p =
  match while_loop fuel (Pipeline.id p) true
          (fold_left (visit_root (Pipeline.id p))
             (dict_keys (live_steps (entered w p) (Pipeline.id p)))
             (entered w p))
  with
  | OutOfFuel w3 => OutOfFuel w3
  | Returned _ w3 =>
      Returned
        match live_status w3 (Pipeline.id p) with
        | Some SUCCEEDED => true
        | _ => false
        end
        w3
  end.
Proof. reflexivity. Qed.

Lemma final_state_execute_pipeline fuel w p :
  final_state (execute_pipeline fuel w p) =
  final_state
    (while_loop fuel (Pipeline.id p) true
       (fold_left (visit_root (Pipeline.id p))
          (dict_keys (live_steps (entered w p) (Pipeline.id p)))
          (entered w p))).
Proof.
  unfold PipelineExecutor.execute_pipeline. fold (entered w p).
  now destruct (while_loop _ _ _ _).
Qed.

Lemma registered_entered w p :
  registered (entered w p) (Pipeline.id p) (Pipeline.start p (clock w)).
Proof. unfold registered, entered. simpl. apply dict_get_set_same. Qed.

Lemma live_steps_registered w pipeline_id p :
  registered w pipeline_id p -> live_steps w pipeline_id = Pipeline.steps p.
Proof. unfold registered, live_steps. now intros ->. Qed.

Lemma live_status_registered w pipeline_id p :
  registered w pipeline_id p ->
  live_status w pipeline_id = Some (Pipeline.status p).
Proof. unfold registered, live_status. now intros ->. Qed.

(** The guard of [execute_step], read as a statement. *)
Lemma dependencies_succeeded_sound steps deps :
  dependencies_succeeded steps deps = true ->
  forall dep_id,
    In dep_id deps ->
    exists dep_step,
      dict_get steps dep_id = Some dep_step
      /\ PipelineStep.status dep_step = succeeded.
Proof.
  induction deps as [|d deps IH]; simpl; [intros _ ? []|].
  destruct (dict_get steps d) as [ds|] eqn:E; [|discriminate].
  destruct (PipelineStep.status ds) eqn:Es; simpl; try discriminate.
  intros H dep_id [<-|Hin]; eauto.
Qed.

Lemma execute_step_started w pipeline_id step_id :
  exists new,
    started (snd (execute_step w pipeline_id step_id)) = new ++ started w
    /\ Forall sound_start new.
Proof.
  destruct (execute_step_inv run_command pipeline_id w step_id)
    as [E|(p & step & Hp & Hs & Hd & E)]; rewrite E; simpl.
  - exists []. split; [reflexivity | constructor].
  - exists [mkStartEvent pipeline_id step_id (Pipeline.steps p)].
    split; [reflexivity|]. constructor; [|constructor].
    intros step' dep_id. simpl. rewrite Hs. intros [= <-].
    now apply dependencies_succeeded_sound.
Qed.

(** C1. Topological soundness: during [execute_pipeline], on any
    pipeline and for as long as the run goes on, every call of
    [step.start()] happens in a state in which each dependency of that
    step is the id of a step of the pipeline whose status is
    succeeded. *)
Theorem topological_soundness :
  forall (fuel : nat) (w : State) (pipeline : Pipeline.t),
  exists new,
    started (final_state (execute_pipeline fuel w pipeline))
    = new ++ started w
    /\ Forall sound_start new.
Proof.
  intros fuel w p. rewrite final_state_execute_pipeline.
  set (I := fun w' : State =>
         exists new, started w' = new ++ started w /\ Forall sound_start new).
  assert (Hstep : forall w' step_id,
             I w' -> I (snd (execute_step w' (Pipeline.id p) step_id))).
  { intros w' step_id (new & Hnew & Hall).
    destruct (execute_step_started w' (Pipeline.id p) step_id)
      as (more & Hmore & Hsound).
    exists (more ++ new). split.
    - now rewrite Hmore, Hnew, app_assoc.
    - apply Forall_app; auto. }
  apply (while_loop_keeps run_command (Pipeline.id p) I Hstep).
  apply (roots_keep run_command (Pipeline.id p) I Hstep).
  exists []. split; [reflexivity | constructor].
Qed.

(** *** A pass over a stalled pipeline *)

Lemma visit_stalled pipeline_id w p step_id :
  registered w pipeline_id p ->
  stalled (Pipeline.steps p) ->
  visit pipeline_id (false, w) step_id = (false, w).
Proof.
  intros Hp Hst. unfold PipelineExecutor.visit.
  rewrite (live_steps_registered _ _ _ Hp).
  destruct (dict_get (Pipeline.steps p) step_id) as [step|] eqn:E; auto.
  destruct (PipelineStep.status step) eqn:Es; auto.
  now rewrite (Hst _ _ E Es).
Qed.

Lemma scan_stalled pipeline_id w p :
  registered w pipeline_id p ->
  stalled (Pipeline.steps p) ->
  scan pipeline_id w = (false, w).
Proof.
  intros Hp Hst. unfold PipelineExecutor.scan.
  induction (dict_keys (live_steps w pipeline_id)) as [|k keys IH];
    cbn [fold_left]; auto.
  now rewrite (visit_stalled _ _ _ _ Hp Hst).
Qed.

(** When the passes allowed run out, the loop is about to start
    another pass on a pipeline that is in progress. *)
Lemma while_loop_out_of_fuel : forall passes pipeline_id progress_made w ws,
  while_loop passes pipeline_id progress_made w = OutOfFuel ws ->
  live_status ws pipeline_id = Some IN_PROGRESS.
Proof.
  induction passes as [|passes IH]; intros pid pm w ws; cbn [while_loop].
  - destruct pm; simpl; [|discriminate].
    destruct (live_status w pid) as [[]|] eqn:E; try discriminate.
    now intros [= <-].
  - destruct (pm && _); [|discriminate].
    destruct (scan pid w) as [pm1 w1]. apply IH.
Qed.

(** A pass that starts on a stalled pipeline is the last one, and it
    leaves the state as it found it. *)
Lemma while_loop_stalled : forall passes pipeline_id progress_made w ws p,
  while_loop passes pipeline_id progress_made w = OutOfFuel ws ->
  registered ws pipeline_id p ->
  stalled (Pipeline.steps p) ->
  forall fuel,
    passes < fuel ->
    while_loop fuel pipeline_id progress_made w = Returned tt ws.
Proof.
  induction passes as [|passes IH]; intros pid pm w ws p H Hp Hst fuel Hlt;
    (destruct fuel as [|fuel]; [lia|]); cbn [while_loop] in *.
  - destruct (pm && _); [|discriminate]. injection H as <-.
    rewrite (scan_stalled _ _ _ Hp Hst). now destruct fuel.
  - destruct (pm && _); [|discriminate].
    destruct (scan pid w) as [pm1 w1].
    apply (IH pid pm1 w1 ws p H Hp Hst). lia.
Qed.

(** C2, as the code has it. Let the loop of [execute_pipeline], after
    any number of passes, be about to start a pass in state [ws] (the
    passes allowed so far ran out there), and let the pipeline have in
    [ws] no pending step whose dependencies (those that name a step of
    the pipeline) have all succeeded.  Then the pipeline is IN_PROGRESS,
    the pass changes nothing and reports no progress, and with that pass
    allowed [execute_pipeline] returns [False] in the very state [ws]:
    the pipeline keeps its status IN_PROGRESS (it is not set to FAILED)
    and its [completed_at]. *)
Theorem stall_ends_loop_in_progress :
  forall (passes : nat) (w : State) (pipeline : Pipeline.t)
         (ws : State) (p : Pipeline.t),
    execute_pipeline passes w pipeline = OutOfFuel ws ->
    registered ws (Pipeline.id pipeline) p ->
    stalled (Pipeline.steps p) ->
    Pipeline.status p = IN_PROGRESS
    /\ scan (Pipeline.id pipeline) ws = (false, ws)
    /\ forall fuel,
         passes < fuel ->
         execute_pipeline fuel w pipeline = Returned false ws.
Proof.
  intros passes w pipeline ws p Hout Hp Hst.
  rewrite execute_pipeline_unfold in Hout.
  destruct (while_loop passes _ _ _) as [u w3|w3] eqn:Hloop; [discriminate|].
  injection Hout as ->.
  pose proof (while_loop_out_of_fuel _ _ _ _ _ Hloop) as Hlive.
  rewrite (live_status_registered _ _ _ Hp) in Hlive.
  injection Hlive as Hs.
  split; [exact Hs|]. split; [exact (scan_stalled _ _ _ Hp Hst)|].
  intros fuel Hlt. rewrite execute_pipeline_unfold.
  rewrite (while_loop_stalled _ _ _ _ _ _ Hloop Hp Hst fuel Hlt).
  now rewrite (live_status_registered _ _ _ Hp), Hs.
Qed.

(** C10. Executing a pipeline without steps returns [False] after one
    idle pass: no step is started, the pipeline is left IN_PROGRESS and
    its [completed_at] is what it was before the call (unset, for a
    pipeline that was never completed). *)
Theorem empty_pipeline_stays_in_progress :
  forall (fuel : nat) (w : State) (pipeline : Pipeline.t),
    Pipeline.steps pipeline = [] ->
    exists w' p',
      execute_pipeline (S fuel) w pipeline = Returned false w'
      /\ registered w' (Pipeline.id pipeline) p'
      /\ Pipeline.status p' = IN_PROGRESS
      /\ Pipeline.completed_at p' = Pipeline.completed_at pipeline
      /\ Pipeline.steps p' = []
      /\ started w' = started w.
Proof.
  intros fuel w p Hsteps.
  exists (entered w p), (Pipeline.start p (clock w)).
  pose proof (registered_entered w p) as Hreg.
  split; [|repeat split; auto].
  unfold PipelineExecutor.execute_pipeline. fold (entered w p).
  rewrite (live_steps_registered _ _ _ Hreg). simpl. rewrite Hsteps. simpl.
  rewrite (live_status_registered _ _ _ Hreg). simpl.
  unfold PipelineExecutor.scan.
  rewrite (live_steps_registered _ _ _ Hreg). simpl. rewrite Hsteps. simpl.
  destruct fuel; simpl; now rewrite (live_status_registered _ _ _ Hreg).
Qed.

End Scheduling.

(** ** The status of the pipeline once every step is terminal *)

Section VerdictFacts.

Import PipelineExecutor Props.

Lemma all_complete_iff steps : all_complete steps = true <-> all_terminal steps.
Proof.
  unfold all_complete, all_terminal. rewrite forallb_forall.
  split; intros H step Hin; specialize (H step Hin);
    unfold PipelineStep.is_terminal in *;
    destruct (PipelineStep.status step); intuition congruence.
Qed.

Lemma any_failed_iff steps : any_failed steps = true <-> some_failed steps.
Proof.
  unfold any_failed, some_failed. rewrite existsb_exists.
  split; intros (step & Hin & H); exists step; split; auto;
    destruct (PipelineStep.status step); simpl in *; congruence.
Qed.

Lemma unfinished_not_complete steps :
  unfinished steps -> all_complete steps = false.
Proof.
  intros (step & Hin & H). destruct (all_complete steps) eqn:E; auto.
  unfold all_complete in E. rewrite forallb_forall in E.
  specialize (E step Hin). congruence.
Qed.

Lemma all_succeeded_verdict steps : all_succeeded steps -> verdict steps = SUCCEEDED.
Proof.
  intros H. unfold verdict. destruct (any_failed steps) eqn:E; auto.
  apply any_failed_iff in E. destruct E as (step & Hin & Hf).
  specialize (H step Hin). congruence.
Qed.

Lemma some_failed_verdict steps : some_failed steps -> verdict steps = FAILED.
Proof.
  intros H. apply any_failed_iff in H. unfold verdict. now rewrite H.
Qed.

End VerdictFacts.

Section TerminalStatus.

Import PipelineExecutor Props.

Variable run_command : PipelineStep.t -> Outcome.

Local Abbreviation execute_step := (execute_step run_command).
Local Abbreviation execute_pipeline := (execute_pipeline run_command).
Local Abbreviation run_step := (run_step run_command).
Local Abbreviation finished := (finished run_command).

Lemma execute_step_settled pipeline_id w step_id :
  settled pipeline_id w ->
  settled pipeline_id (snd (execute_step w pipeline_id step_id)).
Proof.
  intros Hw.
  destruct (execute_step_inv run_command pipeline_id w step_id)
    as [E|(p & step & Hp & Hs & Hd & E)]; rewrite E; simpl; [assumption|].
  clear E Hw.
  pose proof (run_step_steps run_command p step_id step (clock w)) as Hsteps.
  pose proof (run_step_status run_command p step_id step (clock w)) as Hst.
  pose proof (finished_status run_command step (clock w)) as Hfin.
  cbv zeta in Hst.
  destruct (run_step p step_id step (clock w)) as [[r p'] t'].
  simpl in *.
  exists p'. split; [apply dict_get_set_same|].
  intros Hall.
  assert (Hget : dict_get (Pipeline.steps p') step_id
                 = Some (finished step (clock w))).
  { rewrite Hsteps. apply dict_get_set_same. }
  assert (Hlast : Pipeline.completed_at p' = Some (S (S (clock w)))
                  /\ t' = S (S (S (clock w))) ->
                  exists step_id0 step0 t,
                    dict_get (Pipeline.steps p') step_id0 = Some step0
                    /\ PipelineStep.completed_at step0 = Some t
                    /\ Pipeline.completed_at p' = Some (S t)
                    /\ t' = S (S t)).
  { intros [Hc Ht]. exists step_id, (finished step (clock w)), (S (clock w)).
    repeat split; auto. apply finished_completed_at. }
  destruct (run_command (PipelineStep.start step (clock w))).
  - rewrite Hall in Hst. destruct Hst as (Hv & Hc & Ht). auto.
  - destruct Hst as (Hf & Hc & Ht). split; [|auto].
    rewrite Hf. symmetry. apply some_failed_verdict.
    exists (finished step (clock w)). split; [|assumption].
    eapply dict_get_In_values; eauto.
Qed.

Lemma execute_pipeline_returned fuel w p r w' :
  execute_pipeline fuel w p = Returned r w' ->
  w' = final_state (execute_pipeline fuel w p)
  /\ r = match live_status w' (Pipeline.id p) with
         | Some SUCCEEDED => true
         | _ => false
         end.
Proof.
  intros H. rewrite H. simpl. split; [reflexivity|].
  unfold PipelineExecutor.execute_pipeline in H.
  destruct (PipelineExecutor.while_loop _ _ _ _ _) as [u w3|w3];
    [|discriminate].
  now injection H as <- <-.
Qed.

(** C3, as the code has it. On a pipeline that enters [execute_pipeline]
    with some step not yet terminal: if all steps are terminal when the
    call returns, then the pipeline's status is SUCCEEDED (and the call
    returns [True]) when every step is succeeded, it is FAILED (and the
    call returns [False]) when some step is failed, and the pipeline's
    [completed_at] is the last reading of the clock, taken right after a
    step recorded its own [completed_at]. *)
Theorem terminal_status_when_driven :
  forall (fuel : nat) (w : State) (pipeline : Pipeline.t)
         (r : bool) (w' : State),
    unfinished (Pipeline.steps pipeline) ->
    execute_pipeline fuel w pipeline = Returned r w' ->
    exists p',
      registered w' (Pipeline.id pipeline) p'
      /\ (all_terminal (Pipeline.steps p') ->
          (all_succeeded (Pipeline.steps p') ->
           Pipeline.status p' = SUCCEEDED /\ r = true)
          /\ (some_failed (Pipeline.steps p') ->
              Pipeline.status p' = FAILED /\ r = false)
          /\ exists step_id step t,
               dict_get (Pipeline.steps p') step_id = Some step
               /\ PipelineStep.completed_at step = Some t
               /\ Pipeline.completed_at p' = Some (S t)
               /\ clock w' = S (S t)).
Proof.
  intros fuel w p r w' Hunf Hrun.
  destruct (execute_pipeline_returned _ _ _ _ _ Hrun) as [Hw' Hr].
  assert (Hset : settled (Pipeline.id p) w').
  { rewrite Hw', final_state_execute_pipeline.
    apply (while_loop_keeps run_command (Pipeline.id p) _
             (execute_step_settled (Pipeline.id p))).
    apply (roots_keep run_command (Pipeline.id p) _
             (execute_step_settled (Pipeline.id p))).
    exists (Pipeline.start p (clock w)).
    split; [apply registered_entered|].
    simpl. rewrite (unfinished_not_complete _ Hunf). discriminate. }
  destruct Hset as (p' & Hp' & Hdone).
  exists p'. split; [assumption|].
  intros Hall. apply all_complete_iff in Hall.
  destruct (Hdone Hall) as (Hstatus & Hlast).
  rewrite (live_status_registered _ _ _ Hp'), Hstatus in Hr.
  repeat split; auto.
  - rewrite Hstatus. now apply all_succeeded_verdict.
  - rewrite Hr. now rewrite all_succeeded_verdict.
  - rewrite Hstatus. now apply some_failed_verdict.
  - rewrite Hr. now rewrite some_failed_verdict.
Qed.

End TerminalStatus.

(** ** Termination of the loop *)

Section Graph.

Import PipelineExecutor Props.

Implicit Types (d : Dict PipelineStep.t) (k : string).


Lemma dict_get_graph d k :
  dict_get (graph d) k = option_map PipelineStep.dependencies (dict_get d k).
Proof.
  induction d as [|[k0 s0] d IH]; simpl; [reflexivity|].
  now destruct (String.eqb k k0).
Qed.

Lemma graph_set d k step step' :
  dict_get d k = Some step ->
  PipelineStep.dependencies step' = PipelineStep.dependencies step ->
  graph (dict_set d k step') = graph d.
Proof.
  intros Hget Hdeps. induction d as [|[k0 s0] d IH]; simpl in *; [discriminate|].
  destruct (String.eqb k k0); simpl.
  - injection Hget as ->. now rewrite Hdeps.
  - now rewrite IH.
Qed.

Lemma dict_mem_graph d d' k :
  graph d = graph d' -> dict_mem d k = dict_mem d' k.
Proof.
  intros H. unfold dict_mem.
  pose proof (dict_get_graph d k) as E. pose proof (dict_get_graph d' k) as E'.
  rewrite H in E. rewrite E' in E.
  destruct (dict_get d k), (dict_get d' k); simpl in E; congruence.
Qed.

Lemma depends_on_graph d d' k x :
  graph d = graph d' -> depends_on d k x -> depends_on d' k x.
Proof.
  intros H (step & Hget & Hin).
  pose proof (dict_get_graph d k) as E. pose proof (dict_get_graph d' k) as E'.
  rewrite H in E. rewrite E', Hget in E.
  destruct (dict_get d' k) as [step'|] eqn:Hget'; simpl in E; [|discriminate].
  exists step'. split; [assumption|]. congruence.
Qed.

Lemma ids_present_graph d d' :
  graph d = graph d' -> ids_present d -> ids_present d'.
Proof.
  intros H Hp k step x Hget Hin.
  rewrite <- (dict_mem_graph d d' x H).
  destruct (depends_on_graph d' d k x (eq_sym H)) as (step0 & Hget0 & Hin0).
  { now exists step. }
  eapply Hp; eauto.
Qed.

Lemma acyclic_graph d d' : graph d = graph d' -> acyclic d -> acyclic d'.
Proof.
  intros H Hac k Hcyc. apply (Hac k).
  assert (Hmono : forall x y,
             clos_trans string (depends_on d') x y ->
             clos_trans string (depends_on d) x y).
  { intros x y Hxy. induction Hxy as [x y Hxy | x y z _ IH1 _ IH2].
    - apply t_step. apply (depends_on_graph d' d); [now symmetry | assumption].
    - now apply t_trans with y. }
  now apply Hmono.
Qed.


(** *** Counting the pending steps *)

Lemma pending_count_set d k step step' :
  dict_get d k = Some step ->
  is_pending step = true ->
  is_pending step' = false ->
  S (pending_count (dict_set d k step')) = pending_count d.
Proof.
  unfold pending_count. intros Hget Hp Hp'.
  induction d as [|[k0 s0] d IH]; simpl in *; [discriminate|].
  destruct (String.eqb k k0); simpl.
  - injection Hget as ->. now rewrite Hp, Hp'.
  - destruct (is_pending s0); simpl; now rewrite IH.
Qed.

Lemma pending_count_le d : pending_count d <= List.length d.
Proof.
  unfold pending_count, dict_values.
  rewrite <- (length_map snd d). apply filter_length_le.
Qed.

(** When every dependency names a step of the pipeline, the test of the
    scan and the guard of [execute_step] agree. *)
Lemma deps_complete_present d deps :
  (forall x, In x deps -> dict_mem d x = true) ->
  deps_complete d deps = dependencies_succeeded d deps.
Proof.
  unfold deps_complete. induction deps as [|x deps IH]; intros H; simpl; auto.
  rewrite (H x (or_introl eq_refl)). simpl.
  destruct (dict_get d x) as [ds|]; [|reflexivity].
  rewrite IH by (intros; apply H; now right).
  now destruct (StepStatus_eqb _ _).
Qed.

End Graph.

Section Termination.

Import PipelineExecutor Props.

Variable run_command : PipelineStep.t -> Outcome.
Variable pipeline_id : string.
Variable g : Dict (list string).

Local Abbreviation execute_step := (execute_step run_command).
Local Abbreviation while_loop := (while_loop run_command).
Local Abbreviation scan := (scan run_command).
Local Abbreviation visit := (visit run_command).
Local Abbreviation run_step := (run_step run_command).

Lemma execute_step_tracked w step_id :
  tracked pipeline_id g w ->
  tracked pipeline_id g (snd (execute_step w pipeline_id step_id)).
Proof.
  intros Hw.
  destruct (execute_step_inv run_command pipeline_id w step_id)
    as [E|(p & step & Hp & Hs & Hd & E)]; rewrite E; simpl; [assumption|].
  destruct Hw as (p0 & Hp0 & Hg). unfold registered in *.
  assert (p0 = p) by congruence. subst p0.
  exists (snd (fst (run_step p step_id step (clock w)))).
  split; [apply dict_get_set_same|].
  rewrite run_step_steps, <- Hg.
  apply graph_set with step; [assumption | apply finished_dependencies].
Qed.

(** The number of pending steps of the pipeline in state [w]. *)
Local Abbreviation pending_in w := (pending_count (live_steps w pipeline_id)).

(** Running a pending step leaves one pending step fewer. *)
Lemma execute_step_pending_in w p step_id step :
  registered w pipeline_id p ->
  dict_get (Pipeline.steps p) step_id = Some step ->
  PipelineStep.status step = pending ->
  dependencies_succeeded (Pipeline.steps p)
    (PipelineStep.dependencies step) = true ->
  S (pending_in (snd (execute_step w pipeline_id step_id))) = pending_in w.
Proof.
  intros Hp Hs Hpend Hd.
  rewrite (execute_step_run run_command pipeline_id w step_id p step Hp Hs Hd).
  simpl. unfold live_steps at 1. simpl. rewrite dict_get_set_same.
  rewrite run_step_steps, (live_steps_registered _ _ _ Hp).
  apply pending_count_set with step; auto.
  - unfold is_pending. now rewrite Hpend.
  - apply finished_not_pending.
Qed.

Hypothesis g_present :
  forall p, graph (Pipeline.steps p) = g -> ids_present (Pipeline.steps p).

(** A visit does nothing, or it reports progress and leaves fewer
    pending steps. *)
Lemma visit_progress progress_made w step_id :
  tracked pipeline_id g w ->
  visit pipeline_id (progress_made, w) step_id = (progress_made, w)
  \/ (fst (visit pipeline_id (progress_made, w) step_id) = true
      /\ pending_in (snd (visit pipeline_id (progress_made, w) step_id))
         < pending_in w).
Proof.
  intros (p & Hp & Hg). unfold PipelineExecutor.visit.
  rewrite (live_steps_registered _ _ _ Hp).
  destruct (dict_get (Pipeline.steps p) step_id) as [step|] eqn:Es; [|now left].
  destruct (PipelineStep.status step) eqn:Est; try now left.
  destruct (deps_complete _ _) eqn:Ed; [|now left].
  right. split; [reflexivity|]. simpl.
  rewrite deps_complete_present in Ed
    by (intros x Hx; eapply (g_present p Hg); eauto).
  pose proof (execute_step_pending_in w p step_id step Hp Es Est Ed) as H.
  rewrite (live_steps_registered _ _ _ Hp) in H. rewrite <- H. lia.
Qed.

Lemma visits_progress keys progress_made w :
  tracked pipeline_id g w ->
  fold_left (visit pipeline_id) keys (progress_made, w) = (progress_made, w)
  \/ (fst (fold_left (visit pipeline_id) keys (progress_made, w)) = true
      /\ pending_in (snd (fold_left (visit pipeline_id) keys (progress_made, w)))
         < pending_in w).
Proof.
  revert progress_made w.
  induction keys as [|k keys IH]; intros pm w Ht; cbn [fold_left]; [now left|].
  pose proof (visit_keeps run_command pipeline_id _ execute_step_tracked
                (pm, w) k Ht) as Ht'.
  destruct (visit_progress pm w k Ht) as [E|[Hflag Hless]].
  - rewrite E. now apply IH.
  - destruct (visit pipeline_id (pm, w) k) as [pm1 w1]. simpl in *. subst pm1.
    right. destruct (IH true w1 Ht') as [E|[Hflag Hless']].
    + rewrite E. auto.
    + split; [assumption | lia].
Qed.

Lemma scan_progress w :
  tracked pipeline_id g w ->
  scan pipeline_id w = (false, w)
  \/ (fst (scan pipeline_id w) = true
      /\ pending_in (snd (scan pipeline_id w)) < pending_in w).
Proof. intros Ht. unfold PipelineExecutor.scan. now apply visits_progress. Qed.

(** With more passes allowed than there are pending steps, the loop
    returns. *)
Lemma while_loop_returns fuel progress_made w :
  tracked pipeline_id g w ->
  pending_in w < fuel ->
  exists w', while_loop fuel pipeline_id progress_made w = Returned tt w'.
Proof.
  revert progress_made w.
  induction fuel as [|fuel IH]; intros pm w Ht Hlt; [lia|].
  simpl. destruct (pm && _); [|now exists w].
  pose proof (scan_keeps run_command pipeline_id _ execute_step_tracked w Ht)
    as Ht'.
  destruct (scan_progress w Ht) as [E|[Hflag Hless]].
  - rewrite E. exists w. now destruct fuel.
  - destruct (scan pipeline_id w) as [pm1 w1]. simpl in *.
    apply IH; [assumption | lia].
Qed.

End Termination.

(** ** How the loop ends *)

Section LoopExit.

Import PipelineExecutor Props.

Variable run_command : PipelineStep.t -> Outcome.
Variable pipeline_id : string.

Local Abbreviation while_loop := (while_loop run_command).
Local Abbreviation scan := (scan run_command).
Local Abbreviation visit := (visit run_command).

Lemma visit_flag progress_made w step_id :
  fst (visit pipeline_id (progress_made, w) step_id) = false ->
  progress_made = false
  /\ visit pipeline_id (progress_made, w) step_id = (false, w).
Proof.
  unfold PipelineExecutor.visit.
  destruct (dict_get _ step_id) as [step|]; simpl; [|now intros ->].
  destruct (PipelineStep.status step); simpl; try now intros ->.
  destruct (deps_complete _ _); simpl; [discriminate | now intros ->].
Qed.

Lemma visits_flag keys progress_made w w' :
  fold_left (visit pipeline_id) keys (progress_made, w) = (false, w') ->
  progress_made = false /\ w' = w
  /\ forall k, In k keys -> visit pipeline_id (false, w) k = (false, w).
Proof.
  revert progress_made w.
  induction keys as [|k keys IH]; intros pm w; cbn [fold_left].
  - intros [= -> ->]. repeat split. intros k [].
  - destruct (visit pipeline_id (pm, w) k) as [pm1 w1] eqn:E.
    intros H. destruct (IH pm1 w1 H) as (-> & -> & Hall).
    destruct (visit_flag pm w k) as [-> E']; [now rewrite E|].
    rewrite E' in E. injection E as <-.
    repeat split. intros k0 [<-|Hin]; auto.
Qed.

(** A pass that reports no progress changed nothing, and it found
    the pipeline stalled. *)
Lemma scan_idle w w' p :
  registered w pipeline_id p ->
  scan pipeline_id w = (false, w') ->
  w' = w /\ stalled (Pipeline.steps p).
Proof.
  intros Hp H. unfold PipelineExecutor.scan in H.
  destruct (visits_flag _ _ _ _ H) as (_ & -> & Hall).
  split; [reflexivity|].
  intros k step Hget Hpend.
  rewrite (live_steps_registered _ _ _ Hp) in Hall.
  specialize (Hall k (dict_get_In_keys _ _ _ Hget)).
  unfold PipelineExecutor.visit in Hall.
  rewrite (live_steps_registered _ _ _ Hp), Hget, Hpend in Hall.
  destruct (deps_complete _ _); [discriminate | reflexivity].
Qed.

(** The loop is left with the pipeline out of IN_PROGRESS, or without
    having run at all, or behind a pass that found nothing to do. *)
Lemma while_loop_exit fuel progress_made w w' :
  while_loop fuel pipeline_id progress_made w = Returned tt w' ->
  live_status w' pipeline_id <> Some IN_PROGRESS
  \/ (progress_made = false /\ w' = w)
  \/ scan pipeline_id w' = (false, w').
Proof.
  revert progress_made w.
  induction fuel as [|fuel IH]; intros pm w; simpl.
  - destruct pm; simpl.
    + destruct (live_status w pipeline_id) as [[]|] eqn:E;
        try discriminate; intros [= <-]; left; congruence.
    + intros [= <-]. auto.
  - destruct pm; simpl.
    + destruct (live_status w pipeline_id) as [[]|] eqn:E;
        try (intros [= <-]; left; congruence).
      destruct (scan pipeline_id w) as [pm1 w1] eqn:Es.
      intros H. destruct (IH pm1 w1 H) as [Hout|[[-> ->]|Hidle]]; auto.
      right; right.
      assert (w1 = w) as ->.
      { unfold PipelineExecutor.scan in Es.
        now destruct (visits_flag _ _ _ _ Es) as (_ & -> & _). }
      assumption.
    + intros [= <-]. auto.
Qed.

End LoopExit.

(** ** No stall without a cycle *)

Section Chains.

Import Props.

Context {A : Type}.
Variable R : A -> A -> Prop.

Lemma chain_grows (S : A -> Prop) :
  (forall k, S k -> exists d, R k d /\ S d) ->
  forall n k, S k ->
    exists l, List.length l = n /\ chain R k l /\ Forall S l.
Proof.
  intros Hnext n. induction n as [|n IH]; intros k Hk.
  - exists []. repeat split. constructor.
  - destruct (Hnext k Hk) as (d & Hkd & Hd).
    destruct (IH d Hd) as (l & Hlen & Hch & Hall).
    exists (d :: l). simpl. repeat split; auto.
Qed.

Lemma chain_prefix k l l' : chain R k (l ++ l') -> chain R k l.
Proof.
  revert k. induction l as [|d l IH]; intros k; simpl; [trivial|].
  intros [Hkd H]. split; [assumption | now apply IH].
Qed.

Lemma chain_last k l x : chain R k (l ++ [x]) -> clos_trans A R k x.
Proof.
  revert k. induction l as [|d l IH]; intros k; simpl.
  - intros [H _]. now apply t_step.
  - intros [Hkd H]. apply t_trans with d; [now apply t_step | now apply IH].
Qed.

Lemma chain_suffix l1 : forall k l a rest,
  chain R k l -> k :: l = l1 ++ a :: rest -> chain R a rest.
Proof.
  induction l1 as [|b l1 IH]; intros k l a rest Hch E; simpl in E.
  - now injection E as -> ->.
  - injection E as -> ->.
    destruct l1 as [|c l1]; simpl in *.
    + tauto.
    + destruct Hch as [_ Hch]. eapply IH; eauto.
Qed.

Lemma chain_cycle k l a l1 l2 l3 :
  chain R k l -> k :: l = l1 ++ a :: l2 ++ a :: l3 -> clos_trans A R a a.
Proof.
  intros Hch E.
  pose proof (chain_suffix l1 k l a (l2 ++ a :: l3) Hch E) as H.
  apply chain_last with l2. apply chain_prefix with l3.
  now rewrite <- app_assoc.
Qed.

End Chains.

Section Descent.

Import PipelineExecutor Props.

Variable steps : Dict PipelineStep.t.

Lemma deps_incomplete deps :
  deps_complete steps deps = false ->
  exists x dep_step,
    In x deps /\ dict_get steps x = Some dep_step
    /\ PipelineStep.status dep_step <> succeeded.
Proof.
  unfold deps_complete. induction deps as [|x deps IH]; simpl; [discriminate|].
  unfold dict_mem at 1.
  destruct (dict_get steps x) as [ds|] eqn:E; simpl.
  - rewrite E. destruct (StepStatus_eqb _ _) eqn:Es; simpl.
    + intros H. destruct (IH H) as (y & dy & Hin & Hget & Hne).
      exists y, dy. auto.
    + intros _. exists x, ds. repeat split; auto.
      intros Hs. now rewrite Hs in Es.
  - intros H. destruct (IH H) as (y & dy & Hin & Hget & Hne).
    exists y, dy. auto.
Qed.

Hypothesis steps_stalled : stalled steps.
Hypothesis steps_clean :
  forall step,
    In step (dict_values steps) ->
    PipelineStep.status step = pending \/ PipelineStep.status step = succeeded.

Lemma pending_depends_on_pending k :
  pending_at steps k ->
  exists d, depends_on steps k d /\ pending_at steps d.
Proof.
  intros (step & Hget & Hpend).
  destruct (deps_incomplete _ (steps_stalled k step Hget Hpend))
    as (x & ds & Hin & Hx & Hne).
  exists x. split; [now exists step|].
  exists ds. split; [assumption|].
  destruct (steps_clean ds (dict_get_In_values _ _ _ Hx)); congruence.
Qed.

(** In a stalled pipeline free of failures a pending step lies on a
    path that returns to one of its nodes. *)
Lemma pending_gives_cycle k :
  pending_at steps k ->
  exists a, clos_trans string (depends_on steps) a a.
Proof.
  intros Hk.
  destruct (chain_grows (depends_on steps) (pending_at steps)
              pending_depends_on_pending
              (List.length (dict_keys steps)) k Hk)
    as (l & Hlen & Hch & Hall).
  assert (Hincl : incl (k :: l) (dict_keys steps)).
  { intros x [<-|Hx].
    - destruct Hk as (s & Hs & _). eapply dict_get_In_keys; eauto.
    - rewrite Forall_forall in Hall.
      destruct (Hall x Hx) as (s & Hs & _). eapply dict_get_In_keys; eauto. }
  assert (Hdup : ~ NoDup (k :: l)).
  { intros Hnd. pose proof (NoDup_incl_length Hnd Hincl) as Hle.
    simpl in Hle. lia. }
  destruct (ListDec.not_NoDup
              (fun x y : string =>
                 match string_dec x y with
                 | left e => or_introl e
                 | right n => or_intror n
                 end)
              Hdup)
    as (a & l1 & l2 & l3 & E).
  exists a. exact (chain_cycle _ k l a l1 l2 l3 Hch E).
Qed.

End Descent.

(** ** Terminal closure *)

Section Closure.

Import PipelineExecutor Props.

Variable run_command : PipelineStep.t -> Outcome.
Hypothesis never_raises : forall step, run_command step = Returns.

Variable pipeline_id : string.
Variable g : Dict (list string).

Local Abbreviation execute_step := (execute_step run_command).
Local Abbreviation run_step := (run_step run_command).
Local Abbreviation finished := (finished run_command).

Lemma all_complete_set steps k step :
  all_complete steps = true ->
  PipelineStep.is_terminal step = true ->
  all_complete (dict_set steps k step) = true.
Proof.
  unfold all_complete. rewrite !forallb_forall. intros H Hs x Hx.
  destruct (dict_values_set_In _ _ _ _ Hx) as [->|Hin]; auto.
Qed.

Lemma execute_step_clean w step_id :
  clean pipeline_id g w ->
  clean pipeline_id g (snd (execute_step w pipeline_id step_id)).
Proof.
  intros Hw.
  destruct (execute_step_inv run_command pipeline_id w step_id)
    as [E|(p & step & Hp & Hs & Hd & E)]; rewrite E; simpl; [assumption|].
  clear E. destruct Hw as (p0 & Hp0 & Hg & Hst & Hprog).
  unfold registered in *. assert (p0 = p) by congruence. subst p0.
  pose proof (run_step_steps run_command p step_id step (clock w)) as Hsteps.
  pose proof (run_step_status run_command p step_id step (clock w)) as Hstatus.
  pose proof (finished_status run_command step (clock w)) as Hfin.
  cbv zeta in Hstatus. rewrite never_raises in Hstatus, Hfin.
  destruct (run_step p step_id step (clock w)) as [[r p'] t']. simpl in *.
  exists p'. split; [apply dict_get_set_same|].
  split; [|split].
  - rewrite Hsteps, <- Hg.
    apply graph_set with step; [assumption | apply finished_dependencies].
  - intros x Hx. rewrite Hsteps in Hx.
    destruct (dict_values_set_In _ _ _ _ Hx) as [->|Hin]; auto.
  - destruct (all_complete (Pipeline.steps p')) eqn:Eall; [now right|].
    destruct Hstatus as (Hsame & _ & _). rewrite Hsame.
    destruct Hprog as [Hin|Hdone]; [now left|].
    exfalso. rewrite Hsteps in Eall.
    rewrite all_complete_set in Eall; [discriminate | assumption |].
    apply finished_terminal.
Qed.

End Closure.

Section ClosureTheorem.

Import PipelineExecutor Props.

Lemma length_graph (d : Dict PipelineStep.t) :
  List.length (graph d) = List.length d.
Proof. unfold graph. apply length_map. Qed.

(** With every dependency id naming a step, the loop of
    [execute_pipeline] ends within as many passes as the pipeline has
    steps, and one more. *)
Lemma execute_pipeline_returns run_command fuel w p :
  ids_present (Pipeline.steps p) ->
  List.length (Pipeline.steps p) < fuel ->
  exists w',
    while_loop run_command fuel (Pipeline.id p) true
      (fold_left (visit_root run_command (Pipeline.id p))
         (dict_keys (live_steps (entered w p) (Pipeline.id p)))
         (entered w p))
    = Returned tt w'.
Proof.
  intros Hpres Hfuel.
  set (pid := Pipeline.id p). set (g := graph (Pipeline.steps p)).
  set (w2 := fold_left _ _ _).
  assert (Ht2 : tracked pid g w2).
  { apply (roots_keep run_command pid _ (execute_step_tracked run_command pid g)).
    exists (Pipeline.start p (clock w)).
    split; [apply registered_entered | reflexivity]. }
  apply (while_loop_returns run_command pid g); [| exact Ht2 |].
  - intros p0 Hg0. apply ids_present_graph with (Pipeline.steps p); auto.
  - destruct Ht2 as (p2 & Hp2 & Hg2).
    rewrite (live_steps_registered _ _ _ Hp2).
    pose proof (pending_count_le (Pipeline.steps p2)) as Hle.
    rewrite <- (length_graph (Pipeline.steps p2)), Hg2 in Hle.
    unfold g in Hle. rewrite length_graph in Hle. lia.
Qed.


End ClosureTheorem.

(** ** Failure isolation *)

Section Isolation.

Import PipelineExecutor Props.

Variable run_command : PipelineStep.t -> Outcome.
Variable pipeline_id : string.

Local Abbreviation execute_step := (execute_step run_command).
Local Abbreviation execute_pipeline := (execute_pipeline run_command).
Local Abbreviation while_loop := (while_loop run_command).
Local Abbreviation scan := (scan run_command).
Local Abbreviation visit := (visit run_command).
Local Abbreviation visit_root := (visit_root run_command).
Local Abbreviation finished := (finished run_command).

(** What a call of [execute_step] that passes its guards leaves. *)
Lemma execute_step_effect w k p step :
  registered w pipeline_id p ->
  dict_get (Pipeline.steps p) k = Some step ->
  dependencies_succeeded (Pipeline.steps p)
    (PipelineStep.dependencies step) = true ->
  exists p',
    registered (snd (execute_step w pipeline_id k)) pipeline_id p'
    /\ Pipeline.steps p' = dict_set (Pipeline.steps p) k (finished step (clock w))
    /\ started (snd (execute_step w pipeline_id k))
       = mkStartEvent pipeline_id k (Pipeline.steps p) :: started w
    /\ match run_command (PipelineStep.start step (clock w)) with
       | Returns =>
           Pipeline.status p' =
           if all_complete (Pipeline.steps p')
           then verdict (Pipeline.steps p') else Pipeline.status p
       | Raises _ => Pipeline.status p' = FAILED
       end.
Proof.
  intros Hp Hs Hd.
  rewrite (execute_step_run run_command pipeline_id w k p step Hp Hs Hd).
  simpl.
  pose proof (run_step_status run_command p k step (clock w)) as Hst.
  cbv zeta in Hst.
  exists (snd (fst (run_step run_command p k step (clock w)))).
  split; [apply dict_get_set_same|].
  split; [apply run_step_steps|].
  split; [reflexivity|].
  destruct (run_command _); [|tauto].
  destruct (all_complete _); tauto.
Qed.

Lemma dependencies_succeeded_complete steps deps :
  (forall dep_id,
      In dep_id deps ->
      exists dep_step,
        dict_get steps dep_id = Some dep_step
        /\ PipelineStep.status dep_step = succeeded) ->
  dependencies_succeeded steps deps = true.
Proof.
  induction deps as [|x deps IH]; intros H; simpl; [reflexivity|].
  destruct (H x (or_introl eq_refl)) as (ds & -> & ->). simpl.
  apply IH. intros y Hy. apply H. now right.
Qed.

Lemma deps_complete_of_succeeded steps deps :
  dependencies_succeeded steps deps = true -> deps_complete steps deps = true.
Proof.
  unfold deps_complete. induction deps as [|x deps IH]; simpl; [reflexivity|].
  unfold dict_mem at 1.
  destruct (dict_get steps x) as [ds|] eqn:E; [|discriminate]. simpl.
  rewrite E. destruct (StepStatus_eqb _ _); [exact IH | discriminate].
Qed.

Lemma visit_root_no_dependencies w k p step :
  registered w pipeline_id p ->
  dict_get (Pipeline.steps p) k = Some step ->
  PipelineStep.dependencies step = [] ->
  visit_root pipeline_id w k = snd (execute_step w pipeline_id k).
Proof.
  intros Hp Hs Hd. unfold PipelineExecutor.visit_root.
  now rewrite (live_steps_registered _ _ _ Hp), Hs, Hd.
Qed.

Lemma visit_root_with_dependencies w k p step x deps :
  registered w pipeline_id p ->
  dict_get (Pipeline.steps p) k = Some step ->
  PipelineStep.dependencies step = x :: deps ->
  visit_root pipeline_id w k = w.
Proof.
  intros Hp Hs Hd. unfold PipelineExecutor.visit_root.
  now rewrite (live_steps_registered _ _ _ Hp), Hs, Hd.
Qed.

Lemma visit_not_pending progress_made w k p step :
  registered w pipeline_id p ->
  dict_get (Pipeline.steps p) k = Some step ->
  PipelineStep.status step <> pending ->
  visit pipeline_id (progress_made, w) k = (progress_made, w).
Proof.
  intros Hp Hs Hd. unfold PipelineExecutor.visit.
  rewrite (live_steps_registered _ _ _ Hp), Hs.
  now destruct (PipelineStep.status step).
Qed.

Lemma visit_blocked progress_made w k p step :
  registered w pipeline_id p ->
  dict_get (Pipeline.steps p) k = Some step ->
  deps_complete (Pipeline.steps p) (PipelineStep.dependencies step) = false ->
  visit pipeline_id (progress_made, w) k = (progress_made, w).
Proof.
  intros Hp Hs Hd. unfold PipelineExecutor.visit.
  rewrite (live_steps_registered _ _ _ Hp), Hs, Hd.
  now destruct (PipelineStep.status step).
Qed.

Lemma visit_ready progress_made w k p step :
  registered w pipeline_id p ->
  dict_get (Pipeline.steps p) k = Some step ->
  PipelineStep.status step = pending ->
  deps_complete (Pipeline.steps p) (PipelineStep.dependencies step) = true ->
  visit pipeline_id (progress_made, w) k
  = (true, snd (execute_step w pipeline_id k)).
Proof.
  intros Hp Hs Hpend Hd. unfold PipelineExecutor.visit.
  now rewrite (live_steps_registered _ _ _ Hp), Hs, Hpend, Hd.
Qed.

Lemma while_loop_enter fuel w p :
  registered w pipeline_id p ->
  Pipeline.status p = IN_PROGRESS ->
  while_loop (S fuel) pipeline_id true w =
  while_loop fuel pipeline_id (fst (scan pipeline_id w))
    (snd (scan pipeline_id w)).
Proof.
  intros Hp Hs. simpl.
  rewrite (live_status_registered _ _ _ Hp), Hs. simpl.
  now destruct (scan pipeline_id w).
Qed.

Lemma while_loop_leave fuel progress_made w p :
  registered w pipeline_id p ->
  Pipeline.status p <> IN_PROGRESS ->
  while_loop fuel pipeline_id progress_made w = Returned tt w.
Proof.
  intros Hp Hs.
  assert (E : progress_made
              && match live_status w pipeline_id with
                 | Some IN_PROGRESS => true
                 | _ => false
                 end = false).
  { rewrite (live_status_registered _ _ _ Hp).
    destruct (Pipeline.status p); try congruence;
      now rewrite andb_false_r. }
  destruct fuel; simpl; now rewrite E.
Qed.

(** A pending step whose dependencies have all succeeded is run by the
    visit that reaches it, whatever the status of the pipeline is by
    then. *)
Lemma visit_runs_ready progress_made w k p step :
  registered w pipeline_id p ->
  dict_get (Pipeline.steps p) k = Some step ->
  PipelineStep.status step = pending ->
  (forall dep_id,
      In dep_id (PipelineStep.dependencies step) ->
      exists dep_step,
        dict_get (Pipeline.steps p) dep_id = Some dep_step
        /\ PipelineStep.status dep_step = succeeded) ->
  exists p',
    fst (visit pipeline_id (progress_made, w) k) = true
    /\ registered (snd (visit pipeline_id (progress_made, w) k)) pipeline_id p'
    /\ dict_get (Pipeline.steps p') k = Some (finished step (clock w)).
Proof.
  intros Hp Hs Hpend Hdeps.
  pose proof (dependencies_succeeded_complete _ _ Hdeps) as Hd.
  rewrite (visit_ready progress_made w k p step Hp Hs Hpend
             (deps_complete_of_succeeded _ _ Hd)).
  destruct (execute_step_effect w k p step Hp Hs Hd) as (p' & Hp' & Hsteps & _).
  exists p'. simpl. repeat split; auto.
  rewrite Hsteps. apply dict_get_set_same.
Qed.

End Isolation.

Section Diamond.

Import PipelineExecutor Props.

Lemma distinct4 (a b c d : string) :
  NoDup [a; b; c; d] ->
  (String.eqb a b = false /\ String.eqb a c = false /\ String.eqb a d = false)
  /\ (String.eqb b a = false /\ String.eqb b c = false /\ String.eqb b d = false)
  /\ (String.eqb c a = false /\ String.eqb c b = false /\ String.eqb c d = false)
  /\ (String.eqb d a = false /\ String.eqb d b = false /\ String.eqb d c = false).
Proof.
  intros H.
  inversion H as [|? ? Ha Hbcd]; subst.
  inversion Hbcd as [|? ? Hb Hcd]; subst.
  inversion Hcd as [|? ? Hc Hd]; subst.
  simpl in *. rewrite !String.eqb_neq.
  repeat split; intros ->; tauto.
Qed.

Variable run_command : PipelineStep.t -> Outcome.
Variables a b c d : string.
Variables A B C D : PipelineStep.t.
Variable message : string.
Hypothesis distinct : NoDup [a; b; c; d].
Hypothesis A_deps : PipelineStep.dependencies A = [].
Hypothesis B_deps : PipelineStep.dependencies B = [a].
Hypothesis C_deps : PipelineStep.dependencies C = [a].
Hypothesis D_deps : PipelineStep.dependencies D = [b; c].
Hypothesis A_pending : PipelineStep.status A = pending.
Hypothesis B_pending : PipelineStep.status B = pending.
Hypothesis C_pending : PipelineStep.status C = pending.
Hypothesis D_pending : PipelineStep.status D = pending.
Hypothesis A_ok : forall t, run_command (PipelineStep.start A t) = Returns.
Hypothesis B_fails : forall t, run_command (PipelineStep.start B t) = Raises message.
Hypothesis C_ok : forall t, run_command (PipelineStep.start C t) = Returns.

Ltac look E :=
  destruct E as ((Eab & Eac & Ead) & (Eba & Ebc & Ebd)
                 & (Eca & Ecb & Ecd) & (Eda & Edb & Edc)).

Ltac dict :=
  repeat (progress
            (cbn [dict_get dict_set dict_keys dict_values map fst snd
                  dependencies_succeeded deps_complete dict_mem filter forallb
                  StepStatus_eqb andb];
             rewrite ?String.eqb_refl;
             repeat match goal with
                    | H : String.eqb _ _ = false |- _ => rewrite H
                    end)).

(** The diamond A -> B, A -> C, B -> D, C -> D in which B fails: C is
    run and succeeds, D is never started, the pipeline fails. *)
Lemma diamond_run fuel w p :
  Pipeline.steps p = [(a, A); (b, B); (c, C); (d, D)] ->
  exists w' p' A' B' C',
    execute_pipeline run_command (S fuel) w p = Returned false w'
    /\ registered w' (Pipeline.id p) p'
    /\ Pipeline.status p' = FAILED
    /\ Pipeline.steps p' = [(a, A'); (b, B'); (c, C'); (d, D)]
    /\ PipelineStep.status A' = succeeded
    /\ PipelineStep.status B' = failed
    /\ PipelineStep.status C' = succeeded
    /\ exists new,
         started w' = new ++ started w
         /\ Forall (fun ev => ev_step ev <> d) new.
Proof.
  intros Hsteps.
  pose proof (distinct4 a b c d distinct) as E. look E.
  set (pid := Pipeline.id p).
  (* entering *)
  pose proof (registered_entered w p) as Hp1. fold pid in Hp1.
  set (w1 := entered w p) in *.
  set (p1 := Pipeline.start p (clock w)) in *.
  assert (Hs1 : Pipeline.steps p1 = [(a, A); (b, B); (c, C); (d, D)]) by exact Hsteps.
  (* the first loop: A runs, the others have dependencies *)
  rewrite execute_pipeline_unfold. fold pid. fold w1.
  rewrite (live_steps_registered _ _ _ Hp1), Hs1.
  cbn [dict_keys map fst fold_left].
  rewrite (visit_root_no_dependencies run_command pid w1 a p1 A Hp1)
    by (rewrite ?Hs1; dict; auto).
  destruct (execute_step_effect run_command pid w1 a p1 A Hp1)
    as (pa & Hpa & Hsa & Hha & Hsta);
    [rewrite Hs1; dict; reflexivity | rewrite A_deps; reflexivity |].
  set (wa := snd (execute_step run_command w1 pid a)) in *.
  set (A' := finished run_command A (clock w1)) in *.
  assert (HA' : PipelineStep.status A' = succeeded).
  { unfold A'. now rewrite finished_status, A_ok. }
  rewrite Hs1 in Hsa. cbn [dict_set] in Hsa. rewrite String.eqb_refl in Hsa.
  assert (Hina : Pipeline.status pa = IN_PROGRESS).
  { rewrite A_ok in Hsta. rewrite Hsta, Hsa.
    unfold all_complete, PipelineStep.is_terminal. cbn [dict_values map snd forallb].
    now rewrite HA', B_pending. }
  clear Hsta.
  rewrite (visit_root_with_dependencies run_command pid wa b pa B a [] Hpa)
    by (rewrite ?Hsa; dict; auto).
  rewrite (visit_root_with_dependencies run_command pid wa c pa C a [] Hpa)
    by (rewrite ?Hsa; dict; auto).
  rewrite (visit_root_with_dependencies run_command pid wa d pa D b [c] Hpa)
    by (rewrite ?Hsa; dict; auto).
  (* the pass of the while loop *)
  rewrite (while_loop_enter run_command pid fuel wa pa Hpa Hina).
  unfold scan. rewrite (live_steps_registered _ _ _ Hpa), Hsa.
  cbn [dict_keys map fst fold_left].
  rewrite (visit_not_pending run_command pid false wa a pa A' Hpa)
    by (rewrite ?Hsa; dict; auto; congruence).
  (* B is ready and fails *)
  assert (HdB : dependencies_succeeded (Pipeline.steps pa)
                  (PipelineStep.dependencies B) = true).
  { rewrite Hsa, B_deps. dict. now rewrite HA'. }
  assert (HgB : dict_get (Pipeline.steps pa) b = Some B).
  { rewrite Hsa. now dict. }
  rewrite (visit_ready run_command pid false wa b pa B Hpa HgB B_pending
             (deps_complete_of_succeeded _ _ HdB)).
  destruct (execute_step_effect run_command pid wa b pa B Hpa HgB HdB)
    as (pb & Hpb & Hsb & Hhb & Hstb).
  set (wb := snd (execute_step run_command wa pid b)) in *.
  set (B' := finished run_command B (clock wa)) in *.
  assert (HB' : PipelineStep.status B' = failed).
  { unfold B'. now rewrite finished_status, B_fails. }
  rewrite B_fails in Hstb.
  rewrite Hsa in Hsb. cbn [dict_set] in Hsb.
  rewrite Eba, String.eqb_refl in Hsb.
  (* C is ready and succeeds *)
  assert (HdC : dependencies_succeeded (Pipeline.steps pb)
                  (PipelineStep.dependencies C) = true).
  { rewrite Hsb, C_deps. dict. now rewrite HA'. }
  assert (HgC : dict_get (Pipeline.steps pb) c = Some C).
  { rewrite Hsb. now dict. }
  rewrite (visit_ready run_command pid true wb c pb C Hpb HgC C_pending
             (deps_complete_of_succeeded _ _ HdC)).
  destruct (execute_step_effect run_command pid wb c pb C Hpb HgC HdC)
    as (pc & Hpc & Hsc & Hhc & Hstc).
  set (wc := snd (execute_step run_command wb pid c)) in *.
  set (C' := finished run_command C (clock wb)) in *.
  assert (HC' : PipelineStep.status C' = succeeded).
  { unfold C'. now rewrite finished_status, C_ok. }
  rewrite Hsb in Hsc. cbn [dict_set] in Hsc.
  rewrite Eca, Ecb, String.eqb_refl in Hsc.
  assert (Hfc : Pipeline.status pc = FAILED).
  { rewrite C_ok in Hstc. rewrite Hstc, Hsc.
    unfold all_complete, PipelineStep.is_terminal. cbn [dict_values map snd forallb].
    rewrite HA', HB', HC', D_pending. exact Hstb. }
  (* D is blocked by B *)
  assert (HgD : dict_get (Pipeline.steps pc) d = Some D).
  { rewrite Hsc. now dict. }
  assert (HdD : deps_complete (Pipeline.steps pc) (PipelineStep.dependencies D) = false).
  { rewrite Hsc, D_deps. unfold deps_complete, dict_mem. dict.
    now rewrite HB'. }
  rewrite (visit_blocked run_command pid true wc d pc D Hpc HgD HdD).
  cbn [fst snd].
  rewrite (while_loop_leave run_command pid fuel true wc pc Hpc)
    by congruence.
  rewrite (live_status_registered _ _ _ Hpc), Hfc.
  exists wc, pc, A', B', C'.
  repeat split; auto.
  exists [mkStartEvent pid c (Pipeline.steps pb);
          mkStartEvent pid b (Pipeline.steps pa);
          mkStartEvent pid a (Pipeline.steps p1)].
  split.
  - rewrite Hhc, Hhb, Hha. reflexivity.
  - repeat constructor; simpl; intros ->;
      rewrite ?String.eqb_refl in *; discriminate.
Qed.
End Diamond.

(** ** Soundness of the decision procedures *)

Section Checks.

Import PipelineExecutor Props Check.

Lemma distinctb_sound l : distinctb l = true -> NoDup l.
Proof.
  induction l as [|x l IH]; simpl; [constructor|].
  rewrite andb_true_iff, negb_true_iff. intros [Hx Hl].
  constructor; [|auto].
  intros Hin.
  assert (existsb (String.eqb x) l = true); [|congruence].
  apply existsb_exists. exists x. split; [assumption | apply String.eqb_refl].
Qed.

Lemma all_pendingb_sound steps : all_pendingb steps = true -> all_pending steps.
Proof.
  unfold all_pendingb, all_pending, is_pending. rewrite forallb_forall.
  intros H step Hin. specialize (H step Hin).
  now destruct (PipelineStep.status step).
Qed.

Lemma ids_presentb_sound steps : ids_presentb steps = true -> ids_present steps.
Proof.
  unfold ids_presentb, ids_present. rewrite forallb_forall.
  intros H k step x Hget Hin.
  specialize (H (k, step) (dict_get_In _ _ _ Hget)). simpl in H.
  rewrite forallb_forall in H. now apply H.
Qed.

Lemma stalledb_sound steps : stalledb steps = true -> stalled steps.
Proof.
  unfold stalledb, stalled. rewrite forallb_forall.
  intros H k step Hget Hpend.
  specialize (H (k, step) (dict_get_In _ _ _ Hget)). simpl in H.
  unfold is_pending in H. rewrite Hpend in H. simpl in H.
  now apply negb_true_iff in H.
Qed.

Lemma rankedb_sound rank steps : rankedb rank steps = true -> acyclic steps.
Proof.
  unfold rankedb. rewrite forallb_forall. intros H.
  assert (Hdown : forall x y,
             clos_trans string (depends_on steps) x y -> rank y < rank x).
  { intros x y Hxy. induction Hxy as [x y (step & Hget & Hin) | x y z _ IH1 _ IH2].
    - specialize (H (x, step) (dict_get_In _ _ _ Hget)). simpl in H.
      rewrite forallb_forall in H. apply Nat.ltb_lt. now apply H.
    - lia. }
  intros k Hk. specialize (Hdown k k Hk). lia.
Qed.

End Checks.

(** ** Failure isolation: the statement, and runs on sample pipelines *)

Section Samples.

Import PipelineExecutor Props Check.

(** C4, as the code has it. In the diamond A, B (after A), C (after A),
    D (after B and C) in which B fails while A and C succeed,
    [execute_pipeline] returns [False] with C succeeded, D untouched
    (pending, never started) and the pipeline FAILED.  In general a
    failure does not end the pass in which it happens: a pending step
    whose dependencies have all succeeded is run by the visit that
    reaches it even when the pipeline is FAILED by then.  But a pipeline
    that is no longer IN_PROGRESS gets no further pass. *)
Theorem failure_isolation :
  (forall (run_command : PipelineStep.t -> Outcome)
          (a b c d : string) (A B C D : PipelineStep.t) (message : string),
      NoDup [a; b; c; d] ->
      PipelineStep.dependencies A = [] ->
      PipelineStep.dependencies B = [a] ->
      PipelineStep.dependencies C = [a] ->
      PipelineStep.dependencies D = [b; c] ->
      PipelineStep.status A = pending ->
      PipelineStep.status B = pending ->
      PipelineStep.status C = pending ->
      PipelineStep.status D = pending ->
      (forall t, run_command (PipelineStep.start A t) = Returns) ->
      (forall t, run_command (PipelineStep.start B t) = Raises message) ->
      (forall t, run_command (PipelineStep.start C t) = Returns) ->
      forall (fuel : nat) (w : State) (p : Pipeline.t),
        Pipeline.steps p = [(a, A); (b, B); (c, C); (d, D)] ->
        exists w' p' A' B' C',
          execute_pipeline run_command (S fuel) w p = Returned false w'
          /\ registered w' (Pipeline.id p) p'
          /\ Pipeline.status p' = FAILED
          /\ Pipeline.steps p' = [(a, A'); (b, B'); (c, C'); (d, D)]
          /\ PipelineStep.status A' = succeeded
          /\ PipelineStep.status B' = failed
          /\ PipelineStep.status C' = succeeded
          /\ exists new,
               started w' = new ++ started w
               /\ Forall (fun ev => ev_step ev <> d) new)
  /\ (forall (run_command : PipelineStep.t -> Outcome)
             (pipeline_id : string) (progress_made : bool) (w : State)
             (k : string) (p : Pipeline.t) (step : PipelineStep.t),
         registered w pipeline_id p ->
         dict_get (Pipeline.steps p) k = Some step ->
         PipelineStep.status step = pending ->
         (forall dep_id,
             In dep_id (PipelineStep.dependencies step) ->
             exists dep_step,
               dict_get (Pipeline.steps p) dep_id = Some dep_step
               /\ PipelineStep.status dep_step = succeeded) ->
         exists p',
           fst (visit run_command pipeline_id (progress_made, w) k) = true
           /\ registered
                (snd (visit run_command pipeline_id (progress_made, w) k))
                pipeline_id p'
           /\ dict_get (Pipeline.steps p') k
              = Some (finished run_command step (clock w)))
  /\ (forall (run_command : PipelineStep.t -> Outcome)
             (pipeline_id : string) (fuel : nat) (progress_made : bool)
             (w : State) (p : Pipeline.t),
         registered w pipeline_id p ->
         Pipeline.status p <> IN_PROGRESS ->
         while_loop run_command fuel pipeline_id progress_made w
         = Returned tt w).
Proof.
  split; [|split].
  - intros run a b c d A B C D message
      Hd HA HB HC HD HpA HpB HpC HpD HrA HrB HrC fuel w p Hsteps.
    exact (diamond_run run a b c d A B C D message
             Hd HA HB HC HD HpB HpC HpD HrA HrB HrC fuel w p Hsteps).
  - intros. eapply visit_runs_ready; eauto.
  - intros. eapply while_loop_leave; eauto.
Qed.

(** C4, the statement without its restriction fails: in
    [Sample.two_roots] the root R1 fails, the root R2 succeeds, and the
    step X, which depends on R2 alone, is never run. *)
Lemma failed_root_blocks_unrelated_step :
  exists w' p' R1 R2 X,
    execute_pipeline (Sample.fails_on ["R1"]) 5 idle Sample.two_roots
    = Returned false w'
    /\ registered w' "P" p'
    /\ Pipeline.steps p' = [("R1", R1); ("R2", R2); ("X", X)]
    /\ PipelineStep.status R1 = failed
    /\ PipelineStep.status R2 = succeeded
    /\ PipelineStep.dependencies X = ["R2"]
    /\ PipelineStep.status X = pending
    /\ PipelineStep.started_at X = None.
Proof.
  do 5 eexists. split; [vm_compute; reflexivity|].
  split; [vm_compute; reflexivity|].
  repeat split.
Qed.

(** C2, the statement of the specification fails: the two steps of
    [Sample.cycle] wait for each other, nothing is ready and nothing is
    in progress; the loop ends, and the pipeline is left IN_PROGRESS
    with no [completed_at], not FAILED. *)
Lemma cycle_is_not_marked_failed :
  exists w' p' X Y,
    execute_pipeline simulated 5 idle Sample.cycle = Returned false w'
    /\ registered w' "P" p'
    /\ Pipeline.steps p' = [("X", X); ("Y", Y)]
    /\ PipelineStep.status X = pending
    /\ PipelineStep.status Y = pending
    /\ stalled (Pipeline.steps p')
    /\ Pipeline.status p' = IN_PROGRESS
    /\ Pipeline.status p' <> FAILED
    /\ Pipeline.completed_at p' = None.
Proof.
  do 4 eexists. split; [vm_compute; reflexivity|].
  split; [vm_compute; reflexivity|].
  repeat split; try discriminate.
  now apply stalledb_sound.
Qed.

(** C3, the statement without its restriction fails: after the run of
    [Sample.empty] every step is terminal and every step is succeeded
    (there is none), yet the pipeline is IN_PROGRESS, not SUCCEEDED, the
    call returns [False] and no [completed_at] is recorded. *)
Lemma empty_pipeline_is_not_succeeded :
  exists w' p',
    execute_pipeline simulated 5 idle Sample.empty = Returned false w'
    /\ registered w' "P" p'
    /\ all_terminal (Pipeline.steps p')
    /\ all_succeeded (Pipeline.steps p')
    /\ Pipeline.status p' <> SUCCEEDED
    /\ Pipeline.completed_at p' = None.
Proof.
  do 2 eexists. split; [vm_compute; reflexivity|].
  split; [vm_compute; reflexivity|].
  repeat split; try discriminate; intros step [].
Qed.


(** A dependency id that names no step: the scan counts the step as
    ready, [execute_step] refuses it, and the loop never ends. *)
Lemma dangling_dependency_loops (run_command : PipelineStep.t -> Outcome) :
  forall fuel,
  exists w',
    execute_pipeline run_command fuel idle Sample.dangling = OutOfFuel w'.
Proof.
  intros fuel. rewrite execute_pipeline_unfold.
  set (w2 := fold_left _ _ _).
  assert (Hscan : scan run_command "P" w2 = (true, w2)) by reflexivity.
  assert (Hreg : exists p2,
             registered w2 "P" p2 /\ Pipeline.status p2 = IN_PROGRESS).
  { eexists. split; [vm_compute; reflexivity | reflexivity]. }
  destruct Hreg as (p2 & Hp2 & Hst).
  assert (Hloop : while_loop run_command fuel "P" true w2 = OutOfFuel w2).
  { induction fuel as [|fuel IH].
    - cbn [while_loop].
      now rewrite (live_status_registered _ _ _ Hp2), Hst.
    - rewrite (while_loop_enter run_command "P" fuel w2 p2 Hp2 Hst), Hscan.
      exact IH. }
  change (Pipeline.id Sample.dangling) with "P".
  rewrite Hloop. now exists w2.
Qed.

(** *** The theorems at work on the samples *)

Lemma stall_ends_loop_in_progress_witness :
  exists ws p,
    execute_pipeline simulated 1 idle Demo.late_stall = OutOfFuel ws
    /\ registered ws "P" p
    /\ stalled (Pipeline.steps p)
    /\ Pipeline.status p = IN_PROGRESS
    /\ Pipeline.completed_at p = None
    /\ execute_pipeline simulated 2 idle Demo.late_stall = Returned false ws.
Proof.
  assert (Hrun : exists ws p,
             execute_pipeline simulated 1 idle Demo.late_stall = OutOfFuel ws
             /\ registered ws "P" p
             /\ stalledb (Pipeline.steps p) = true
             /\ Pipeline.completed_at p = None).
  { do 2 eexists. split; [vm_compute; reflexivity|].
    split; [vm_compute; reflexivity|]. split; reflexivity. }
  destruct Hrun as (ws & p & Hout & Hp & Hb & Hc).
  assert (Hst : stalled (Pipeline.steps p)) by now apply stalledb_sound.
  destruct (stall_ends_loop_in_progress simulated 1 idle Demo.late_stall
              ws p Hout Hp Hst) as (Hs & _ & Hret).
  exists ws, p. repeat (split; [assumption|]).
  apply Hret. lia.
Defined.

Lemma empty_pipeline_stays_in_progress_witness :
  Pipeline.steps Sample.empty = []
  /\ exists w' p',
       execute_pipeline simulated 1 idle Sample.empty = Returned false w'
       /\ registered w' (Pipeline.id Sample.empty) p'
       /\ Pipeline.status p' = IN_PROGRESS
       /\ Pipeline.completed_at p' = Pipeline.completed_at Sample.empty
       /\ Pipeline.steps p' = []
       /\ started w' = started idle.
Proof.
  split; [reflexivity|].
  apply (empty_pipeline_stays_in_progress simulated 0 idle Sample.empty).
  reflexivity.
Defined.

Lemma terminal_status_when_driven_witness :
  unfinished (Pipeline.steps Sample.diamond)
  /\ exists p',
       registered
         (final_state (execute_pipeline simulated 5 idle Sample.diamond))
         "P" p'
       /\ Pipeline.status p' = SUCCEEDED.
Proof.
  assert (Hunf : unfinished (Pipeline.steps Sample.diamond)).
  { exists (Sample.step "A" []). split; [left; reflexivity | reflexivity]. }
  split; [exact Hunf|].
  destruct (terminal_status_when_driven simulated 5 idle Sample.diamond true
              (final_state (execute_pipeline simulated 5 idle Sample.diamond))
              Hunf eq_refl) as (p' & Hp' & H).
  exists p'. split; [exact Hp'|].
  assert (Hp : dict_get
                 (current_executions
                    (final_state
                       (execute_pipeline simulated 5 idle Sample.diamond)))
                 "P" = Some p') by exact Hp'.
  vm_compute in Hp. injection Hp as <-. reflexivity.
Defined.


Lemma failure_isolation_witness :
  NoDup ["A"; "B"; "C"; "D"]
  /\ exists w' p' A' B' C',
       execute_pipeline (Sample.fails_on ["B"]) 1 idle Sample.diamond
       = Returned false w'
       /\ registered w' "P" p'
       /\ Pipeline.status p' = FAILED
       /\ Pipeline.steps p'
          = [("A", A'); ("B", B'); ("C", C'); ("D", Sample.step "D" ["B"; "C"])]
       /\ PipelineStep.status C' = succeeded.
Proof.
  assert (Hd : NoDup ["A"; "B"; "C"; "D"])
    by (apply distinctb_sound; reflexivity).
  split; [exact Hd|].
  destruct (proj1 failure_isolation (Sample.fails_on ["B"])
              "A" "B" "C" "D"
              (Sample.step "A" []) (Sample.step "B" ["A"])
              (Sample.step "C" ["A"]) (Sample.step "D" ["B"; "C"])
              "boom" Hd eq_refl eq_refl eq_refl eq_refl
              eq_refl eq_refl eq_refl eq_refl
              (fun _ => eq_refl) (fun _ => eq_refl) (fun _ => eq_refl)
              0 idle Sample.diamond eq_refl)
    as (w' & p' & A' & B' & C' & Hrun & Hp' & Hst & Hsteps & _ & _ & HC & _).
  exists w', p', A', B', C'. auto.
Defined.

End Samples.

(** ** [str.replace] *)

Section Replace.

Import Str.

Lemma append_assoc (s t u : string) : ((s ++ t) ++ u = s ++ (t ++ u))%string.
Proof. induction s as [|c s IH]; simpl; [reflexivity | now rewrite IH]. Qed.

Lemma append_empty_r (s : string) : (s ++ "")%string = s.
Proof. induction s as [|c s IH]; simpl; [reflexivity | now rewrite IH]. Qed.

Lemma prefix_cons (a b : ascii) (s t : string) :
  String.prefix (String a s) (String b t)
  = if ascii_dec a b then String.prefix s t else false.
Proof. reflexivity. Qed.

Lemma prefix_append (s t : string) : String.prefix s (s ++ t) = true.
Proof.
  induction s as [|c s IH]; cbn [append]; [now destruct t|].
  rewrite prefix_cons.
  destruct (ascii_dec c c); [assumption | congruence].
Qed.

Variables old new : string.

(** Passing over the rest of a match. *)
Lemma replace_from_skip (u s : string) :
  replace_from old new (String.length u) (u ++ s)
  = replace_from old new 0 s.
Proof. induction u as [|c u IH]; simpl; [now destruct s | assumption]. Qed.

Hypothesis old_nonempty : old <> "".

(** The three equations of the scan. *)
Lemma replace_empty : replace old new "" = "".
Proof. unfold replace. now destruct old. Qed.

Lemma replace_match (s : string) :
  replace old new (old ++ s) = (new ++ replace old new s)%string.
Proof.
  unfold replace. destruct old as [|c o] eqn:E; [congruence|].
  rewrite <- E. replace (old ++ s)%string with (String c (o ++ s))
    by now rewrite E.
  cbn [replace_from].
  replace (String c (o ++ s)) with (old ++ s)%string by now rewrite E.
  rewrite prefix_append.
  replace (String.length old - 1) with (String.length o)
    by (rewrite E; simpl; lia).
  now rewrite replace_from_skip.
Qed.

Lemma replace_no_match (c : ascii) (s : string) :
  String.prefix old (String c s) = false ->
  replace old new (String c s) = String c (replace old new s).
Proof.
  unfold replace. destruct old as [|c0 o] eqn:E; [congruence|].
  rewrite <- E. intros H. cbn [replace_from]. now rewrite H.
Qed.

End Replace.

(** ** Substitution of placeholders *)

Section Substitution.

Import Str Binder.

Lemma placeholder_cons (n : string) :
  placeholder n = String "$" (String "{" (n ++ "}")).
Proof. reflexivity. Qed.

Lemma placeholder_nonempty (n : string) : placeholder n <> "".
Proof. discriminate. Qed.

Lemma placeholder_append (n s : string) :
  (placeholder n ++ s)%string = String "$" (String "{" (n ++ String "}" s)).
Proof. rewrite placeholder_cons. simpl. now rewrite append_assoc. Qed.

Lemma contains_cons_false (c d : ascii) (s : string) :
  contains c (String d s) = false -> c <> d /\ contains c s = false.
Proof.
  simpl. rewrite orb_false_iff. intros [H1 H2]. split; [|assumption].
  now apply Ascii.eqb_neq.
Qed.

Variables k v : string.

Lemma replace_other_char (c : ascii) (s : string) :
  c <> "$"%char ->
  replace (placeholder k) v (String c s)
  = String c (replace (placeholder k) v s).
Proof.
  intros Hc. apply replace_no_match; [apply placeholder_nonempty|].
  rewrite placeholder_cons, prefix_cons.
  destruct (ascii_dec "$" c); [congruence | reflexivity].
Qed.

Lemma replace_plain (t s : string) :
  plain t ->
  replace (placeholder k) v (t ++ s)
  = (t ++ replace (placeholder k) v s)%string.
Proof.
  unfold plain. induction t as [|c t IH]; simpl append; [reflexivity|].
  intros H. apply contains_cons_false in H. destruct H as [Hc Ht].
  rewrite replace_other_char by congruence. now rewrite IH.
Qed.

(** Two names without a closing brace: the first, closed, starts the
    second, closed, only if they are equal. *)
Lemma closed_name_prefix (n m rest : string) :
  contains "}"%char n = false ->
  contains "}"%char m = false ->
  String.prefix (n ++ "}") (m ++ String "}" rest) = true ->
  n = m.
Proof.
  revert m. induction n as [|c n IH]; intros [|d m] Hn Hm;
    cbn [append]; rewrite prefix_cons.
  - reflexivity.
  - apply contains_cons_false in Hm. destruct Hm as [Hd _].
    destruct (ascii_dec "}" d); [congruence | discriminate].
  - apply contains_cons_false in Hn. destruct Hn as [Hc _].
    destruct (ascii_dec c "}"); [congruence | discriminate].
  - apply contains_cons_false in Hn. apply contains_cons_false in Hm.
    destruct Hn as [_ Hn], Hm as [_ Hm].
    destruct (ascii_dec c d) as [->|]; [|discriminate].
    intros H. f_equal. now apply IH.
Qed.

Hypothesis k_ok : name_ok k.

Lemma replace_other_hole (m s : string) :
  name_ok m -> m <> k ->
  replace (placeholder k) v (placeholder m ++ s)
  = (placeholder m ++ replace (placeholder k) v s)%string.
Proof.
  intros [Hm1 Hm2] Hne. destruct k_ok as [_ Hk2].
  rewrite !placeholder_append.
  rewrite replace_no_match; [| apply placeholder_nonempty |].
  - rewrite replace_other_char by discriminate. f_equal. f_equal.
    change (String "}" s) with ("}" ++ s)%string.
    rewrite <- append_assoc, replace_plain.
    + rewrite append_assoc. simpl. f_equal.
    + unfold plain. clear -Hm1. induction m as [|c m IH]; simpl in *.
      * reflexivity.
      * apply orb_false_iff in Hm1. destruct Hm1 as [-> H]. simpl. auto.
  - rewrite placeholder_cons, !prefix_cons.
    destruct (ascii_dec "$" "$"); [|reflexivity].
    destruct (ascii_dec "{" "{"); [|reflexivity].
    destruct (String.prefix (k ++ "}") (m ++ String "}" s)) eqn:E;
      [|reflexivity].
    exfalso. apply Hne. symmetry. eapply closed_name_prefix; eauto.
Qed.

Lemma replace_flatten (segs : list Segment) :
  Forall seg_ok segs ->
  replace (placeholder k) v (flatten segs) = flatten (map (fill k v) segs).
Proof.
  unfold flatten.
  induction 1 as [|seg segs Hseg _ IH]; cbn [fold_right map].
  - apply replace_empty. apply placeholder_nonempty.
  - destruct seg as [text|name]; cbn [seg_text fill seg_ok] in *.
    + now rewrite replace_plain, IH.
    + destruct (String.eqb_spec name k) as [->|Hne]; cbn [seg_text].
      * rewrite replace_match by apply placeholder_nonempty. now rewrite IH.
      * now rewrite replace_other_hole, IH.
Qed.

Lemma fill_ok (seg : Segment) : plain v -> seg_ok seg -> seg_ok (fill k v seg).
Proof.
  intros Hv. destruct seg as [text|name]; simpl; [auto|].
  now destruct (String.eqb name k).
Qed.

Lemma render_cons (vars : Dict string) (segs : list Segment) :
  render ((k, v) :: vars) segs = render vars (map (fill k v) segs).
Proof.
  induction segs as [|seg segs IH]; simpl; [reflexivity|].
  rewrite IH. f_equal.
  destruct seg as [text|name]; simpl; [reflexivity|].
  now destruct (String.eqb name k).
Qed.

End Substitution.

Section SubstituteRender.

Import Binder.

Lemma render_nil (segs : list Segment) : render [] segs = flatten segs.
Proof.
  induction segs as [|[text|name] segs IH]; simpl; now rewrite ?IH.
Qed.

(** On a template whose literal text has no dollar sign, with names
    free of dollar signs and closing braces and values free of dollar
    signs, the loop of [replace] calls is the substitution of the
    specification. *)
Lemma substitute_render (vars : Dict string) : forall segs,
  bindings_ok vars ->
  Forall seg_ok segs ->
  substitute (flatten segs) vars = render vars segs.
Proof.
  unfold substitute.
  induction vars as [|[k v] vars IH]; intros segs Hvars Hsegs;
    cbn [fold_left fst snd].
  - symmetry. apply render_nil.
  - destruct (Hvars k v (or_introl eq_refl)) as [Hk Hv].
    rewrite (replace_flatten k v Hk segs Hsegs).
    rewrite render_cons. apply IH.
    + intros k' v' Hin. apply Hvars. now right.
    + rewrite Forall_forall in *. intros seg Hin.
      apply in_map_iff in Hin. destruct Hin as (seg0 & <- & Hin0).
      apply fill_ok; auto.
Qed.

End SubstituteRender.

(** ** Instantiation of a template *)

Section MoreDict.

Context {V : Type}.
Implicit Types (d : Dict V) (k : string) (v : V).

Lemma dict_set_absent d k v :
  dict_get d k = None -> dict_set d k v = d ++ [(k, v)].
Proof.
  induction d as [|[k0 v0] d IH]; simpl; [reflexivity|].
  destruct (String.eqb k k0); [discriminate|].
  intros H. now rewrite IH.
Qed.

Lemma dict_set_In d k v k' v' :
  In (k', v') (dict_set d k v) -> (k', v') = (k, v) \/ In (k', v') d.
Proof.
  induction d as [|[k0 v0] d IH]; simpl.
  - intros [H|[]]; auto.
  - destruct (String.eqb_spec k k0) as [->|Hne]; simpl; intros [H|H]; auto.
    destruct (IH H); auto.
Qed.

Lemma dict_get_app_absent d d' k :
  ~ In k (dict_keys d) -> dict_get (d ++ d') k = dict_get d' k.
Proof.
  induction d as [|[k0 v0] d IH]; simpl; [reflexivity|].
  intros H. destruct (String.eqb_spec k k0) as [->|Hne]; [tauto|].
  apply IH. tauto.
Qed.

Lemma dict_set_app_absent d d' k v :
  ~ In k (dict_keys d) -> dict_set (d ++ d') k v = d ++ dict_set d' k v.
Proof.
  induction d as [|[k0 v0] d IH]; simpl; [reflexivity|].
  intros H. destruct (String.eqb_spec k k0) as [->|Hne]; [tauto|].
  rewrite IH; tauto.
Qed.

Lemma dict_keys_app d d' : dict_keys (d ++ d') = dict_keys d ++ dict_keys d'.
Proof. apply map_app. Qed.

End MoreDict.

Section Heap.

Import PipelineTemplate.

Lemma nth_list_set_same {A : Type} (l : list A) i x d :
  i < List.length l -> nth i (list_set l i x) d = x.
Proof.
  revert i. induction l as [|y l IH]; intros [|i]; simpl; try lia; auto.
  intros H. apply IH. lia.
Qed.

Lemma nth_list_set_other {A : Type} (l : list A) i j x d :
  i <> j -> nth j (list_set l i x) d = nth j l d.
Proof.
  revert i j.
  induction l as [|y l IH]; intros [|i] [|j] H; simpl; auto; congruence.
Qed.

Lemma length_list_set {A : Type} (l : list A) i x :
  List.length (list_set l i x) = List.length l.
Proof.
  revert i. induction l as [|y l IH]; intros [|i]; simpl; auto.
Qed.

End Heap.

Section CreatePipeline.

Import PipelineTemplate Binder.

Variable uuid4 : nat -> string.

Lemma effective_unfold app_id version d :
  effective app_id version d
  = dict_set (dict_set d "APP_ID" app_id) "VERSION" version.
Proof. reflexivity. Qed.

Lemma effective_app_id app_id version d :
  dict_get (effective app_id version d) "APP_ID" = Some app_id.
Proof.
  rewrite effective_unfold, dict_get_set_other by discriminate.
  apply dict_get_set_same.
Qed.

Lemma effective_version app_id version d :
  dict_get (effective app_id version d) "VERSION" = Some version.
Proof. rewrite effective_unfold. apply dict_get_set_same. Qed.

Lemma effective_other app_id version d k :
  k <> "APP_ID" -> k <> "VERSION" ->
  dict_get (effective app_id version d) k = dict_get d k.
Proof.
  intros H1 H2. rewrite effective_unfold.
  rewrite !dict_get_set_other by congruence. reflexivity.
Qed.

Lemma deref_nonempty_valid rt r :
  deref rt r <> [] -> r < List.length (heap rt).
Proof.
  unfold deref. intros H.
  destruct (Nat.lt_ge_cases r (List.length (heap rt))) as [|Hge]; [assumption|].
  now rewrite nth_overflow in H.
Qed.

Lemma list_set_end {A : Type} (l : list A) (x y : A) :
  list_set (l ++ [x]) (List.length l) y = l ++ [y].
Proof. induction l as [|z l IH]; simpl; [reflexivity | now rewrite IH]. Qed.

(** Lines 151-155: which dict object [variables] ends up naming, what it
    holds, and what has happened to the heap. *)
Lemma bind_variables_spec app_id version variables rt :
  exists ref rt1,
    bind_variables app_id version variables rt = (ref, rt1)
    /\ deref rt1 ref = effective app_id version (caller_dict rt variables)
    /\ clock rt1 = clock rt
    /\ uuid_next rt1 = uuid_next rt
    /\ ((exists r,
           variables = Some r /\ deref rt r <> [] /\ ref = r
           /\ heap rt1
              = list_set (heap rt) r (effective app_id version (deref rt r)))
        \/ (caller_dict rt variables = []
            /\ ref = List.length (heap rt)
            /\ heap rt1 = heap rt ++ [effective app_id version []])).
Proof.
  assert (Hfresh :
            caller_dict rt variables = [] ->
            exists ref rt1,
              (let '(ref0, rt0) := alloc rt in
               (ref0,
                store rt0 ref0
                  (dict_update (deref rt0 ref0)
                     [("APP_ID", app_id); ("VERSION", version)])))
              = (ref, rt1)
              /\ deref rt1 ref
                 = effective app_id version (caller_dict rt variables)
              /\ clock rt1 = clock rt
              /\ uuid_next rt1 = uuid_next rt
              /\ ((exists r,
                     variables = Some r /\ deref rt r <> [] /\ ref = r
                     /\ heap rt1
                        = list_set (heap rt) r
                            (effective app_id version (deref rt r)))
                  \/ (caller_dict rt variables = []
                      /\ ref = List.length (heap rt)
                      /\ heap rt1 = heap rt ++ [effective app_id version []]))).
  { intros Hempty. rewrite Hempty.
    unfold alloc, store, deref. cbn [heap clock uuid_next].
    do 2 eexists. split; [reflexivity|]. cbn [heap clock uuid_next].
    rewrite nth_middle, list_set_end, nth_middle.
    repeat split; auto. }
  unfold bind_variables.
  destruct variables as [r|].
  - destruct (deref rt r) as [|kv d] eqn:E.
    + apply Hfresh. exact E.
    + exists r, (store rt r (dict_update (deref rt r)
                               [("APP_ID", app_id); ("VERSION", version)])).
      rewrite E. split; [reflexivity|].
      assert (Hvalid : r < List.length (heap rt)).
      { apply deref_nonempty_valid. rewrite E. discriminate. }
      repeat split.
      * unfold deref at 1, store. cbn [heap caller_dict].
        rewrite nth_list_set_same by assumption.
        now rewrite ?E.
      * left. exists r. rewrite E.
        split; [reflexivity|]. split; [discriminate|]. split; reflexivity.
  - apply Hfresh. reflexivity.
Qed.

End CreatePipeline.

Section CreatePipelineLoops.

Import PipelineTemplate Binder.

Variable uuid4 : nat -> string.
Variables vars : Dict string.

Lemma step_ids_cons first n :
  map uuid4 (seq first (S n)) = uuid4 first :: map uuid4 (seq (S first) n).
Proof. reflexivity. Qed.

Lemma dict_keys_made first templates :
  dict_keys (map (made_step uuid4 vars) (numbered first templates))
  = map uuid4 (seq first (List.length templates)).
Proof.
  revert first.
  induction templates as [|t ts IH]; intros first; [reflexivity|].
  cbn [numbered map dict_keys List.length seq made_step fst].
  f_equal. apply IH.
Qed.

Lemma instantiate_step_eq pipeline m rt t :
  instantiate_step uuid4 vars (pipeline, m, rt) t
  = (Pipeline.add_step pipeline
       (PipelineStep.init (uuid4 (uuid_next rt)) (st_name t) (st_stage t)
          (substitute (command_template t) vars) [])
       (clock rt),
     dict_set m (st_name t) (uuid4 (uuid_next rt)),
     mkRuntime (S (clock rt)) (S (uuid_next rt)) (heap rt)).
Proof. reflexivity. Qed.

(** The first loop appends one pending step per template, as long as
    the ids drawn are new. *)
Lemma instantiate_steps_spec : forall templates pipeline m rt,
  NoDup (dict_keys (Pipeline.steps pipeline)
         ++ map uuid4 (seq (uuid_next rt) (List.length templates))) ->
  exists pipeline' rt',
    fold_left (instantiate_step uuid4 vars) templates (pipeline, m, rt)
    = (pipeline',
       name_map uuid4 (numbered (uuid_next rt) templates) m, rt')
    /\ Pipeline.steps pipeline'
       = Pipeline.steps pipeline
         ++ map (made_step uuid4 vars) (numbered (uuid_next rt) templates)
    /\ Pipeline.id pipeline' = Pipeline.id pipeline
    /\ Pipeline.app_id pipeline' = Pipeline.app_id pipeline
    /\ Pipeline.version pipeline' = Pipeline.version pipeline
    /\ Pipeline.status pipeline' = Pipeline.status pipeline
    /\ heap rt' = heap rt.
Proof.
  induction templates as [|t ts IH]; intros pipeline m rt Hnd.
  - exists pipeline, rt. simpl. rewrite app_nil_r. repeat split; auto.
  - cbn [fold_left]. rewrite instantiate_step_eq.
    set (id0 := uuid4 (uuid_next rt)).
    set (step := PipelineStep.init id0 (st_name t) (st_stage t)
                   (substitute (command_template t) vars) []).
    set (rt2 := mkRuntime _ _ _).
    cbn [List.length] in Hnd. rewrite step_ids_cons in Hnd. fold id0 in Hnd.
    assert (Habsent : dict_get (Pipeline.steps pipeline) id0 = None).
    { apply dict_get_None. intros Hin.
      apply NoDup_remove_2 in Hnd. apply Hnd.
      apply in_or_app. now left. }
    destruct (IH (Pipeline.add_step pipeline step (clock rt))
                (dict_set m (st_name t) id0) rt2)
      as (p' & rt' & Hrun & Hsteps & Hid & Happ & Hver & Hst & Hheap).
    { cbn [Pipeline.add_step Pipeline.steps PipelineStep.id step
           PipelineStep.init uuid_next rt2].
      rewrite dict_set_absent by assumption.
      rewrite dict_keys_app. cbn [dict_keys map fst].
      rewrite <- app_assoc. exact Hnd. }
    exists p', rt'. rewrite Hrun. split; [reflexivity|].
    split; [|auto].
    rewrite Hsteps.
    cbn [Pipeline.add_step Pipeline.steps PipelineStep.id step
         PipelineStep.init uuid_next rt2 numbered map].
    rewrite dict_set_absent by assumption.
    now rewrite <- app_assoc.
Qed.

Variable m : Dict string.

(** The second loop sets the dependencies of the steps in turn. *)
Lemma wire_dependencies_spec : forall templates pre first,
  NoDup (dict_keys pre ++ map uuid4 (seq first (List.length templates))) ->
  wire_dependencies m (List.length pre) templates
    (pre ++ map (made_step uuid4 vars) (numbered first templates))
  = Some (pre ++ instantiated uuid4 vars m first templates).
Proof.
  induction templates as [|t ts IH]; intros pre first Hnd; [reflexivity|].
  cbn [List.length] in Hnd. rewrite step_ids_cons in Hnd.
  assert (Hnew : ~ In (uuid4 first) (dict_keys pre)).
  { intros Hin. apply NoDup_remove_2 in Hnd. apply Hnd.
    apply in_or_app. now left. }
  cbn [numbered map instantiated].
  set (e := made_step uuid4 vars (first, t)).
  set (rest := map (made_step uuid4 vars) (numbered (S first) ts)).
  set (step' := PipelineStep.mk (uuid4 first) (st_name t) (st_stage t)
                  (substitute (command_template t) vars)
                  (resolve_dependencies m (st_dependencies t))
                  pending "" None None).
  assert (Hnth : nth_error (dict_keys (pre ++ e :: rest)) (List.length pre)
                 = Some (uuid4 first)).
  { unfold dict_keys. rewrite map_app, nth_error_app2
      by (rewrite length_map; lia).
    now rewrite length_map, Nat.sub_diag. }
  assert (Hget : dict_get (pre ++ e :: rest) (uuid4 first) = Some (snd e)).
  { rewrite dict_get_app_absent by assumption.
    cbn [e made_step dict_get fst snd]. now rewrite String.eqb_refl. }
  assert (Hset : dict_set (pre ++ e :: rest) (uuid4 first) step'
                 = (pre ++ [(uuid4 first, step')]) ++ rest).
  { rewrite dict_set_app_absent by assumption.
    cbn [e made_step dict_set fst snd]. rewrite String.eqb_refl.
    now rewrite <- app_assoc. }
  cbn [wire_dependencies]. rewrite Hnth, Hget.
  change (PipelineStep.set_dependencies (snd e)
            (resolve_dependencies m (st_dependencies t))) with step'.
  rewrite Hset.
  replace (S (List.length pre))
    with (List.length (pre ++ [(uuid4 first, step')]))
    by (rewrite length_app; simpl; lia).
  unfold rest. rewrite (IH (pre ++ [(uuid4 first, step')]) (S first)).
  - now rewrite <- app_assoc.
  - rewrite dict_keys_app. cbn [dict_keys map fst].
    rewrite <- app_assoc. exact Hnd.
Qed.

End CreatePipelineLoops.

Section CreatePipelineSpec.

Import PipelineTemplate Binder.

Variable uuid4 : nat -> string.

(** [create_pipeline] in closed form, when the ids drawn for the steps
    are pairwise distinct. *)
Lemma create_pipeline_with_spec self app_id version variables rt :
  NoDup (step_ids uuid4 (uuid_next rt) (List.length (steps self))) ->
  exists pipeline ref rt',
    create_pipeline_with uuid4 self app_id version variables rt
    = Some (pipeline, ref, rt')
    /\ Pipeline.steps pipeline
       = instantiated uuid4
           (effective app_id version (caller_dict rt variables))
           (name_map uuid4 (numbered (S (uuid_next rt)) (steps self)) [])
           (S (uuid_next rt)) (steps self)
    /\ Pipeline.id pipeline = uuid4 (uuid_next rt)
    /\ Pipeline.app_id pipeline = app_id
    /\ Pipeline.version pipeline = version
    /\ Pipeline.status pipeline = PENDING
    /\ deref rt' ref = effective app_id version (caller_dict rt variables)
    /\ ((exists r,
           variables = Some r /\ deref rt r <> [] /\ ref = r
           /\ heap rt'
              = list_set (heap rt) r (effective app_id version (deref rt r)))
        \/ (caller_dict rt variables = []
            /\ ref = List.length (heap rt)
            /\ heap rt' = heap rt ++ [effective app_id version []])).
Proof.
  unfold step_ids. intros Hnd. unfold create_pipeline_with.
  destruct (bind_variables_spec app_id version variables rt)
    as (ref & rt1 & Hbind & Hderef & Hclock & Huuid & Hheap).
  rewrite Hbind. cbn [fresh_uuid utcnow clock uuid_next heap].
  set (rt3 := mkRuntime (S (clock rt1)) (S (uuid_next rt1)) (heap rt1)).
  change (deref rt3 ref) with (deref rt1 ref). rewrite Hderef.
  set (vars := effective app_id version (caller_dict rt variables)).
  set (p0 := Pipeline.init (uuid4 (uuid_next rt1)) (name self)
               app_id version (clock rt1)).
  destruct (instantiate_steps_spec uuid4 vars (steps self) p0
              (@nil (string * string)) rt3)
    as (p1 & rt4 & Hrun & Hsteps & Hid & Happ & Hver & Hst & Hh4).
  { cbn [p0 Pipeline.init Pipeline.steps dict_keys map app rt3 uuid_next].
    now rewrite Huuid. }
  match goal with
  | |- context [fold_left ?f ?l ?a] =>
      replace (fold_left f l a)
        with (p1, name_map uuid4 (numbered (uuid_next rt3) (steps self)) [],
              rt4)
        by (symmetry; exact Hrun)
  end.
  cbv iota beta. rewrite Hsteps.
  cbn [p0 Pipeline.init Pipeline.steps app rt3 uuid_next].
  rewrite Huuid.
  pose proof (wire_dependencies_spec uuid4 vars
                (name_map uuid4 (numbered (S (uuid_next rt)) (steps self)) [])
                (steps self) [] (S (uuid_next rt))) as Hwire.
  cbn [List.length app dict_keys map] in Hwire.
  rewrite (Hwire Hnd).
  do 3 eexists. split; [reflexivity|].
  cbn [Pipeline.with_steps Pipeline.steps Pipeline.id Pipeline.app_id
       Pipeline.version Pipeline.status].
  rewrite Hid, Happ, Hver, Hst. cbn [p0 Pipeline.init Pipeline.id
    Pipeline.app_id Pipeline.version Pipeline.status].
  rewrite Huuid.
  split; [reflexivity|]. split; [reflexivity|]. split; [reflexivity|].
  split; [reflexivity|]. split; [reflexivity|].
  split.
  - unfold deref. rewrite Hh4. exact Hderef.
  - rewrite Hh4. exact Hheap.
Qed.

(** The entry of [instantiated] at a position. *)
Lemma nth_error_instantiated vars m : forall templates first i t,
  nth_error templates i = Some t ->
  nth_error (instantiated uuid4 vars m first templates) i
  = Some (uuid4 (first + i),
          PipelineStep.mk (uuid4 (first + i)) (st_name t) (st_stage t)
            (substitute (command_template t) vars)
            (resolve_dependencies m (st_dependencies t))
            pending "" None None).
Proof.
  induction templates as [|t0 ts IH]; intros first [|i] t H; simpl in *;
    try discriminate.
  - injection H as ->. now rewrite Nat.add_0_r.
  - rewrite (IH (S first) i t H). now rewrite Nat.add_succ_r.
Qed.

Lemma dict_keys_instantiated vars m templates first :
  dict_keys (instantiated uuid4 vars m first templates)
  = map uuid4 (seq first (List.length templates)).
Proof.
  revert first. induction templates as [|t ts IH]; intros first;
    [reflexivity|].
  cbn [instantiated dict_keys map fst List.length seq]. f_equal. apply IH.
Qed.

End CreatePipelineSpec.

Section CreatePipelineInvariants.

Import PipelineTemplate Binder.

Variable uuid4 : nat -> string.

(** The loops over the templates never touch the heap. *)
Lemma instantiate_steps_heap vars : forall templates acc,
  heap (snd (fold_left (instantiate_step uuid4 vars) templates acc))
  = heap (snd acc).
Proof.
  induction templates as [|t ts IH]; intros [[p m] rt]; [reflexivity|].
  cbn [fold_left]. rewrite instantiate_step_eq, IH. reflexivity.
Qed.

Lemma create_pipeline_with_heap self app_id version variables rt p ref rt' :
  create_pipeline_with uuid4 self app_id version variables rt
  = Some (p, ref, rt') ->
  ref = fst (bind_variables app_id version variables rt)
  /\ heap rt' = heap (snd (bind_variables app_id version variables rt)).
Proof.
  unfold create_pipeline_with.
  destruct (bind_variables app_id version variables rt) as [ref0 rt1].
  cbn [fresh_uuid utcnow fst snd].
  match goal with
  | |- context [fold_left (instantiate_step uuid4 ?vars) ?l ?a] =>
      generalize (instantiate_steps_heap vars l a
                  : heap (snd (fold_left (instantiate_step uuid4 vars) l a))
                    = heap (snd a));
      destruct (fold_left (instantiate_step uuid4 vars) l a) as [[p1 m] rt4]
  end.
  cbn [snd heap]. intros Hheap.
  destruct (wire_dependencies _ _ _ _); [|discriminate].
  intros [= <- <- <-]. auto.
Qed.

(** *** Dependencies point into the pipeline *)

Lemma instantiate_steps_closed vars : forall templates p m rt,
  map_into m (Pipeline.steps p) ->
  closed (Pipeline.steps p) ->
  map_into
    (snd (fst (fold_left (instantiate_step uuid4 vars) templates (p, m, rt))))
    (Pipeline.steps
       (fst (fst (fold_left (instantiate_step uuid4 vars) templates
                    (p, m, rt)))))
  /\ closed
       (Pipeline.steps
          (fst (fst (fold_left (instantiate_step uuid4 vars) templates
                       (p, m, rt))))).
Proof.
  induction templates as [|t ts IH]; intros p m rt Hm Hc; [now split|].
  cbn [fold_left]. rewrite instantiate_step_eq. apply IH.
  - intros n id. cbn [Pipeline.add_step Pipeline.steps PipelineStep.init
                      PipelineStep.id].
    rewrite dict_get_set. rewrite dict_set_keys_incl.
    destruct (String.eqb n (st_name t)); [intros [= <-]; now left|].
    intros H. right. eapply Hm; eauto.
  - intros k s d Hin Hd.
    cbn [Pipeline.add_step Pipeline.steps PipelineStep.init
         PipelineStep.id] in *.
    rewrite dict_set_keys_incl.
    destruct (dict_set_In _ _ _ _ _ Hin) as [E|Hold].
    + injection E as -> ->. destruct Hd.
    + right. eapply Hc; eauto.
Qed.

Lemma resolve_into m steps names d :
  map_into m steps ->
  In d (resolve_dependencies m names) -> In d (dict_keys steps).
Proof.
  intros Hm. unfold resolve_dependencies. rewrite in_flat_map.
  intros (n & _ & Hd).
  destruct (dict_get m n) as [id|] eqn:E; [|destruct Hd].
  destruct Hd as [<-|[]]. eapply Hm; eauto.
Qed.

Lemma wire_dependencies_closed m : forall templates i steps steps',
  wire_dependencies m i templates steps = Some steps' ->
  map_into m steps -> closed steps ->
  closed steps'.
Proof.
  induction templates as [|t ts IH]; intros i steps steps'; simpl.
  - now intros [= <-].
  - destruct (nth_error (dict_keys steps) i) as [k|]; [|discriminate].
    destruct (dict_get steps k) as [s|] eqn:Es; [|discriminate].
    intros Hrun Hm Hc.
    assert (Hkeys : dict_keys
                      (dict_set steps k
                         (PipelineStep.set_dependencies s
                            (resolve_dependencies m (st_dependencies t))))
                    = dict_keys steps)
      by (eapply dict_keys_set_present; eauto).
    apply (IH _ _ _ Hrun).
    + intros n id Hn. rewrite Hkeys. eapply Hm; eauto.
    + intros k0 s0 d Hin Hd. rewrite Hkeys.
      destruct (dict_set_In _ _ _ _ _ Hin) as [E|Hold].
      * injection E as -> ->. simpl in Hd. eapply resolve_into; eauto.
      * eapply Hc; eauto.
Qed.

(** The result guarantee of [create_pipeline]. *)
Lemma create_pipeline_with_closed self app_id version variables rt p ref rt' :
  create_pipeline_with uuid4 self app_id version variables rt
  = Some (p, ref, rt') ->
  closed (Pipeline.steps p).
Proof.
  unfold create_pipeline_with.
  destruct (bind_variables app_id version variables rt) as [ref0 rt1].
  cbn [fresh_uuid utcnow].
  match goal with
  | |- context [fold_left (instantiate_step uuid4 ?vars) ?l ?a] =>
      let r := constr:(fold_left (instantiate_step uuid4 vars) l a) in
      assert (H : map_into (snd (fst r)) (Pipeline.steps (fst (fst r)))
                  /\ closed (Pipeline.steps (fst (fst r))))
        by (apply instantiate_steps_closed;
            [intros n id; discriminate | intros k s d []]);
      revert H;
      destruct r as [[p1 m] rt4]
  end.
  cbn [fst snd]. intros [Hm Hc].
  destruct (wire_dependencies m 0 (steps self) (Pipeline.steps p1))
    as [steps'|] eqn:Ew; [|discriminate].
  intros [= <- <- <-]. cbn [Pipeline.with_steps Pipeline.steps].
  exact (wire_dependencies_closed m _ _ _ _ Ew Hm Hc).
Qed.

(** *** The name map *)

Lemma name_map_none : forall its m0 n,
  dict_get m0 n = None ->
  existsb (fun it => String.eqb n (st_name (snd it))) its = false ->
  dict_get (name_map uuid4 its m0) n = None.
Proof.
  unfold name_map.
  induction its as [|it its IH]; intros m0 n H0 Hn; simpl in *; [assumption|].
  apply orb_false_iff in Hn. destruct Hn as [Hit Hits].
  apply IH; [|assumption].
  rewrite dict_get_set, Hit. assumption.
Qed.

Lemma names_step_numbered templates n : forall first,
  existsb (fun it => String.eqb n (st_name (snd it))) (numbered first templates)
  = names_step templates n.
Proof.
  induction templates as [|t ts IH]; intros first; simpl; [reflexivity|].
  now rewrite IH.
Qed.

Lemma resolve_filter m (keep : string -> bool) names :
  (forall n, keep n = false -> dict_get m n = None) ->
  resolve_dependencies m (filter keep names) = resolve_dependencies m names.
Proof.
  intros H. unfold resolve_dependencies.
  induction names as [|n names IH]; simpl; [reflexivity|].
  destruct (keep n) eqn:E; simpl; rewrite IH; [reflexivity|].
  now rewrite (H n E).
Qed.

End CreatePipelineInvariants.

(** ** Instantiation: the statements *)

Section CreatePipelineClaims.

Import PipelineTemplate Binder Check.

Lemma create_pipeline_with_of uuid4 self app_id version variables rt p rt' :
  create_pipeline uuid4 self app_id version variables rt = Some (p, rt') ->
  exists ref,
    create_pipeline_with uuid4 self app_id version variables rt
    = Some (p, ref, rt').
Proof.
  unfold create_pipeline.
  destruct (create_pipeline_with _ _ _ _ _ _) as [[[p0 ref] rt0]|];
    [|discriminate].
  intros [= <- <-]. now exists ref.
Qed.

(** The steps of the returned pipeline, position by position. *)
Lemma create_pipeline_steps uuid4 self app_id version variables rt :
  NoDup (step_ids uuid4 (uuid_next rt) (List.length (steps self))) ->
  exists pipeline rt',
    create_pipeline uuid4 self app_id version variables rt
    = Some (pipeline, rt')
    /\ forall i t,
         nth_error (steps self) i = Some t ->
         nth_error (Pipeline.steps pipeline) i
         = Some (uuid4 (S (uuid_next rt) + i),
                 PipelineStep.mk (uuid4 (S (uuid_next rt) + i))
                   (st_name t) (st_stage t)
                   (substitute (command_template t)
                      (effective app_id version (caller_dict rt variables)))
                   (resolve_dependencies
                      (name_map uuid4
                         (numbered (S (uuid_next rt)) (steps self)) [])
                      (st_dependencies t))
                   pending "" None None).
Proof.
  intros Hnd.
  destruct (create_pipeline_with_spec uuid4 self app_id version variables rt
              Hnd) as (p & ref & rt' & Hrun & Hsteps & _).
  exists p, rt'. unfold create_pipeline. rewrite Hrun.
  split; [reflexivity|].
  intros i t Hi. rewrite Hsteps. now apply nth_error_instantiated.
Qed.

Lemma bindings_ok_effective app_id version d :
  bindings_ok d -> plain app_id -> plain version ->
  bindings_ok (effective app_id version d).
Proof.
  intros Hd Ha Hv k v Hin. rewrite effective_unfold in Hin.
  destruct (dict_set_In _ _ _ _ _ Hin) as [E|Hin1].
  - injection E as -> ->. repeat split; auto.
  - destruct (dict_set_In _ _ _ _ _ Hin1) as [E|Hin2].
    + injection E as -> ->. repeat split; auto.
    + now apply Hd.
Qed.

(** C6, as the code has it. The bindings are applied one after the
    other, each by a [replace] over the whole command.  On a template
    whose literal text has no dollar sign, with variable names free of
    dollar signs and closing braces and with bound values (the app id and
    the version among them) free of dollar signs, the command of every
    step is its template with each placeholder of a bound name
    replaced by the bound value and every other placeholder left as it
    is.  And the template command "deploy ${APP_ID} ${VERSION} ${ENV}"
    with app id "app-1", version "2.0" and variables ENV = "staging" gives
    "deploy app-1 2.0 staging". *)
Theorem substitution_of_placeholders :
  (forall (uuid4 : nat -> string) (self : t) (app_id version : string)
          (variables : option nat) (rt : Runtime),
      NoDup (step_ids uuid4 (uuid_next rt) (List.length (steps self))) ->
      bindings_ok (caller_dict rt variables) ->
      plain app_id ->
      plain version ->
      exists pipeline rt',
        create_pipeline uuid4 self app_id version variables rt
        = Some (pipeline, rt')
        /\ forall i step_template segs,
             nth_error (steps self) i = Some step_template ->
             command_template step_template = flatten segs ->
             Forall seg_ok segs ->
             exists step_id step,
               nth_error (Pipeline.steps pipeline) i = Some (step_id, step)
               /\ PipelineStep.command step
                  = render
                      (effective app_id version (caller_dict rt variables))
                      segs)
  /\ (exists pipeline rt' step_id step,
        create_pipeline Sample.uuid
          (Sample.one_step "deploy ${APP_ID} ${VERSION} ${ENV}")
          "app-1" "2.0" (Some 0) (Sample.runtime [("ENV", "staging")])
        = Some (pipeline, rt')
        /\ Pipeline.steps pipeline = [(step_id, step)]
        /\ PipelineStep.command step = "deploy app-1 2.0 staging").
Proof.
  split.
  - intros uuid4 self app_id version variables rt Hnd Hok Ha Hv.
    destruct (create_pipeline_steps uuid4 self app_id version variables rt
                Hnd) as (p & rt' & Hrun & Hsteps).
    exists p, rt'. split; [assumption|].
    intros i t segs Hi Hcmd Hsegs.
    do 2 eexists. split; [apply Hsteps; eassumption|].
    cbn [PipelineStep.command]. rewrite Hcmd.
    apply substitute_render; [|assumption].
    now apply bindings_ok_effective.
  - do 4 eexists. split; [vm_compute; reflexivity|].
    split; reflexivity.
Qed.

(** C6, the statement without its restriction fails: a value that
    holds a placeholder is rewritten by a later binding.  With
    IMG = "repo/${APP_ID}" the template "push ${IMG}" becomes
    "push repo/app-1", not the template with [${IMG}] replaced by the
    value bound to IMG. *)
Lemma chained_bindings_rewrite_values :
  exists pipeline rt' step_id step,
    create_pipeline Sample.uuid (Sample.one_step "push ${IMG}")
      "app-1" "2.0" (Some 0) (Sample.runtime [("IMG", "repo/${APP_ID}")])
    = Some (pipeline, rt')
    /\ Pipeline.steps pipeline = [(step_id, step)]
    /\ flatten [Lit "push "; Hole "IMG"] = "push ${IMG}"
    /\ render (effective "app-1" "2.0" [("IMG", "repo/${APP_ID}")])
         [Lit "push "; Hole "IMG"]
       = "push repo/${APP_ID}"
    /\ PipelineStep.command step = "push repo/app-1"
    /\ PipelineStep.command step
       <> render (effective "app-1" "2.0" [("IMG", "repo/${APP_ID}")])
            [Lit "push "; Hole "IMG"].
Proof.
  do 4 eexists. split; [vm_compute; reflexivity|].
  repeat split. discriminate.
Qed.

(** C7. Whatever the caller supplies ([None], an empty dict, a dict
    that binds APP_ID or VERSION itself), the bindings the substitution
    loop goes through bind APP_ID to [app_id] and VERSION to [version],
    hold no other entry for these two keys, and agree with the caller's
    on every other key; the command of every step is its template
    substituted with these bindings. *)
Theorem implicit_bindings_take_precedence :
  forall (uuid4 : nat -> string) (self : t) (app_id version : string)
         (variables : option nat) (rt : Runtime),
    NoDup (step_ids uuid4 (uuid_next rt) (List.length (steps self))) ->
    dict_wf (caller_dict rt variables) ->
    dict_get (effective app_id version (caller_dict rt variables)) "APP_ID"
    = Some app_id
    /\ dict_get (effective app_id version (caller_dict rt variables))
         "VERSION"
       = Some version
    /\ (forall v,
           In ("APP_ID", v)
             (effective app_id version (caller_dict rt variables)) ->
           v = app_id)
    /\ (forall v,
           In ("VERSION", v)
             (effective app_id version (caller_dict rt variables)) ->
           v = version)
    /\ (forall k,
           k <> "APP_ID" -> k <> "VERSION" ->
           dict_get (effective app_id version (caller_dict rt variables)) k
           = dict_get (caller_dict rt variables) k)
    /\ exists pipeline rt',
         create_pipeline uuid4 self app_id version variables rt
         = Some (pipeline, rt')
         /\ forall i step_template,
              nth_error (steps self) i = Some step_template ->
              exists step_id step,
                nth_error (Pipeline.steps pipeline) i = Some (step_id, step)
                /\ PipelineStep.command step
                   = substitute (command_template step_template)
                       (effective app_id version
                          (caller_dict rt variables)).
Proof.
  intros uuid4 self app_id version variables rt Hnd Hwf.
  assert (Hwf' : dict_wf (effective app_id version (caller_dict rt variables))).
  { rewrite effective_unfold. now do 2 apply dict_wf_set. }
  split; [apply effective_app_id|].
  split; [apply effective_version|].
  split.
  { intros v Hin. apply (In_dict_get _ _ _ Hwf') in Hin.
    rewrite effective_app_id in Hin. congruence. }
  split.
  { intros v Hin. apply (In_dict_get _ _ _ Hwf') in Hin.
    rewrite effective_version in Hin. congruence. }
  split; [intros k H1 H2; now apply effective_other|].
  destruct (create_pipeline_steps uuid4 self app_id version variables rt Hnd)
    as (p & rt' & Hrun & Hsteps).
  exists p, rt'. split; [assumption|].
  intros i t Hi. do 2 eexists. split; [apply Hsteps; eassumption|].
  reflexivity.
Qed.

(** C8. In every pipeline [create_pipeline] returns, each dependency of
    each step is a key of the pipeline's steps.  And when the ids drawn
    are distinct the call does return, whatever names the templates list
    as dependencies: the dependencies of a step are the ids found for
    those names that name a step of the template, the other names
    contributing nothing. *)
Theorem dependencies_stay_inside :
  (forall (uuid4 : nat -> string) (self : t) (app_id version : string)
          (variables : option nat) (rt : Runtime)
          (pipeline : Pipeline.t) (rt' : Runtime),
      create_pipeline uuid4 self app_id version variables rt
      = Some (pipeline, rt') ->
      forall step_id step dep_id,
        In (step_id, step) (Pipeline.steps pipeline) ->
        In dep_id (PipelineStep.dependencies step) ->
        dict_mem (Pipeline.steps pipeline) dep_id = true)
  /\ (forall (uuid4 : nat -> string) (self : t) (app_id version : string)
             (variables : option nat) (rt : Runtime),
         NoDup (step_ids uuid4 (uuid_next rt) (List.length (steps self))) ->
         exists pipeline rt' step_id_map,
           create_pipeline uuid4 self app_id version variables rt
           = Some (pipeline, rt')
           /\ (forall n,
                  names_step (steps self) n = false ->
                  dict_get step_id_map n = None)
           /\ forall i step_template,
                nth_error (steps self) i = Some step_template ->
                exists step_id step,
                  nth_error (Pipeline.steps pipeline) i
                  = Some (step_id, step)
                  /\ PipelineStep.name step = st_name step_template
                  /\ PipelineStep.dependencies step
                     = resolve_dependencies step_id_map
                         (st_dependencies step_template)
                  /\ PipelineStep.dependencies step
                     = resolve_dependencies step_id_map
                         (filter (names_step (steps self))
                            (st_dependencies step_template))).
Proof.
  split.
  - intros uuid4 self app_id version variables rt p rt' Hrun k s d Hin Hd.
    destruct (create_pipeline_with_of _ _ _ _ _ _ _ _ Hrun) as (ref & Hwith).
    apply dict_mem_true.
    exact (create_pipeline_with_closed uuid4 self app_id version variables
             rt p ref rt' Hwith k s d Hin Hd).
  - intros uuid4 self app_id version variables rt Hnd.
    destruct (create_pipeline_steps uuid4 self app_id version variables rt
                Hnd) as (p & rt' & Hrun & Hsteps).
    set (m := name_map uuid4 (numbered (S (uuid_next rt)) (steps self)) []).
    assert (Hnone : forall n,
               names_step (steps self) n = false -> dict_get m n = None).
    { intros n Hn. apply name_map_none; [reflexivity|].
      now rewrite names_step_numbered. }
    exists p, rt', m. split; [assumption|]. split; [assumption|].
    intros i t Hi. do 2 eexists. split; [apply Hsteps; eassumption|].
    cbn [PipelineStep.name PipelineStep.dependencies].
    repeat split. symmetry. now apply resolve_filter.
Qed.

(** C9, as the code has it. A caller's dict that is not empty is
    updated in place: after the call it binds APP_ID and VERSION to the
    arguments and is otherwise as before.  A caller's dict that is empty
    is, like [None], replaced by a new dict, and no dict the caller
    holds is changed. *)
Theorem caller_dict_is_mutated_when_nonempty :
  forall (uuid4 : nat -> string) (self : t) (app_id version : string)
         (variables : option nat) (rt : Runtime)
         (pipeline : Pipeline.t) (rt' : Runtime),
    create_pipeline uuid4 self app_id version variables rt
    = Some (pipeline, rt') ->
    (forall r,
        variables = Some r ->
        deref rt r <> [] ->
        deref rt' r = effective app_id version (deref rt r)
        /\ dict_get (deref rt' r) "APP_ID" = Some app_id
        /\ dict_get (deref rt' r) "VERSION" = Some version
        /\ (forall k,
               k <> "APP_ID" -> k <> "VERSION" ->
               dict_get (deref rt' r) k = dict_get (deref rt r) k)
        /\ forall r', r' <> r -> deref rt' r' = deref rt r')
    /\ (caller_dict rt variables = [] ->
        forall r, r < List.length (heap rt) -> deref rt' r = deref rt r).
Proof.
  intros uuid4 self app_id version variables rt p rt' Hrun.
  destruct (create_pipeline_with_of _ _ _ _ _ _ _ _ Hrun) as (ref & Hwith).
  destruct (create_pipeline_with_heap uuid4 self app_id version variables
              rt p ref rt' Hwith) as [Href Hheap].
  destruct (bind_variables_spec app_id version variables rt)
    as (ref1 & rt1 & Hbind & Hderef & _ & _ & Hcases).
  rewrite Hbind in Href, Hheap. cbn [fst snd] in Href, Hheap. subst ref1.
  split.
  - intros r Hvar Hne.
    destruct Hcases as [(r0 & Hv0 & _ & Hr0 & Hh)|(Hempty & _)].
    + assert (r0 = r) by congruence. subst r0. subst ref.
      assert (Hvalid : r < List.length (heap rt))
        by now apply deref_nonempty_valid.
      assert (Hnew : deref rt' r = effective app_id version (deref rt r)).
      { unfold deref at 1. rewrite Hheap, Hh.
        now apply nth_list_set_same. }
      split; [assumption|]. rewrite Hnew.
      split; [apply effective_app_id|].
      split; [apply effective_version|].
      split; [intros; now apply effective_other|].
      intros r' Hr'. unfold deref. rewrite Hheap, Hh.
      apply nth_list_set_other. congruence.
    + rewrite Hvar in Hempty. simpl in Hempty. contradiction.
  - intros Hempty r Hr.
    destruct Hcases as [(r0 & Hv0 & Hne & _)|(_ & _ & Hh)].
    + rewrite Hv0 in Hempty. simpl in Hempty. contradiction.
    + unfold deref. rewrite Hheap, Hh. now apply app_nth1.
Qed.

(** C9, the statement without its restriction fails: a caller who
    passes an empty dict finds it empty after the call. *)
Lemma empty_caller_dict_is_not_mutated :
  exists pipeline rt',
    create_pipeline Sample.uuid (Sample.one_step "deploy ${APP_ID}")
      "app-1" "2.0" (Some 0) (Sample.runtime [])
    = Some (pipeline, rt')
    /\ deref (Sample.runtime []) 0 = []
    /\ deref rt' 0 = []
    /\ dict_get (deref rt' 0) "APP_ID" = None
    /\ dict_get (deref rt' 0) "VERSION" = None.
Proof.
  do 2 eexists. split; [vm_compute; reflexivity|].
  repeat split.
Qed.

End CreatePipelineClaims.

(** ** Instantiation: the statements at work on the samples *)

Section CreatePipelineSamples.

Import PipelineTemplate Binder Check.

Lemma substitution_of_placeholders_witness :
  NoDup (step_ids Sample.uuid 0 1)
  /\ bindings_ok [("ENV", "staging")]
  /\ plain "app-1"
  /\ plain "2.0"
  /\ exists pipeline rt' step_id step,
       create_pipeline Sample.uuid
         (Sample.one_step "deploy ${APP_ID} ${VERSION} ${ENV}")
         "app-1" "2.0" (Some 0) (Sample.runtime [("ENV", "staging")])
       = Some (pipeline, rt')
       /\ nth_error (Pipeline.steps pipeline) 0 = Some (step_id, step)
       /\ PipelineStep.command step = "deploy app-1 2.0 staging".
Proof.
  assert (Hnd : NoDup (step_ids Sample.uuid 0 1))
    by (apply distinctb_sound; reflexivity).
  assert (Hok : bindings_ok [("ENV", "staging")]).
  { intros k v [E|[]]. injection E as <- <-. repeat split. }
  split; [exact Hnd|]. split; [exact Hok|].
  split; [reflexivity|]. split; [reflexivity|].
  destruct (proj1 substitution_of_placeholders Sample.uuid
              (Sample.one_step "deploy ${APP_ID} ${VERSION} ${ENV}")
              "app-1" "2.0" (Some 0) (Sample.runtime [("ENV", "staging")])
              Hnd Hok eq_refl eq_refl)
    as (p & rt' & Hrun & Hsteps).
  destruct (Hsteps 0
              (mkStepTemplate "Deploy" DEPLOY
                 "deploy ${APP_ID} ${VERSION} ${ENV}" [])
              [Lit "deploy "; Hole "APP_ID"; Lit " "; Hole "VERSION";
               Lit " "; Hole "ENV"]
              eq_refl eq_refl)
    as (k & s & Hnth & Hcmd).
  { repeat constructor. }
  exists p, rt', k, s. repeat split; assumption.
Defined.

Lemma implicit_bindings_take_precedence_witness :
  NoDup (step_ids Sample.uuid 0 1)
  /\ dict_wf [("APP_ID", "other"); ("VERSION", "0.1")]
  /\ exists pipeline rt' step_id step,
       create_pipeline Sample.uuid
         (Sample.one_step "deploy ${APP_ID} ${VERSION}")
         "app-1" "2.0" (Some 0)
         (Sample.runtime [("APP_ID", "other"); ("VERSION", "0.1")])
       = Some (pipeline, rt')
       /\ nth_error (Pipeline.steps pipeline) 0 = Some (step_id, step)
       /\ PipelineStep.command step = "deploy app-1 2.0".
Proof.
  assert (Hnd : NoDup (step_ids Sample.uuid 0 1))
    by (apply distinctb_sound; reflexivity).
  assert (Hwf : dict_wf [("APP_ID", "other"); ("VERSION", "0.1")])
    by (apply distinctb_sound; reflexivity).
  split; [exact Hnd|]. split; [exact Hwf|].
  destruct (implicit_bindings_take_precedence Sample.uuid
              (Sample.one_step "deploy ${APP_ID} ${VERSION}")
              "app-1" "2.0" (Some 0)
              (Sample.runtime [("APP_ID", "other"); ("VERSION", "0.1")])
              Hnd Hwf)
    as (_ & _ & _ & _ & _ & p & rt' & Hrun & Hsteps).
  destruct (Hsteps 0
              (mkStepTemplate "Deploy" DEPLOY
                 "deploy ${APP_ID} ${VERSION}" [])
              eq_refl)
    as (k & s & Hnth & Hcmd).
  exists p, rt', k, s. repeat split; assumption.
Defined.

Lemma dependencies_stay_inside_witness :
  NoDup (step_ids Sample.uuid 0 3)
  /\ exists pipeline rt' step_id_map step_id step,
       create_pipeline Sample.uuid Sample.with_undeclared
         "app-1" "2.0" None (Sample.runtime [])
       = Some (pipeline, rt')
       /\ dict_get step_id_map "Y" = None
       /\ nth_error (Pipeline.steps pipeline) 2 = Some (step_id, step)
       /\ PipelineStep.name step = "X"
       /\ PipelineStep.dependencies step
          = resolve_dependencies step_id_map ["B"].
Proof.
  assert (Hnd : NoDup (step_ids Sample.uuid 0 3))
    by (apply distinctb_sound; reflexivity).
  split; [exact Hnd|].
  destruct (proj2 dependencies_stay_inside Sample.uuid
              Sample.with_undeclared "app-1" "2.0" None (Sample.runtime [])
              Hnd)
    as (p & rt' & m & Hrun & Hnone & Hsteps).
  destruct (Hsteps 2
              (mkStepTemplate "X" TEST "test ${APP_ID}:${VERSION}"
                 ["B"; "Y"])
              eq_refl)
    as (k & s & Hnth & Hname & _ & Hdeps).
  exists p, rt', m, k, s.
  split; [exact Hrun|]. split; [apply Hnone; reflexivity|].
  repeat split; assumption.
Defined.

Lemma caller_dict_is_mutated_when_nonempty_witness :
  exists pipeline rt',
    create_pipeline Sample.uuid (Sample.one_step "deploy ${ENV}")
      "app-1" "2.0" (Some 0) (Sample.runtime [("ENV", "staging")])
    = Some (pipeline, rt')
    /\ deref (Sample.runtime [("ENV", "staging")]) 0 <> []
    /\ deref rt' 0
       = [("ENV", "staging"); ("APP_ID", "app-1"); ("VERSION", "2.0")].
Proof.
  assert (Hrun : exists pipeline rt',
             create_pipeline Sample.uuid (Sample.one_step "deploy ${ENV}")
               "app-1" "2.0" (Some 0)
               (Sample.runtime [("ENV", "staging")])
             = Some (pipeline, rt')).
  { do 2 eexists. vm_compute. reflexivity. }
  destruct Hrun as (p & rt' & Hrun).
  assert (Hne : deref (Sample.runtime [("ENV", "staging")]) 0 <> [])
    by discriminate.
  exists p, rt'. split; [exact Hrun|]. split; [exact Hne|].
  destruct (caller_dict_is_mutated_when_nonempty Sample.uuid
              (Sample.one_step "deploy ${ENV}") "app-1" "2.0" (Some 0)
              (Sample.runtime [("ENV", "staging")]) p rt' Hrun)
    as [Hmut _].
  destruct (Hmut 0 eq_refl Hne) as (Hnew & _).
  exact Hnew.
Defined.

End CreatePipelineSamples.

(** * Further properties of the scheduler *)

(** ** Refusals of [execute_step] *)

Section Refusal.

Import PipelineExecutor Props Order.

Variable run_command : PipelineStep.t -> Outcome.

Lemma dependencies_succeeded_false steps deps :
  dependencies_succeeded steps deps = false <->
  exists dep_id,
    In dep_id deps
    /\ (dict_get steps dep_id = None
        \/ exists dep_step,
             dict_get steps dep_id = Some dep_step
             /\ PipelineStep.status dep_step <> succeeded).
Proof.
  induction deps as [|d deps IH]; simpl.
  - split; [discriminate | intros (x & [] & _)].
  - destruct (dict_get steps d) as [ds|] eqn:E.
    + destruct (PipelineStep.status ds) eqn:Es; simpl;
        try (split; [intros _; exists d; split; [now left|];
                     right; exists ds; split; [assumption | congruence]
                    | reflexivity]).
      rewrite IH. split.
      * intros (x & Hin & Hx). exists x. split; [now right | assumption].
      * intros (x & [<-|Hin] & Hx); [|now exists x].
        destruct Hx as [Hx|(ds' & Hx & Hne)]; congruence.
    + split; [|reflexivity].
      intros _. exists d. split; [now left | now left].
Qed.

Lemma cons_neq {A : Type} (x : A) (l : list A) : x :: l <> l.
Proof.
  intros H. apply (f_equal (@List.length A)) in H. simpl in H. lia.
Qed.

(** X1. [execute_step] leaves the state of the executor as it is exactly
    when it has a reason to refuse (unknown pipeline, unknown step, a
    dependency that is missing or not succeeded), and it then returns
    [False]; otherwise it records one more start. *)
Theorem execute_step_refuses_without_effect :
  forall (w : State) (pipeline_id step_id : string),
    (refused w pipeline_id step_id <->
     snd (execute_step run_command w pipeline_id step_id) = w)
    /\ (refused w pipeline_id step_id ->
        execute_step run_command w pipeline_id step_id = (false, w))
    /\ (~ refused w pipeline_id step_id ->
        exists event,
          ev_step event = step_id
          /\ started (snd (execute_step run_command w pipeline_id step_id))
             = event :: started w).
Proof.
  intros w pid sid.
  assert (Hrefused : refused w pid sid ->
                     execute_step run_command w pid sid = (false, w)).
  { unfold refused, registered, execute_step.
    intros [->|(p & -> & [->|(step & d & -> & Hin & Hbad)])]; auto.
    assert (E : dependencies_succeeded (Pipeline.steps p)
                  (PipelineStep.dependencies step) = false).
    { apply dependencies_succeeded_false. now exists d. }
    now rewrite E. }
  assert (Hruns : ~ refused w pid sid ->
                  exists event,
                    ev_step event = sid
                    /\ started (snd (execute_step run_command w pid sid))
                       = event :: started w).
  { intros Hnot.
    destruct (execute_step_inv run_command pid w sid)
      as [E|(p & step & Hp & Hs & Hd & E)].
    - exfalso. apply Hnot. unfold refused, registered.
      unfold execute_step in E.
      destruct (dict_get (current_executions w) pid) as [p|]; [|now left].
      right. exists p. split; [reflexivity|].
      destruct (dict_get (Pipeline.steps p) sid) as [step|]; [|now left].
      right.
      destruct (dependencies_succeeded _ _) eqn:Ed.
      + destruct (run_step _ _ _ _ _) as [[r p'] t']. exfalso.
        injection E as _ E. apply (f_equal started) in E. simpl in E.
        exact (cons_neq _ _ E).
      + apply dependencies_succeeded_false in Ed.
        destruct Ed as (d & Hin & Hbad). now exists step, d.
    - rewrite E. simpl. eexists. split; [|reflexivity]. reflexivity. }
  split; [|split; assumption].
  split.
  - intros H. now rewrite (Hrefused H).
  - intros Hsame.
    destruct (execute_step_inv run_command pid w sid)
      as [E|(p & step & Hp & Hs & Hd & E)].
    + unfold refused, registered. unfold execute_step in E.
      destruct (dict_get (current_executions w) pid) as [p|]; [|now left].
      right. exists p. split; [reflexivity|].
      destruct (dict_get (Pipeline.steps p) sid) as [step|]; [|now left].
      right.
      destruct (dependencies_succeeded _ _) eqn:Ed.
      * destruct (run_step _ _ _ _ _) as [[r p'] t']. exfalso.
        injection E as _ E. apply (f_equal started) in E. simpl in E.
        exact (cons_neq _ _ E).
      * apply dependencies_succeeded_false in Ed.
        destruct Ed as (d & Hin & Hbad). now exists step, d.
    + rewrite E in Hsame. simpl in Hsame.
      apply (f_equal started) in Hsame. simpl in Hsame.
      exfalso. exact (cons_neq _ _ Hsame).
Qed.

End Refusal.

(** ** What execution never touches *)

Section Frame.

Import PipelineExecutor Props Order.

Variable run_command : PipelineStep.t -> Outcome.

Lemma same_step_refl s : same_step s s.
Proof. repeat split. Qed.

Lemma same_step_finished step t0 :
  same_step step (finished run_command step t0).
Proof. unfold finished, same_step. now destruct (run_command _). Qed.

Lemma same_pipeline_refl p : same_pipeline p p.
Proof.
  repeat split. intros k s' H. exists s'. split; [assumption|].
  apply same_step_refl.
Qed.

Lemma same_pipeline_trans p1 p2 p3 :
  same_pipeline p1 p2 -> same_pipeline p2 p3 -> same_pipeline p1 p3.
Proof.
  intros (Hi & Hn & Ha & Hv & Hc & Hk & Hs) (Hi' & Hn' & Ha' & Hv' & Hc' & Hk' & Hs').
  repeat split; try congruence.
  intros k s3 H3. destruct (Hs' k s3 H3) as (s2 & H2 & E23).
  destruct (Hs k s2 H2) as (s1 & H1 & E12).
  exists s1. split; [assumption|].
  destruct E12 as (?&?&?&?&?), E23 as (?&?&?&?&?).
  repeat split; congruence.
Qed.

Lemma run_step_same p step_id step t0 :
  dict_get (Pipeline.steps p) step_id = Some step ->
  same_pipeline p (snd (fst (run_step run_command p step_id step t0))).
Proof.
  intros Hget.
  pose proof (run_step_steps run_command p step_id step t0) as Hsteps.
  assert (Hfields :
            let p' := snd (fst (run_step run_command p step_id step t0)) in
            Pipeline.id p' = Pipeline.id p
            /\ Pipeline.name p' = Pipeline.name p
            /\ Pipeline.app_id p' = Pipeline.app_id p
            /\ Pipeline.version p' = Pipeline.version p
            /\ Pipeline.created_at p' = Pipeline.created_at p).
  { unfold run_step. destruct (run_command _); cbv zeta;
      [destruct (all_complete _)|]; repeat split. }
  cbv zeta in Hfields.
  destruct Hfields as (Hi & Hn & Ha & Hv & Hc).
  repeat split; try assumption.
  - rewrite Hsteps. eapply dict_keys_set_present; eauto.
  - intros k s'. rewrite Hsteps, dict_get_set.
    destruct (String.eqb_spec k step_id) as [->|Hne].
    + intros [= <-]. exists step. split; [assumption|].
      apply same_step_finished.
    + intros H. exists s'. split; [assumption | apply same_step_refl].
Qed.

Variable pipeline_id : string.
Variable w0 : State.
Variable p0 : Pipeline.t.

Lemma execute_step_framed w step_id :
  framed pipeline_id w0 p0 w ->
  framed pipeline_id w0 p0
    (snd (execute_step run_command w pipeline_id step_id)).
Proof.
  intros Hw.
  destruct (execute_step_inv run_command pipeline_id w step_id)
    as [E|(p & step & Hp & Hs & Hd & E)]; rewrite E; simpl; [assumption|].
  destruct Hw as (Hother & p1 & Hp1 & Hsame).
  unfold registered in *. assert (p1 = p) by congruence. subst p1.
  split.
  - intros other Hne. simpl. rewrite dict_get_set_other by congruence.
    now apply Hother.
  - exists (snd (fst (run_step run_command p step_id step (clock w)))).
    split; [simpl; apply dict_get_set_same|].
    eapply same_pipeline_trans; [exact Hsame|].
    now apply run_step_same.
Qed.

Lemma execute_step_success_earned w step_id :
  success_is_earned pipeline_id w ->
  success_is_earned pipeline_id
    (snd (execute_step run_command w pipeline_id step_id)).
Proof.
  intros Hw.
  destruct (execute_step_inv run_command pipeline_id w step_id)
    as [E|(p & step & Hp & Hs & Hd & E)]; rewrite E; simpl; [assumption|].
  clear E.
  pose proof (run_step_steps run_command p step_id step (clock w)) as Hsteps.
  pose proof (run_step_status run_command p step_id step (clock w)) as Hst.
  pose proof (finished_status run_command step (clock w)) as Hfin.
  cbv zeta in Hst.
  destruct (run_step run_command p step_id step (clock w)) as [[r p'] t'].
  simpl in *.
  intros p1 Hp1 Hsucc. unfold registered in Hp1. simpl in Hp1.
  rewrite dict_get_set_same in Hp1. injection Hp1 as <-.
  assert (Hnonempty : Pipeline.steps p' <> []).
  { rewrite Hsteps. intros Hnil.
    pose proof (dict_get_set_same (Pipeline.steps p) step_id
                  (finished run_command step (clock w))) as Hget.
    rewrite Hnil in Hget. discriminate. }
  destruct (run_command (PipelineStep.start step (clock w))).
  - destruct (all_complete (Pipeline.steps p')) eqn:Eall.
    + destruct Hst as (Hv & Hc & _). rewrite Hv in Hsucc.
      unfold verdict in Hsucc.
      destruct (any_failed (Pipeline.steps p')) eqn:Efail; [discriminate|].
      split; [assumption|]. split; [|rewrite Hc; discriminate].
      intros s Hin. apply all_complete_iff in Eall.
      destruct (Eall s Hin) as [Hs'|Hf]; [assumption|].
      assert (any_failed (Pipeline.steps p') = true); [|congruence].
      apply any_failed_iff. now exists s.
    + destruct Hst as (Hsame & Hc & _). rewrite Hsame in Hsucc.
      destruct (Hw p Hp Hsucc) as (_ & Hall & Hcomp).
      split; [assumption|]. split; [|now rewrite Hc].
      intros s Hin. rewrite Hsteps in Hin.
      destruct (dict_values_set_In _ _ _ _ Hin) as [->|Hold]; auto.
  - destruct Hst as (Hf & _). congruence.
Qed.

End Frame.

Section FrameTheorems.

Import PipelineExecutor Props Order.

Variable run_command : PipelineStep.t -> Outcome.

Lemma entered_framed w p : framed (Pipeline.id p) w p (entered w p).
Proof.
  split.
  - intros other Hne. unfold entered. simpl.
    now rewrite dict_get_set_other by congruence.
  - exists (Pipeline.start p (clock w)).
    split; [apply registered_entered|].
    repeat split. intros k s' H. exists s'. split; [exact H|].
    apply same_step_refl.
Qed.

(** X2. Whatever happens during [execute_pipeline], and for as long as
    it runs: every other pipeline the executor holds stays as it was, and
    the pipeline executed keeps its id, name, app id, version and creation
    time, its step ids in their order, and for every step the id, name,
    stage, command and dependencies.  Only statuses, logs and timestamps
    are written. *)
Theorem execution_writes_only_progress :
  forall (fuel : nat) (w : State) (pipeline : Pipeline.t),
    framed (Pipeline.id pipeline) w pipeline
      (final_state (execute_pipeline run_command fuel w pipeline)).
Proof.
  intros fuel w p. rewrite final_state_execute_pipeline.
  apply (while_loop_keeps run_command (Pipeline.id p) _
           (execute_step_framed run_command (Pipeline.id p) w p)).
  apply (roots_keep run_command (Pipeline.id p) _
           (execute_step_framed run_command (Pipeline.id p) w p)).
  apply entered_framed.
Qed.

Lemma execute_pipeline_success_earned fuel w p :
  success_is_earned (Pipeline.id p)
    (final_state (execute_pipeline run_command fuel w p)).
Proof.
  rewrite final_state_execute_pipeline.
  apply (while_loop_keeps run_command (Pipeline.id p) _
           (execute_step_success_earned run_command (Pipeline.id p))).
  apply (roots_keep run_command (Pipeline.id p) _
           (execute_step_success_earned run_command (Pipeline.id p))).
  intros p1 Hp1 Hs. pose proof (registered_entered w p) as Hreg.
  unfold registered in *. rewrite Hreg in Hp1. injection Hp1 as <-.
  discriminate.
Qed.

(** X3. [execute_pipeline] returns [True] only when the pipeline has
    steps, every one of them is succeeded, the pipeline's status is
    SUCCEEDED and its [completed_at] is set; this holds for every
    pipeline and every outcome of the step commands. *)
Theorem true_means_all_steps_succeeded :
  forall (fuel : nat) (w : State) (pipeline : Pipeline.t) (w' : State),
    execute_pipeline run_command fuel w pipeline = Returned true w' ->
    exists p',
      registered w' (Pipeline.id pipeline) p'
      /\ Pipeline.status p' = SUCCEEDED
      /\ Pipeline.steps p' <> []
      /\ all_succeeded (Pipeline.steps p')
      /\ exists t, Pipeline.completed_at p' = Some t.
Proof.
  intros fuel w p w' Hrun.
  destruct (execute_pipeline_returned run_command _ _ _ _ _ Hrun)
    as [Hw' Hr].
  assert (Hearned : success_is_earned (Pipeline.id p) w')
    by (rewrite Hw'; apply execute_pipeline_success_earned).
  unfold live_status in Hr.
  destruct (dict_get (current_executions w') (Pipeline.id p)) as [p'|] eqn:E;
    [|discriminate].
  simpl in Hr. destruct (Pipeline.status p') eqn:Es; try discriminate.
  exists p'. split; [exact E|]. split; [exact Es|].
  destruct (Hearned p' E Es) as (Hne & Hall & Hc).
  repeat split; auto.
  destruct (Pipeline.completed_at p') as [t|]; [now exists t | congruence].
Qed.

End FrameTheorems.

(** ** Runs on a pipeline entered with all steps pending *)

Section Orderly.

Import PipelineExecutor Props Order.

Variable run_command : PipelineStep.t -> Outcome.
Variable pipeline_id : string.
Variable h0 : list StartEvent.

Lemma finished_started_at step t0 :
  PipelineStep.started_at (finished run_command step t0) = Some t0.
Proof. unfold finished. now destruct (run_command _). Qed.

Lemma finished_is_terminal step t0 :
  PipelineStep.status (finished run_command step t0) = succeeded
  \/ PipelineStep.status (finished run_command step t0) = failed.
Proof. unfold finished. destruct (run_command _); simpl; auto. Qed.

Lemma run_step_clock p step_id step t0 :
  S (S t0) <= snd (run_step run_command p step_id step t0).
Proof.
  unfold run_step. destruct (run_command _); cbv zeta;
    [destruct (all_complete _)|]; simpl; lia.
Qed.

(** The steps other than the one executed stay as they are. *)
Lemma execute_step_other w step_id p p' k :
  registered w pipeline_id p ->
  registered (snd (execute_step run_command w pipeline_id step_id))
    pipeline_id p' ->
  k <> step_id ->
  dict_get (Pipeline.steps p') k = dict_get (Pipeline.steps p) k.
Proof.
  intros Hp Hp' Hne.
  destruct (execute_step_inv run_command pipeline_id w step_id)
    as [E|(p1 & step & Hp1 & Hs & Hd & E)]; rewrite E in Hp'; simpl in Hp'.
  - unfold registered in *. congruence.
  - unfold registered in *. simpl in Hp'.
    rewrite dict_get_set_same in Hp'. injection Hp' as <-.
    assert (p1 = p) by congruence. subst p1.
    rewrite run_step_steps. apply dict_get_set_other. congruence.
Qed.

(** Executing a pending step keeps the run orderly. *)
Lemma execute_step_orderly w step_id p step :
  orderly pipeline_id h0 w ->
  registered w pipeline_id p ->
  dict_get (Pipeline.steps p) step_id = Some step ->
  PipelineStep.status step = pending ->
  orderly pipeline_id h0 (snd (execute_step run_command w pipeline_id step_id)).
Proof.
  intros Hw Hp Hget Hpend.
  destruct (execute_step_inv run_command pipeline_id w step_id)
    as [E|(p1 & step1 & Hp1 & Hs1 & Hd & E)]; rewrite E; simpl; [assumption|].
  clear E. unfold registered in Hp, Hp1.
  assert (p1 = p) by congruence. subst p1.
  assert (step1 = step) by congruence. subst step1.
  destruct Hw as (p2 & new & Hp2 & Hwf & Hstarted & Hnd & Hall).
  unfold registered in Hp2. assert (p2 = p) by congruence. subst p2.
  pose proof (run_step_steps run_command p step_id step (clock w)) as Hsteps.
  pose proof (run_step_clock p step_id step (clock w)) as Hclock.
  set (fin := finished run_command step (clock w)) in *.
  assert (Hnew : ~ In step_id (started_ids new)).
  { destruct (Hall step_id step Hget) as [[_ H]|[_ (ts & (_ & _ & Hst & _) & _)]];
      [assumption|]. destruct Hst; congruence. }
  assert (Hdep : forall d ds,
             dict_get (Pipeline.steps p) d = Some ds ->
             PipelineStep.status ds = succeeded ->
             d <> step_id
             /\ exists td,
                  PipelineStep.completed_at ds = Some td /\ td < clock w).
  { intros d ds Hd1 Hd2. split; [intros ->; congruence|].
    destruct (Hall d ds Hd1) as [[H _]|[_ (ts & (_ & Hc & _) & Hlt)]];
      [congruence|].
    exists (S ts). split; [assumption | lia]. }
  exists (snd (fst (run_step run_command p step_id step (clock w)))),
         (mkStartEvent pipeline_id step_id (Pipeline.steps p) :: new).
  split; [unfold registered; simpl; apply dict_get_set_same|].
  split; [rewrite Hsteps; now apply dict_wf_set|].
  split; [simpl; now rewrite Hstarted|].
  split; [simpl; constructor; assumption|].
  intros k s. rewrite Hsteps, dict_get_set. simpl.
  destruct (String.eqb_spec k step_id) as [->|Hne].
  - intros [= <-]. right. split; [now left|].
    exists (clock w). split; [|lia].
    split; [apply finished_started_at|].
    split; [apply finished_completed_at|].
    split; [apply finished_is_terminal|].
    intros d Hin. unfold fin in Hin. rewrite finished_dependencies in Hin.
    destruct (dependencies_succeeded_sound _ _ Hd d Hin) as (ds & Hds & Hsucc).
    destruct (Hdep d ds Hds Hsucc) as (Hd_ne & td & Htd & Hlt).
    exists ds, td. rewrite dict_get_set_other by congruence. auto.
  - intros Hk.
    destruct (Hall k s Hk) as [[Hs Hnot]|[Hin (ts & Hran & Hlt)]].
    + left. split; [assumption|]. intros [E|Hin]; [congruence | contradiction].
    + right. split; [now right|].
      exists ts. split; [|lia].
      destruct Hran as (Hsa & Hca & Hst & Hdeps).
      repeat split; auto.
      intros d Hd_in. destruct (Hdeps d Hd_in) as (ds & td & Hds & Hsucc & Htd & Hlt').
      destruct (Hdep d ds Hds Hsucc) as (Hd_ne & _).
      exists ds, td. rewrite dict_get_set_other by congruence. auto.
Qed.

End Orderly.

(** *** Invariants of a run that executes pending steps only *)

Section PendingOnly.

Import PipelineExecutor Props Order.

Variable run_command : PipelineStep.t -> Outcome.
Variable pipeline_id : string.
Variable I : State -> Prop.

Hypothesis I_registered :
  forall w, I w -> exists p, registered w pipeline_id p.
Hypothesis pending_step_keeps :
  forall w step_id p step,
    I w ->
    registered w pipeline_id p ->
    dict_get (Pipeline.steps p) step_id = Some step ->
    PipelineStep.status step = pending ->
    I (snd (execute_step run_command w pipeline_id step_id)).

Lemma visit_pending_keeps acc step_id :
  I (snd acc) -> I (snd (visit run_command pipeline_id acc step_id)).
Proof.
  destruct acc as [pm w]. simpl. intros Hw.
  destruct (I_registered w Hw) as (p & Hp).
  rewrite (live_steps_registered _ _ _ Hp).
  destruct (dict_get (Pipeline.steps p) step_id) as [step|] eqn:Es;
    [|assumption].
  destruct (PipelineStep.status step) eqn:Est; try assumption.
  destruct (deps_complete _ _); [|assumption].
  simpl. now apply pending_step_keeps with p step.
Qed.

Lemma visits_pending_keep keys acc :
  I (snd acc) ->
  I (snd (fold_left (visit run_command pipeline_id) keys acc)).
Proof.
  revert acc. induction keys as [|k keys IH]; intros acc H; simpl; auto.
  apply IH. now apply visit_pending_keeps.
Qed.

Lemma while_loop_pending_keeps fuel progress_made w :
  I w ->
  I (final_state (while_loop run_command fuel pipeline_id progress_made w)).
Proof.
  revert progress_made w.
  induction fuel as [|fuel IH]; intros pm w H; simpl.
  - now destruct (pm && _).
  - destruct (pm && _); [|assumption].
    pose proof (visits_pending_keep (dict_keys (live_steps w pipeline_id))
                  (false, w) H) as Hs.
    fold (scan run_command pipeline_id w) in Hs.
    destruct (scan run_command pipeline_id w) as [pm' w']. now apply IH.
Qed.

(** The first loop: the keys not yet visited are still pending. *)
Lemma roots_pending_keep : forall keys w,
  NoDup keys ->
  I w ->
  (forall k p step,
      In k keys -> registered w pipeline_id p ->
      dict_get (Pipeline.steps p) k = Some step ->
      PipelineStep.status step = pending) ->
  I (fold_left (visit_root run_command pipeline_id) keys w).
Proof.
  induction keys as [|k keys IH]; intros w Hnd Hw Hpend; simpl; auto.
  inversion Hnd as [|? ? Hnotin Hnd']; subst.
  destruct (I_registered w Hw) as (p & Hp).
  unfold visit_root at 2. rewrite (live_steps_registered _ _ _ Hp).
  destruct (dict_get (Pipeline.steps p) k) as [step|] eqn:Es.
  - destruct (PipelineStep.dependencies step) eqn:Ed.
    + apply IH; [assumption | |].
      * apply pending_step_keeps with p step; auto.
        apply (Hpend k p step); auto. now left.
      * intros k' p' step' Hin Hp' Hget'.
        rewrite (execute_step_other run_command pipeline_id w k p p' k' Hp Hp')
          in Hget' by (intros ->; contradiction).
        apply (Hpend k' p step'); auto. now right.
    + apply IH; auto. intros k' p' step' Hin. apply Hpend. now right.
  - apply IH; auto. intros k' p' step' Hin. apply Hpend. now right.
Qed.

Lemma all_pending_get steps k step :
  all_pending steps -> dict_get steps k = Some step ->
  PipelineStep.status step = pending.
Proof. intros H Hget. apply H. eapply dict_get_In_values; eauto. Qed.

(** What holds when the pipeline is entered and is kept by the
    execution of a pending step holds for the whole run. *)
Lemma execute_pipeline_pending_keeps fuel w p :
  pipeline_id = Pipeline.id p ->
  dict_wf (Pipeline.steps p) ->
  all_pending (Pipeline.steps p) ->
  I (entered w p) ->
  I (final_state (execute_pipeline run_command fuel w p)).
Proof.
  intros E Hwf Hpend Hentered. rewrite final_state_execute_pipeline.
  pose proof (registered_entered w p) as Hreg.
  rewrite <- E in *.
  apply while_loop_pending_keeps. apply roots_pending_keep.
  - rewrite (live_steps_registered _ _ _ Hreg). exact Hwf.
  - exact Hentered.
  - intros k p' step _ Hp' Hget.
    unfold registered in Hreg, Hp'. rewrite Hreg in Hp'. injection Hp' as <-.
    eapply all_pending_get; eauto.
Qed.

End PendingOnly.


Section OrderlyRun.

Import PipelineExecutor Props Order.

Variable run_command : PipelineStep.t -> Outcome.

(** A run on a pipeline with distinct step ids, entered with all steps
    pending, is orderly for as long as it goes on. *)
Lemma execute_pipeline_orderly fuel w p :
  dict_wf (Pipeline.steps p) ->
  all_pending (Pipeline.steps p) ->
  orderly (Pipeline.id p) (started w)
    (final_state (execute_pipeline run_command fuel w p)).
Proof.
  intros Hwf Hpend.
  apply (execute_pipeline_pending_keeps run_command (Pipeline.id p)
           (orderly (Pipeline.id p) (started w))); auto.
  - intros w0 (p0 & new & Hp0 & _). now exists p0.
  - intros w0 step_id p0 step. apply execute_step_orderly.
  - exists (Pipeline.start p (clock w)), [].
    split; [apply registered_entered|]. split; [assumption|].
    split; [reflexivity|]. split; [constructor|].
    intros k step Hget. left. split; [|intros []].
    eapply all_pending_get; eauto.
Qed.

Lemma execute_pipeline_tracked fuel w p :
  tracked (Pipeline.id p) (graph (Pipeline.steps p))
    (final_state (execute_pipeline run_command fuel w p)).
Proof.
  rewrite final_state_execute_pipeline.
  apply (while_loop_keeps run_command (Pipeline.id p) _
           (execute_step_tracked run_command (Pipeline.id p)
              (graph (Pipeline.steps p)))).
  apply (roots_keep run_command (Pipeline.id p) _
           (execute_step_tracked run_command (Pipeline.id p)
              (graph (Pipeline.steps p)))).
  exists (Pipeline.start p (clock w)). split; [apply registered_entered|].
  reflexivity.
Qed.

(** X4. On a pipeline with distinct step ids whose steps are all
    pending, [execute_pipeline] starts no step twice, and at every moment
    of the run a step is pending exactly when it has not been started. *)
Theorem no_step_is_started_twice :
  forall (fuel : nat) (w : State) (pipeline : Pipeline.t),
    dict_wf (Pipeline.steps pipeline) ->
    all_pending (Pipeline.steps pipeline) ->
    exists p' new,
      registered (final_state (execute_pipeline run_command fuel w pipeline))
        (Pipeline.id pipeline) p'
      /\ started (final_state (execute_pipeline run_command fuel w pipeline))
         = new ++ started w
      /\ NoDup (started_ids new)
      /\ forall k step,
           dict_get (Pipeline.steps p') k = Some step ->
           (PipelineStep.status step = pending <-> ~ In k (started_ids new)).
Proof.
  intros fuel w p Hwf Hpend.
  destruct (execute_pipeline_orderly fuel w p Hwf Hpend)
    as (p' & new & Hp' & _ & Hstarted & Hnd & Hall).
  exists p', new. repeat split; auto.
  - intros Hs. destruct (Hall k step H) as [[_ Hnot]|[_ (ts & Hran & _)]];
      [assumption|].
    destruct Hran as (_ & _ & [Hst|Hst] & _); congruence.
  - intros Hnot. destruct (Hall k step H) as [[Hs _]|[Hin _]];
      [assumption | contradiction].
Qed.

(** X5. On such a pipeline every step that is not pending has run in
    order: it is succeeded or failed (never left in progress), it was
    completed at the reading of the clock after the one it was started
    at, and each of its dependencies is a succeeded step that was
    completed before it was started.  So a step with a dependency that is
    failed, pending or missing is still pending. *)
Theorem steps_run_after_their_dependencies :
  forall (fuel : nat) (w : State) (pipeline : Pipeline.t),
    dict_wf (Pipeline.steps pipeline) ->
    all_pending (Pipeline.steps pipeline) ->
    exists p',
      registered (final_state (execute_pipeline run_command fuel w pipeline))
        (Pipeline.id pipeline) p'
      /\ forall k step,
           dict_get (Pipeline.steps p') k = Some step ->
           PipelineStep.status step <> pending ->
           exists ts, ran_in_order (Pipeline.steps p') step ts.
Proof.
  intros fuel w p Hwf Hpend.
  destruct (execute_pipeline_orderly fuel w p Hwf Hpend)
    as (p' & new & Hp' & _ & _ & _ & Hall).
  exists p'. split; [assumption|].
  intros k step Hget Hne.
  destruct (Hall k step Hget) as [[Hs _]|[_ (ts & Hran & _)]];
    [contradiction | now exists ts].
Qed.

(** X6. On such a pipeline a step that lies on a dependency cycle (a
    step that depends on itself, for one) is never started: it is
    pending for the whole run. *)
Theorem steps_on_a_cycle_never_start :
  forall (fuel : nat) (w : State) (pipeline : Pipeline.t) (k : string),
    dict_wf (Pipeline.steps pipeline) ->
    all_pending (Pipeline.steps pipeline) ->
    clos_trans string (depends_on (Pipeline.steps pipeline)) k k ->
    exists p' step,
      registered (final_state (execute_pipeline run_command fuel w pipeline))
        (Pipeline.id pipeline) p'
      /\ dict_get (Pipeline.steps p') k = Some step
      /\ PipelineStep.status step = pending
      /\ forall new,
           started (final_state (execute_pipeline run_command fuel w pipeline))
           = new ++ started w ->
           ~ In k (started_ids new).
Proof.
  intros fuel w p k Hwf Hpend Hcycle.
  destruct (execute_pipeline_orderly fuel w p Hwf Hpend)
    as (p' & new & Hp' & _ & Hstarted & _ & Hall).
  destruct (execute_pipeline_tracked fuel w p) as (p1 & Hp1 & Hgraph).
  unfold registered in Hp', Hp1. assert (p1 = p') by congruence. subst p1.
  assert (Hcycle' : clos_trans string (depends_on (Pipeline.steps p')) k k).
  { clear -Hcycle Hgraph.
    assert (Hmono : forall x y,
               clos_trans string (depends_on (Pipeline.steps p)) x y ->
               clos_trans string (depends_on (Pipeline.steps p')) x y).
    { intros x y Hxy. induction Hxy as [x y Hxy | x y z _ IH1 _ IH2].
      - apply t_step.
        apply (depends_on_graph (Pipeline.steps p) (Pipeline.steps p'));
          [now symmetry | assumption].
      - now apply t_trans with y. }
    now apply Hmono. }
  (* along dependencies of a step that has run the start times decrease *)
  assert (Hdown : forall x y,
             clos_trans string (depends_on (Pipeline.steps p')) x y ->
             forall sx tx,
               dict_get (Pipeline.steps p') x = Some sx ->
               ran_in_order (Pipeline.steps p') sx tx ->
               exists sy ty,
                 dict_get (Pipeline.steps p') y = Some sy
                 /\ ran_in_order (Pipeline.steps p') sy ty
                 /\ ty < tx).
  { intros x y Hxy.
    induction Hxy as [x y (sx0 & Hx0 & Hin) | x y z _ IH1 _ IH2];
      intros sx tx Hx Hran.
    - assert (sx0 = sx) by congruence. subst sx0.
      destruct Hran as (_ & _ & _ & Hdeps).
      destruct (Hdeps y Hin) as (sy & td & Hy & Hsucc & Hc & Hlt).
      destruct (Hall y sy Hy) as [[Hs _]|[_ (ty & Hrany & _)]]; [congruence|].
      exists sy, ty. split; [assumption|]. split; [assumption|].
      destruct Hrany as (_ & Hcy & _). rewrite Hcy in Hc.
      injection Hc as <-. lia.
    - destruct (IH1 sx tx Hx Hran) as (sy & ty & Hy & Hrany & Hlt).
      destruct (IH2 sy ty Hy Hrany) as (sz & tz & Hz & Hranz & Hlt').
      exists sz, tz. split; [assumption|]. split; [assumption | lia]. }
  assert (Hkey : exists step, dict_get (Pipeline.steps p') k = Some step).
  { clear -Hcycle'.
    assert (H : forall x y,
               clos_trans string (depends_on (Pipeline.steps p')) x y ->
               exists step, dict_get (Pipeline.steps p') x = Some step).
    { intros x y Hxy. induction Hxy as [x y (sx & Hx & _) | x y z _ IH1 _ _];
        [now exists sx | assumption]. }
    exact (H k k Hcycle'). }
  destruct Hkey as (step & Hget).
  assert (Hstatus : PipelineStep.status step = pending /\ ~ In k (started_ids new)).
  { destruct (Hall k step Hget) as [H|[_ (ts & Hran & _)]]; [assumption|].
    exfalso.
    destruct (Hdown k k Hcycle' step ts Hget Hran) as (s2 & t2 & Hget2 & Hran2 & Hlt).
    assert (s2 = step) by congruence. subst s2.
    destruct Hran as (Hsa & _), Hran2 as (Hsa2 & _).
    rewrite Hsa in Hsa2. injection Hsa2 as <-. lia. }
  exists p', step. split; [exact Hp'|]. split; [exact Hget|].
  split; [apply Hstatus|].
  intros new' Hnew'. rewrite Hstarted in Hnew'.
  apply app_inv_tail in Hnew'. subst new'. apply Hstatus.
Qed.

End OrderlyRun.

(** ** The outcome of a run *)

Section Judged.

Import PipelineExecutor Props Order.

Variable run_command : PipelineStep.t -> Outcome.
Variable pipeline_id : string.

Lemma dict_values_set_keep (d : Dict PipelineStep.t) k old new v :
  dict_wf d ->
  dict_get d k = Some old ->
  In v (dict_values d) ->
  v = old \/ In v (dict_values (dict_set d k new)).
Proof.
  intros Hwf Hget Hin.
  destruct (In_values_dict_get _ _ Hwf Hin) as (k' & Hk').
  destruct (String.eqb_spec k' k) as [->|Hne].
  - left. congruence.
  - right. apply dict_get_In_values with k'.
    now rewrite dict_get_set_other by congruence.
Qed.

Lemma any_failed_set steps k step new :
  dict_wf steps ->
  dict_get steps k = Some step ->
  PipelineStep.status step = pending ->
  any_failed steps = true ->
  any_failed (dict_set steps k new) = true.
Proof.
  intros Hwf Hget Hpend H. apply any_failed_iff in H. apply any_failed_iff.
  destruct H as (v & Hin & Hf). exists v. split; [|assumption].
  destruct (dict_values_set_keep steps k step new v Hwf Hget Hin) as [->|H];
    [congruence | assumption].
Qed.

(** Executing a pending step keeps the pipeline's status in line with
    its steps. *)
Lemma execute_step_judged w step_id p step :
  judged pipeline_id w ->
  registered w pipeline_id p ->
  dict_get (Pipeline.steps p) step_id = Some step ->
  PipelineStep.status step = pending ->
  judged pipeline_id (snd (execute_step run_command w pipeline_id step_id)).
Proof.
  intros Hw Hp Hget Hpend.
  destruct (execute_step_inv run_command pipeline_id w step_id)
    as [E|(p1 & step1 & Hp1 & Hs1 & Hd & E)]; rewrite E; simpl; [assumption|].
  clear E. unfold registered in Hp, Hp1.
  assert (p1 = p) by congruence. subst p1.
  assert (step1 = step) by congruence. subst step1.
  destruct Hw as (p2 & Hp2 & Hwf & Hfail & Hnofail).
  unfold registered in Hp2. assert (p2 = p) by congruence. subst p2.
  pose proof (run_step_steps run_command p step_id step (clock w)) as Hsteps.
  pose proof (run_step_status run_command p step_id step (clock w)) as Hstatus.
  pose proof (finished_status run_command step (clock w)) as Hfin.
  cbv zeta in Hstatus.
  set (p' := snd (fst (run_step run_command p step_id step (clock w)))) in *.
  set (fin := finished run_command step (clock w)) in *.
  assert (Hfin_in : In fin (dict_values (Pipeline.steps p'))).
  { rewrite Hsteps. apply dict_get_In_values with step_id.
    apply dict_get_set_same. }
  assert (Hstep_in : In step (dict_values (Pipeline.steps p)))
    by (eapply dict_get_In_values; eauto).
  exists p'. split; [unfold registered; simpl; apply dict_get_set_same|].
  split; [rewrite Hsteps; now apply dict_wf_set|].
  destruct (run_command (PipelineStep.start step (clock w))) as [|message].
  - (* the command went through *)
    destruct (all_complete (Pipeline.steps p')) eqn:Eall.
    + destruct Hstatus as (Hst & _). rewrite Hst. unfold verdict. split.
      * now intros ->.
      * intros Hno. rewrite Hno. right. split; [reflexivity|].
        intros v Hv. apply all_complete_iff in Eall.
        destruct (Eall v Hv) as [Hs|Hs]; [assumption|].
        exfalso. assert (any_failed (Pipeline.steps p') = true)
          by (apply any_failed_iff; now exists v).
        congruence.
    + destruct Hstatus as (Hst & _). rewrite Hst.
      assert (Hback : any_failed (Pipeline.steps p') = true ->
                      any_failed (Pipeline.steps p) = true).
      { intros H. apply any_failed_iff in H. apply any_failed_iff.
        destruct H as (v & Hv & Hf). exists v. split; [|assumption].
        rewrite Hsteps in Hv.
        destruct (dict_values_set_In _ _ _ _ Hv) as [->|Hin];
          [congruence | assumption]. }
      split; [auto|].
      intros Hno.
      assert (Hno0 : any_failed (Pipeline.steps p) = false).
      { destruct (any_failed (Pipeline.steps p)) eqn:E0; [|reflexivity].
        rewrite Hsteps in Hno.
        now rewrite (any_failed_set _ _ step fin Hwf Hget Hpend E0) in Hno. }
      destruct (Hnofail Hno0) as [(Hin & _)|(_ & Hall)].
      * left. split; [assumption | now right].
      * specialize (Hall step Hstep_in). congruence.
  - (* the command raised *)
    destruct Hstatus as (Hst & _). split; [now intros _|].
    intros Hno. exfalso.
    assert (any_failed (Pipeline.steps p') = true)
      by (apply any_failed_iff; now exists fin).
    congruence.
Qed.

End Judged.

Section Outcome.

Import PipelineExecutor Props Order.

Variable run_command : PipelineStep.t -> Outcome.

Lemma execute_pipeline_judged fuel w p :
  dict_wf (Pipeline.steps p) ->
  all_pending (Pipeline.steps p) ->
  judged (Pipeline.id p) (final_state (execute_pipeline run_command fuel w p)).
Proof.
  intros Hwf Hpend.
  apply (execute_pipeline_pending_keeps run_command (Pipeline.id p)
           (judged (Pipeline.id p))); auto.
  - intros w0 (p0 & Hp0 & _). now exists p0.
  - intros w0 step_id p0 step. apply execute_step_judged.
  - exists (Pipeline.start p (clock w)).
    split; [apply registered_entered|]. split; [assumption|].
    assert (Hno : any_failed (Pipeline.steps p) = false).
    { destruct (any_failed (Pipeline.steps p)) eqn:E; [|reflexivity].
      apply any_failed_iff in E. destruct E as (v & Hv & Hf).
      specialize (Hpend v Hv). congruence. }
    simpl. split; [congruence|].
    intros _. left. split; [reflexivity|].
    destruct (Pipeline.steps p) as [|[k v] rest] eqn:E; [now left|].
    right. apply unfinished_not_complete. exists v.
    split; [now left|].
    unfold PipelineStep.is_terminal.
    rewrite (Hpend v) by now left. reflexivity.
Qed.

(** [execute_pipeline] returns what the status of the pipeline is
    when its loop has ended. *)
Lemma execute_pipeline_of_loop fuel w p w' p' :
  while_loop run_command fuel (Pipeline.id p) true
    (fold_left (visit_root run_command (Pipeline.id p))
       (dict_keys (live_steps (entered w p) (Pipeline.id p)))
       (entered w p))
  = Returned tt w' ->
  registered w' (Pipeline.id p) p' ->
  execute_pipeline run_command fuel w p
  = Returned
      match Pipeline.status p' with SUCCEEDED => true | _ => false end
      w'.
Proof.
  intros Hloop Hp'. rewrite execute_pipeline_unfold, Hloop.
  now rewrite (live_status_registered _ _ _ Hp').
Qed.

(** How the loop ends on a pipeline as it is built, with steps, whose
    dependencies name steps of the pipeline and form no cycle. *)
Lemma loop_verdict fuel w p :
  dict_wf (Pipeline.steps p) ->
  all_pending (Pipeline.steps p) ->
  ids_present (Pipeline.steps p) ->
  acyclic (Pipeline.steps p) ->
  Pipeline.steps p <> [] ->
  List.length (Pipeline.steps p) < fuel ->
  exists w' p',
    while_loop run_command fuel (Pipeline.id p) true
      (fold_left (visit_root run_command (Pipeline.id p))
         (dict_keys (live_steps (entered w p) (Pipeline.id p)))
         (entered w p))
    = Returned tt w'
    /\ registered w' (Pipeline.id p) p'
    /\ ((Pipeline.status p' = SUCCEEDED
         /\ all_succeeded (Pipeline.steps p'))
        \/ (Pipeline.status p' = FAILED
            /\ some_failed (Pipeline.steps p'))).
Proof.
  intros Hwf Hpend Hpres Hacyc Hsteps Hfuel.
  destruct (execute_pipeline_returns run_command fuel w p Hpres Hfuel) as (w' & Hloop).
  pose proof (execute_pipeline_unfold run_command fuel w p) as Hrun.
  rewrite Hloop in Hrun.
  pose proof (execute_pipeline_judged fuel w p Hwf Hpend) as Hj.
  pose proof (execute_pipeline_orderly run_command fuel w p Hwf Hpend) as Ho.
  pose proof (execute_pipeline_tracked run_command fuel w p) as Ht.
  rewrite Hrun in Hj, Ho, Ht. simpl in Hj, Ho, Ht.
  destruct Hj as (p' & Hp' & Hwf' & Hfail & Hnofail).
  destruct Ho as (p1 & new & Hp1 & _ & _ & _ & Hall).
  destruct Ht as (p2 & Hp2 & Hg).
  unfold registered in Hp1, Hp2, Hp'.
  assert (p1 = p') by congruence. assert (p2 = p') by congruence.
  subst p1 p2.
  exists w', p'. split; [exact Hloop|]. split; [exact Hp'|].
  destruct (any_failed (Pipeline.steps p')) eqn:Eany.
  - right. split; [now apply Hfail | now apply any_failed_iff].
  - destruct (Hnofail eq_refl) as [(Hin & Hleft)|(Hs & Hsucc)].
    + exfalso.
      assert (Hlen : List.length (Pipeline.steps p')
                     = List.length (Pipeline.steps p))
        by (rewrite <- (length_graph (Pipeline.steps p')), Hg;
            apply length_graph).
      destruct Hleft as [Hnil|Hinc].
      { rewrite Hnil in Hlen. destruct (Pipeline.steps p); [now apply Hsteps|].
        discriminate. }
      assert (Hclean : forall step,
                 In step (dict_values (Pipeline.steps p')) ->
                 PipelineStep.status step = pending
                 \/ PipelineStep.status step = succeeded).
      { intros step Hin_step.
        destruct (In_values_dict_get _ _ Hwf' Hin_step) as (k & Hk).
        destruct (Hall k step Hk) as [[H _]|[_ (ts & Hran & _)]]; [now left|].
        destruct Hran as (_ & _ & [H|H] & _); [now right|].
        exfalso. assert (any_failed (Pipeline.steps p') = true)
          by (apply any_failed_iff; now exists step).
        congruence. }
      assert (Hpending : exists k, pending_at (Pipeline.steps p') k).
      { destruct (all_complete (Pipeline.steps p')) eqn:Eall; [discriminate|].
        unfold all_complete in Eall.
        assert (Hex : exists v, In v (dict_values (Pipeline.steps p'))
                                /\ PipelineStep.is_terminal v = false).
        { clear -Eall. induction (dict_values (Pipeline.steps p')) as [|v l IH];
            [discriminate|]. simpl in Eall.
          destruct (PipelineStep.is_terminal v) eqn:Ev.
          - destruct (IH Eall) as (v' & Hv' & H). exists v'. split; [now right|].
            assumption.
          - exists v. split; [now left | assumption]. }
        destruct Hex as (v & Hv & Hterm).
        destruct (In_values_dict_get _ _ Hwf' Hv) as (k & Hk).
        exists k, v. split; [assumption|].
        destruct (Hclean v Hv) as [H|H]; [assumption|].
        unfold PipelineStep.is_terminal in Hterm. now rewrite H in Hterm. }
      destruct Hpending as (k & Hk).
      destruct (while_loop_exit run_command (Pipeline.id p) fuel true _ w' Hloop)
        as [Hout|[[Hf _]|Hidle]]; [| discriminate |].
      * rewrite (live_status_registered _ _ _ Hp') in Hout. congruence.
      * destruct (scan_idle run_command (Pipeline.id p) w' w' p' Hp' Hidle)
          as [_ Hstalled].
        destruct (pending_gives_cycle (Pipeline.steps p') Hstalled Hclean k Hk)
          as (a & Hcycle).
        apply (acyclic_graph (Pipeline.steps p) (Pipeline.steps p')) in Hacyc;
          [|now symmetry].
        exact (Hacyc a Hcycle).
    + left. auto.
Qed.

(** X7. Whatever the step commands do, [execute_pipeline] returns on a
    pipeline in which every dependency id names a step, within as many
    passes of its loop as the pipeline has steps, and one more:
    dependency cycles and failing steps end the run, they do not hang
    it. *)
Theorem run_ends_when_dependencies_exist :
  forall (fuel : nat) (w : State) (pipeline : Pipeline.t),
    ids_present (Pipeline.steps pipeline) ->
    List.length (Pipeline.steps pipeline) < fuel ->
    exists r w',
      execute_pipeline run_command fuel w pipeline = Returned r w'.
Proof.
  intros fuel w p Hpres Hfuel.
  destruct (execute_pipeline_returns run_command fuel w p Hpres Hfuel) as (w' & Hloop).
  rewrite execute_pipeline_unfold, Hloop. eauto.
Qed.

(** X8. A pipeline as it is built (distinct step ids, all steps
    pending), with at least one step, whose dependencies name steps of
    the pipeline and form no cycle: whatever the step commands do,
    [execute_pipeline] returns, and it returns [True] with the pipeline
    SUCCEEDED and every step succeeded, or [False] with the pipeline
    FAILED and some step failed.  It does not end IN_PROGRESS. *)
Theorem run_ends_succeeded_or_failed :
  forall (fuel : nat) (w : State) (pipeline : Pipeline.t),
    dict_wf (Pipeline.steps pipeline) ->
    all_pending (Pipeline.steps pipeline) ->
    ids_present (Pipeline.steps pipeline) ->
    acyclic (Pipeline.steps pipeline) ->
    Pipeline.steps pipeline <> [] ->
    List.length (Pipeline.steps pipeline) < fuel ->
    exists r w' p',
      execute_pipeline run_command fuel w pipeline = Returned r w'
      /\ registered w' (Pipeline.id pipeline) p'
      /\ ((r = true /\ Pipeline.status p' = SUCCEEDED
           /\ all_succeeded (Pipeline.steps p'))
          \/ (r = false /\ Pipeline.status p' = FAILED
              /\ some_failed (Pipeline.steps p'))).
Proof.
  intros fuel w p Hwf Hpend Hpres Hacyc Hsteps Hfuel.
  destruct (loop_verdict fuel w p Hwf Hpend Hpres Hacyc Hsteps Hfuel)
    as (w' & p' & Hloop & Hp' & Hend).
  pose proof (execute_pipeline_of_loop fuel w p w' p' Hloop Hp') as Hrun.
  eexists _, w', p'. split; [exact Hrun|]. split; [exact Hp'|].
  destruct Hend as [(Hs & Hall)|(Hf & Hsome)].
  - left. rewrite Hs. auto.
  - right. rewrite Hf. auto.
Qed.

End Outcome.

Section HappyPath.

Import PipelineExecutor Props Order.

(** With the step body of the source no step fails, so that a loop
    that ends succeeded or failed ends succeeded. *)
Lemma loop_succeeds fuel w p :
  dict_wf (Pipeline.steps p) ->
  all_pending (Pipeline.steps p) ->
  ids_present (Pipeline.steps p) ->
  acyclic (Pipeline.steps p) ->
  Pipeline.steps p <> [] ->
  List.length (Pipeline.steps p) < fuel ->
  exists w' p',
    while_loop simulated fuel (Pipeline.id p) true
      (fold_left (visit_root simulated (Pipeline.id p))
         (dict_keys (live_steps (entered w p) (Pipeline.id p)))
         (entered w p))
    = Returned tt w'
    /\ registered w' (Pipeline.id p) p'
    /\ Pipeline.status p' = SUCCEEDED
    /\ all_succeeded (Pipeline.steps p').
Proof.
  intros Hwf Hpend Hpres Hacyc Hsteps Hfuel.
  destruct (loop_verdict simulated fuel w p
              Hwf Hpend Hpres Hacyc Hsteps Hfuel)
    as (w' & p' & Hloop & Hp' & [(Hs & Hall)|(_ & Hfailed)]).
  - exists w', p'. auto.
  - exfalso.
    assert (Hno : forall step, simulated step = Returns) by reflexivity.
    assert (Hclean : clean (Pipeline.id p) (graph (Pipeline.steps p))
                       (final_state (execute_pipeline simulated fuel w p))).
    { rewrite final_state_execute_pipeline.
      apply (while_loop_keeps simulated (Pipeline.id p) _
               (execute_step_clean simulated Hno (Pipeline.id p)
                  (graph (Pipeline.steps p)))).
      apply (roots_keep simulated (Pipeline.id p) _
               (execute_step_clean simulated Hno (Pipeline.id p)
                  (graph (Pipeline.steps p)))).
      exists (Pipeline.start p (clock w)).
      split; [apply registered_entered|]. repeat split; auto. }
    rewrite (execute_pipeline_of_loop simulated fuel w p w' p' Hloop Hp')
      in Hclean.
    simpl in Hclean.
    destruct Hclean as (p1 & Hp1 & _ & Hst & _).
    unfold registered in Hp1, Hp'. assert (p1 = p') by congruence. subst p1.
    destruct Hfailed as (v & Hv & Hf).
    destruct (Hst v Hv); congruence.
Qed.

(** X9. With the step body of the source, which cannot fail, a
    pipeline as it is built, with at least one step, whose dependencies
    name steps of the pipeline and form no cycle is run to the end:
    [execute_pipeline] returns [True], the pipeline is SUCCEEDED with a
    [completed_at], and every step is succeeded. *)
Theorem well_formed_pipeline_succeeds :
  forall (fuel : nat) (w : State) (pipeline : Pipeline.t),
    dict_wf (Pipeline.steps pipeline) ->
    all_pending (Pipeline.steps pipeline) ->
    ids_present (Pipeline.steps pipeline) ->
    acyclic (Pipeline.steps pipeline) ->
    Pipeline.steps pipeline <> [] ->
    List.length (Pipeline.steps pipeline) < fuel ->
    exists w' p' t,
      execute_pipeline simulated fuel w pipeline = Returned true w'
      /\ registered w' (Pipeline.id pipeline) p'
      /\ Pipeline.status p' = SUCCEEDED
      /\ Pipeline.completed_at p' = Some t
      /\ all_succeeded (Pipeline.steps p').
Proof.
  intros fuel w p Hwf Hpend Hpres Hacyc Hsteps Hfuel.
  destruct (loop_succeeds fuel w p Hwf Hpend Hpres Hacyc Hsteps Hfuel)
    as (w' & p' & Hloop & Hp' & Hs & Hall).
  pose proof (execute_pipeline_of_loop simulated fuel w p w' p' Hloop Hp')
    as Hrun.
  rewrite Hs in Hrun.
  pose proof (execute_pipeline_success_earned simulated fuel w p) as He.
  rewrite Hrun in He. simpl in He.
  destruct (He p' Hp' Hs) as (_ & _ & Hc).
  destruct (Pipeline.completed_at p') as [t|] eqn:Et; [|congruence].
  exists w', p', t. auto.
Qed.

End HappyPath.

(** ** A dependency on a step that does not exist *)

Section Hang.

Import PipelineExecutor Props Order.

Variable pipeline_id : string.
Variables k d : string.

Lemma execute_step_hung w step_id :
  hung pipeline_id k d w ->
  hung pipeline_id k d (snd (execute_step simulated w pipeline_id step_id)).
Proof.
  intros Hw.
  destruct (execute_step_inv simulated pipeline_id w step_id)
    as [E|(p & step & Hp & Hs & Hd & E)]; rewrite E; simpl; [assumption|].
  clear E.
  destruct Hw as (p0 & wait & Hp0 & Hst & Hk & Hpend & Hin & Hmissing).
  unfold registered in Hp, Hp0. assert (p0 = p) by congruence. subst p0.
  assert (Hne_k : k <> step_id).
  { intros ->. assert (wait = step) by congruence. subst wait.
    destruct (dependencies_succeeded_sound _ _ Hd d Hin) as (ds & Hds & _).
    congruence. }
  assert (Hne_d : d <> step_id) by (intros ->; congruence).
  pose proof (run_step_steps simulated p step_id step (clock w)) as Hsteps.
  pose proof (run_step_status simulated p step_id step (clock w)) as Hstatus.
  cbv zeta in Hstatus.
  set (p' := snd (fst (run_step simulated p step_id step (clock w)))) in *.
  assert (Hk' : dict_get (Pipeline.steps p') k = Some wait)
    by (rewrite Hsteps, dict_get_set_other by congruence; assumption).
  exists p', wait. split; [unfold registered; simpl; apply dict_get_set_same|].
  split.
  { change (simulated (PipelineStep.start step (clock w))) with Returns
      in Hstatus.
    assert (Hinc : all_complete (Pipeline.steps p') = false).
    { apply unfinished_not_complete. exists wait.
      split; [eapply dict_get_In_values; eauto|].
      unfold PipelineStep.is_terminal. now rewrite Hpend. }
    rewrite Hinc in Hstatus. destruct Hstatus as (-> & _). assumption. }
  split; [assumption|]. split; [assumption|]. split; [assumption|].
  rewrite Hsteps, dict_get_set_other by congruence. assumption.
Qed.

Variable g : Dict (list string).
Hypothesis g_has_no_cycle :
  forall steps, graph steps = g -> acyclic steps.

(** A pass over a hung pipeline free of cycles reports progress. *)
Lemma scan_hung w :
  hung pipeline_id k d w ->
  clean pipeline_id g w ->
  fst (scan simulated pipeline_id w) = true.
Proof.
  intros (p & wait & Hp & Hst & Hk & Hpend & Hin & Hmissing)
         (p0 & Hp0 & Hg & Hclean & _).
  unfold registered in Hp, Hp0. assert (p0 = p) by congruence. subst p0.
  destruct (scan simulated pipeline_id w) as [[|] w1] eqn:Es; [reflexivity|].
  exfalso.
  destruct (scan_idle simulated pipeline_id w w1 p Hp Es) as [_ Hstalled].
  destruct (pending_gives_cycle (Pipeline.steps p) Hstalled Hclean k)
    as (a & Hcycle); [now exists wait|].
  exact (g_has_no_cycle _ Hg a Hcycle).
Qed.

Lemma while_loop_hung fuel : forall w,
  hung pipeline_id k d w ->
  clean pipeline_id g w ->
  exists w', while_loop simulated fuel pipeline_id true w = OutOfFuel w'.
Proof.
  assert (Hno : forall step, simulated step = Returns) by reflexivity.
  induction fuel as [|fuel IH]; intros w Hh Hc.
  - destruct Hh as (p & wait & Hp & Hst & _).
    cbn [while_loop]. rewrite (live_status_registered _ _ _ Hp), Hst.
    now exists w.
  - pose proof (scan_hung w Hh Hc) as Hflag.
    pose proof (scan_keeps simulated pipeline_id _ execute_step_hung w Hh)
      as Hh'.
    pose proof (scan_keeps simulated pipeline_id _
                  (execute_step_clean simulated Hno pipeline_id g) w Hc)
      as Hc'.
    destruct Hh as (p & wait & Hp & Hst & _).
    rewrite (while_loop_enter simulated pipeline_id fuel w p Hp Hst).
    destruct (scan simulated pipeline_id w) as [pm w1]. simpl in *.
    subst pm. now apply IH.
Qed.

End Hang.

Section HangTheorem.

Import PipelineExecutor Props Order.

(** X10. With the step body of the source: when a step of a pipeline
    as it is built (all steps pending, no dependency cycle) names among
    its dependencies an id that is the id of no step, [execute_pipeline]
    never returns.  The scan of the loop skips the missing id and finds
    the step ready, [execute_step] refuses the step because of the
    missing id, and the loop goes on reporting progress: no number of
    passes suffices. *)
Theorem missing_dependency_hangs_the_run :
  forall (fuel : nat) (w : State) (pipeline : Pipeline.t)
         (k d : string) (step : PipelineStep.t),
    all_pending (Pipeline.steps pipeline) ->
    acyclic (Pipeline.steps pipeline) ->
    dict_get (Pipeline.steps pipeline) k = Some step ->
    In d (PipelineStep.dependencies step) ->
    dict_get (Pipeline.steps pipeline) d = None ->
    exists w', execute_pipeline simulated fuel w pipeline = OutOfFuel w'.
Proof.
  intros fuel w p k d step Hpend Hacyc Hk Hin Hmissing.
  assert (Hno : forall s, simulated s = Returns) by reflexivity.
  set (pid := Pipeline.id p). set (g := graph (Pipeline.steps p)).
  set (w2 := fold_left (visit_root simulated pid)
               (dict_keys (live_steps (entered w p) pid)) (entered w p)).
  assert (Hh : hung pid k d w2).
  { apply (roots_keep simulated pid _ (execute_step_hung pid k d)).
    exists (Pipeline.start p (clock w)), step.
    split; [apply registered_entered|]. split; [reflexivity|].
    split; [exact Hk|]. split; [|split; assumption].
    eapply all_pending_get; eauto. }
  assert (Hc : clean pid g w2).
  { apply (roots_keep simulated pid _ (execute_step_clean simulated Hno pid g)).
    exists (Pipeline.start p (clock w)).
    split; [apply registered_entered|]. repeat split; auto. }
  destruct (while_loop_hung pid k d g) with (fuel := fuel) (w := w2)
    as (w' & Hloop); auto.
  { intros steps Hg. apply acyclic_graph with (Pipeline.steps p); auto. }
  exists w'. rewrite execute_pipeline_unfold.
  fold pid. fold w2. now rewrite Hloop.
Qed.

End HangTheorem.

(** *** The further properties of the scheduler at work on the samples *)

Section SchedulerSamples.

Import PipelineExecutor Props Order Check.

Lemma true_means_all_steps_succeeded_witness :
  execute_pipeline simulated 5 idle Sample.diamond
  = Returned true (final_state (execute_pipeline simulated 5 idle Sample.diamond))
  /\ exists p',
       registered
         (final_state (execute_pipeline simulated 5 idle Sample.diamond))
         (Pipeline.id Sample.diamond) p'
       /\ Pipeline.status p' = SUCCEEDED
       /\ Pipeline.steps p' <> []
       /\ all_succeeded (Pipeline.steps p')
       /\ exists t, Pipeline.completed_at p' = Some t.
Proof.
  split; [reflexivity|].
  apply (true_means_all_steps_succeeded simulated 5 idle Sample.diamond).
  reflexivity.
Defined.

Lemma no_step_is_started_twice_witness :
  dict_wf (Pipeline.steps Sample.diamond)
  /\ all_pending (Pipeline.steps Sample.diamond)
  /\ exists p' new,
       registered
         (final_state
            (execute_pipeline (Sample.fails_on ["B"]) 5 idle Sample.diamond))
         (Pipeline.id Sample.diamond) p'
       /\ started
            (final_state
               (execute_pipeline (Sample.fails_on ["B"]) 5 idle Sample.diamond))
          = new ++ started idle
       /\ NoDup (started_ids new)
       /\ forall k step,
            dict_get (Pipeline.steps p') k = Some step ->
            (PipelineStep.status step = pending <-> ~ In k (started_ids new)).
Proof.
  assert (H1 : dict_wf (Pipeline.steps Sample.diamond))
    by (apply distinctb_sound; reflexivity).
  assert (H2 : all_pending (Pipeline.steps Sample.diamond))
    by (apply all_pendingb_sound; reflexivity).
  split; [exact H1|]. split; [exact H2|].
  exact (no_step_is_started_twice (Sample.fails_on ["B"]) 5 idle
           Sample.diamond H1 H2).
Defined.

Lemma steps_run_after_their_dependencies_witness :
  dict_wf (Pipeline.steps Sample.diamond)
  /\ all_pending (Pipeline.steps Sample.diamond)
  /\ exists p',
       registered
         (final_state (execute_pipeline simulated 5 idle Sample.diamond))
         (Pipeline.id Sample.diamond) p'
       /\ forall k step,
            dict_get (Pipeline.steps p') k = Some step ->
            PipelineStep.status step <> pending ->
            exists ts, ran_in_order (Pipeline.steps p') step ts.
Proof.
  assert (H1 : dict_wf (Pipeline.steps Sample.diamond))
    by (apply distinctb_sound; reflexivity).
  assert (H2 : all_pending (Pipeline.steps Sample.diamond))
    by (apply all_pendingb_sound; reflexivity).
  split; [exact H1|]. split; [exact H2|].
  exact (steps_run_after_their_dependencies simulated 5 idle
           Sample.diamond H1 H2).
Defined.

Lemma steps_on_a_cycle_never_start_witness :
  dict_wf (Pipeline.steps Sample.cycle)
  /\ all_pending (Pipeline.steps Sample.cycle)
  /\ clos_trans string (depends_on (Pipeline.steps Sample.cycle)) "X" "X"
  /\ exists p' step,
       registered
         (final_state (execute_pipeline simulated 3 idle Sample.cycle))
         (Pipeline.id Sample.cycle) p'
       /\ dict_get (Pipeline.steps p') "X" = Some step
       /\ PipelineStep.status step = pending
       /\ forall new,
            started
              (final_state (execute_pipeline simulated 3 idle Sample.cycle))
            = new ++ started idle ->
            ~ In "X" (started_ids new).
Proof.
  assert (H1 : dict_wf (Pipeline.steps Sample.cycle))
    by (apply distinctb_sound; reflexivity).
  assert (H2 : all_pending (Pipeline.steps Sample.cycle))
    by (apply all_pendingb_sound; reflexivity).
  assert (H3 : clos_trans string (depends_on (Pipeline.steps Sample.cycle))
                 "X" "X").
  { apply t_trans with "Y"; apply t_step.
    - exists (Sample.step "X" ["Y"]). split; [reflexivity | now left].
    - exists (Sample.step "Y" ["X"]). split; [reflexivity | now left]. }
  split; [exact H1|]. split; [exact H2|]. split; [exact H3|].
  exact (steps_on_a_cycle_never_start simulated 3 idle Sample.cycle "X"
           H1 H2 H3).
Defined.

Lemma run_ends_when_dependencies_exist_witness :
  ids_present (Pipeline.steps Sample.cycle)
  /\ List.length (Pipeline.steps Sample.cycle) < 3
  /\ exists r w',
       execute_pipeline (Sample.fails_on ["X"]) 3 idle Sample.cycle
       = Returned r w'.
Proof.
  assert (H1 : ids_present (Pipeline.steps Sample.cycle))
    by (apply ids_presentb_sound; reflexivity).
  assert (H2 : List.length (Pipeline.steps Sample.cycle) < 3)
    by (simpl; lia).
  split; [exact H1|]. split; [exact H2|].
  exact (run_ends_when_dependencies_exist (Sample.fails_on ["X"]) 3 idle
           Sample.cycle H1 H2).
Defined.

Lemma run_ends_succeeded_or_failed_witness :
  dict_wf (Pipeline.steps Sample.diamond)
  /\ all_pending (Pipeline.steps Sample.diamond)
  /\ ids_present (Pipeline.steps Sample.diamond)
  /\ acyclic (Pipeline.steps Sample.diamond)
  /\ Pipeline.steps Sample.diamond <> []
  /\ List.length (Pipeline.steps Sample.diamond) < 5
  /\ exists r w' p',
       execute_pipeline (Sample.fails_on ["C"]) 5 idle Sample.diamond
       = Returned r w'
       /\ registered w' (Pipeline.id Sample.diamond) p'
       /\ ((r = true /\ Pipeline.status p' = SUCCEEDED
            /\ all_succeeded (Pipeline.steps p'))
           \/ (r = false /\ Pipeline.status p' = FAILED
               /\ some_failed (Pipeline.steps p'))).
Proof.
  assert (H1 : dict_wf (Pipeline.steps Sample.diamond))
    by (apply distinctb_sound; reflexivity).
  assert (H2 : all_pending (Pipeline.steps Sample.diamond))
    by (apply all_pendingb_sound; reflexivity).
  assert (H3 : ids_present (Pipeline.steps Sample.diamond))
    by (apply ids_presentb_sound; reflexivity).
  assert (H4 : acyclic (Pipeline.steps Sample.diamond))
    by (apply (rankedb_sound (position ["A"; "B"; "C"; "D"])); reflexivity).
  assert (H5 : Pipeline.steps Sample.diamond <> []) by discriminate.
  assert (H6 : List.length (Pipeline.steps Sample.diamond) < 5)
    by (simpl; lia).
  repeat (split; [assumption|]).
  exact (run_ends_succeeded_or_failed (Sample.fails_on ["C"]) 5 idle
           Sample.diamond H1 H2 H3 H4 H5 H6).
Defined.

Lemma well_formed_pipeline_succeeds_witness :
  dict_wf (Pipeline.steps Sample.diamond)
  /\ all_pending (Pipeline.steps Sample.diamond)
  /\ ids_present (Pipeline.steps Sample.diamond)
  /\ acyclic (Pipeline.steps Sample.diamond)
  /\ Pipeline.steps Sample.diamond <> []
  /\ List.length (Pipeline.steps Sample.diamond) < 5
  /\ exists w' p' t,
       execute_pipeline simulated 5 idle Sample.diamond = Returned true w'
       /\ registered w' (Pipeline.id Sample.diamond) p'
       /\ Pipeline.status p' = SUCCEEDED
       /\ Pipeline.completed_at p' = Some t
       /\ all_succeeded (Pipeline.steps p').
Proof.
  assert (H1 : dict_wf (Pipeline.steps Sample.diamond))
    by (apply distinctb_sound; reflexivity).
  assert (H2 : all_pending (Pipeline.steps Sample.diamond))
    by (apply all_pendingb_sound; reflexivity).
  assert (H3 : ids_present (Pipeline.steps Sample.diamond))
    by (apply ids_presentb_sound; reflexivity).
  assert (H4 : acyclic (Pipeline.steps Sample.diamond))
    by (apply (rankedb_sound (position ["A"; "B"; "C"; "D"])); reflexivity).
  assert (H5 : Pipeline.steps Sample.diamond <> []) by discriminate.
  assert (H6 : List.length (Pipeline.steps Sample.diamond) < 5)
    by (simpl; lia).
  repeat (split; [assumption|]).
  exact (well_formed_pipeline_succeeds 5 idle Sample.diamond
           H1 H2 H3 H4 H5 H6).
Defined.

Lemma missing_dependency_hangs_the_run_witness :
  all_pending (Pipeline.steps Sample.dangling)
  /\ acyclic (Pipeline.steps Sample.dangling)
  /\ dict_get (Pipeline.steps Sample.dangling) "X"
     = Some (Sample.step "X" ["ghost"])
  /\ In "ghost" (PipelineStep.dependencies (Sample.step "X" ["ghost"]))
  /\ dict_get (Pipeline.steps Sample.dangling) "ghost" = None
  /\ exists w',
       execute_pipeline simulated 1000 idle Sample.dangling = OutOfFuel w'.
Proof.
  assert (H1 : all_pending (Pipeline.steps Sample.dangling))
    by (apply all_pendingb_sound; reflexivity).
  assert (H2 : acyclic (Pipeline.steps Sample.dangling))
    by (apply (rankedb_sound (position ["ghost"; "X"])); reflexivity).
  assert (H3 : In "ghost"
                 (PipelineStep.dependencies (Sample.step "X" ["ghost"])))
    by (now left).
  split; [exact H1|]. split; [exact H2|]. split; [reflexivity|].
  split; [exact H3|]. split; [reflexivity|].
  exact (missing_dependency_hangs_the_run 1000 idle Sample.dangling
           "X" "ghost" (Sample.step "X" ["ghost"]) H1 H2 eq_refl H3 eq_refl).
Defined.

End SchedulerSamples.

(** ** From templates to runs *)

Section Layered.

Import PipelineTemplate Binder Props Check Layers.

Variable uuid4 : nat -> string.

Lemma mem_In x l : mem x l = true <-> In x l.
Proof.
  unfold mem. rewrite existsb_exists. split.
  - intros (y & Hin & E). apply String.eqb_eq in E. now subst.
  - intros H. exists x. split; [assumption | apply String.eqb_refl].
Qed.

Lemma ranked_acyclic rank steps : ranked rank steps -> acyclic steps.
Proof.
  intros H.
  assert (Hdown : forall x y,
             clos_trans string (depends_on steps) x y -> rank y < rank x).
  { intros x y Hxy.
    induction Hxy as [x y (step & Hget & Hin) | x y z _ IH1 _ IH2];
      [eapply H; eauto | lia]. }
  intros k Hk. specialize (Hdown k k Hk). lia.
Qed.

Lemma resolve_In m names d :
  In d (resolve_dependencies m names) ->
  exists n, In n names /\ dict_get m n = Some d.
Proof.
  unfold resolve_dependencies. rewrite in_flat_map.
  intros (n & Hn & Hd). exists n. split; [assumption|].
  destruct (dict_get m n) as [id|]; [|destruct Hd].
  destruct Hd as [->|[]]. reflexivity.
Qed.

Lemma name_map_keep : forall its m0 n,
  existsb (fun it => String.eqb n (st_name (snd it))) its = false ->
  dict_get (name_map uuid4 its m0) n = dict_get m0 n.
Proof.
  unfold name_map.
  induction its as [|it its IH]; intros m0 n Hn; simpl in *; [reflexivity|].
  apply orb_false_iff in Hn. destruct Hn as [Hit Hits].
  rewrite IH by assumption. now rewrite dict_get_set, Hit.
Qed.

Lemma names_step_notin templates n :
  ~ In n (map st_name templates) -> names_step templates n = false.
Proof.
  intros H. unfold names_step.
  destruct (existsb _ templates) eqn:E; [|reflexivity].
  exfalso. apply H. apply existsb_exists in E.
  destruct E as (t & Hin & Ht). apply String.eqb_eq in Ht. subst n.
  now apply in_map.
Qed.

(** With names of their own, each name is mapped to the id of its
    step. *)
Lemma name_map_at : forall templates first m0 j t,
  NoDup (map st_name templates) ->
  nth_error templates j = Some t ->
  dict_get (name_map uuid4 (numbered first templates) m0) (st_name t)
  = Some (uuid4 (first + j)).
Proof.
  induction templates as [|a ts IH]; intros first m0 j t Hnd Hj;
    [destruct j; discriminate|].
  inversion Hnd as [|? ? Hnotin Hnd']; subst.
  destruct j as [|j]; simpl in Hj.
  - injection Hj as ->. cbn [numbered name_map fold_left fst snd].
    fold (name_map uuid4 (numbered (S first) ts)
            (dict_set m0 (st_name t) (uuid4 first))).
    rewrite name_map_keep
      by (rewrite names_step_numbered; now apply names_step_notin).
    rewrite dict_get_set_same. now rewrite Nat.add_0_r.
  - cbn [numbered name_map fold_left fst snd].
    fold (name_map uuid4 (numbered (S first) ts)
            (dict_set m0 (st_name a) (uuid4 first))).
    rewrite (IH (S first) _ j t Hnd' Hj). now rewrite Nat.add_succ_r.
Qed.

Lemma layered_from_spec : forall templates seen,
  layered_from seen templates = true ->
  NoDup (map st_name templates)
  /\ (forall n, In n (map st_name templates) -> ~ In n seen)
  /\ forall i t d,
       nth_error templates i = Some t ->
       In d (st_dependencies t) ->
       In d seen
       \/ exists j t',
            j < i /\ nth_error templates j = Some t' /\ st_name t' = d.
Proof.
  induction templates as [|a ts IH]; intros seen H.
  - split; [constructor|]. split; [intros n []|].
    intros [|i] t d Hi; discriminate.
  - cbn [layered_from] in H.
    apply andb_true_iff in H. destruct H as [H Hrest].
    apply andb_true_iff in H. destruct H as [Hfresh Hdeps].
    apply negb_true_iff in Hfresh.
    destruct (IH _ Hrest) as (Hnd & Hdisj & Hidx).
    assert (Ha : ~ In (st_name a) seen).
    { intros Hin. apply mem_In in Hin. congruence. }
    split; [|split].
    + cbn [map]. constructor; [|assumption].
      intros Hin. apply (Hdisj _ Hin). now left.
    + intros n [<-|Hin]; [assumption|].
      intros Hs. apply (Hdisj _ Hin). now right.
    + intros [|i] t d Hi Hd; simpl in Hi.
      * injection Hi as ->. left. apply mem_In.
        rewrite forallb_forall in Hdeps. now apply Hdeps.
      * destruct (Hidx i t d Hi Hd) as [[<-|Hs]|(j & t' & Hlt & Hj & Hn)].
        -- right. exists 0, a. split; [lia|]. split; reflexivity.
        -- now left.
        -- right. exists (S j), t'. split; [lia|]. split; assumption.
Qed.

Lemma In_instantiated vars m : forall templates first k step,
  In (k, step) (instantiated uuid4 vars m first templates) ->
  exists i t,
    nth_error templates i = Some t
    /\ k = uuid4 (first + i)
    /\ PipelineStep.id step = k
    /\ PipelineStep.status step = pending
    /\ PipelineStep.dependencies step
       = resolve_dependencies m (st_dependencies t).
Proof.
  induction templates as [|a ts IH]; intros first k step; simpl; [intros []|].
  intros [E|Hin].
  - injection E as <- <-. exists 0, a. rewrite Nat.add_0_r. repeat split.
  - destruct (IH (S first) k step Hin) as (i & t & Hi & Hk & Hrest).
    exists (S i), t. rewrite Nat.add_succ_r. auto.
Qed.

Lemma length_instantiated vars m templates : forall first,
  List.length (instantiated uuid4 vars m first templates)
  = List.length templates.
Proof.
  induction templates as [|a ts IH]; intros first; simpl; [reflexivity|].
  now rewrite IH.
Qed.

Lemma position_map_seq : forall n first i,
  NoDup (map uuid4 (seq first n)) ->
  i < n ->
  position (map uuid4 (seq first n)) (uuid4 (first + i)) = i.
Proof.
  induction n as [|n IH]; intros first i Hnd Hlt; [lia|].
  cbn [seq map] in *. inversion Hnd as [|? ? Hnotin Hnd']; subst.
  destruct i as [|i]; cbn [position].
  - now rewrite Nat.add_0_r, String.eqb_refl.
  - destruct (String.eqb_spec (uuid4 (first + S i)) (uuid4 first)) as [E|_].
    + exfalso. apply Hnotin. rewrite <- E. apply in_map.
      apply in_seq. lia.
    + rewrite <- Nat.add_succ_comm. rewrite IH; [reflexivity | assumption | lia].
Qed.

(** What [create_pipeline] builds, when the ids drawn are distinct,
    is a pipeline as the executor wants it. *)
Lemma instantiated_ready vars m first templates :
  NoDup (map uuid4 (seq first (List.length templates))) ->
  (forall n id, dict_get m n = Some id ->
                In id (map uuid4 (seq first (List.length templates)))) ->
  ready (instantiated uuid4 vars m first templates).
Proof.
  intros Hnd Hm.
  assert (Hkeys := dict_keys_instantiated uuid4 vars m templates first).
  split; [unfold dict_wf; now rewrite Hkeys|].
  split; [|split].
  - intros step Hin. unfold dict_values in Hin. apply in_map_iff in Hin.
    destruct Hin as ([k s] & <- & Hin).
    now destruct (In_instantiated _ _ _ _ _ _ Hin) as (_ & _ & _ & _ & _ & H & _).
  - intros k step d Hget Hd. apply dict_get_In in Hget.
    destruct (In_instantiated _ _ _ _ _ _ Hget) as (i & t & _ & _ & _ & _ & Hdeps).
    rewrite Hdeps in Hd. destruct (resolve_In _ _ _ Hd) as (n & _ & Hn).
    apply dict_mem_true. rewrite Hkeys. eapply Hm; eauto.
  - intros k step Hget. apply dict_get_In in Hget.
    now destruct (In_instantiated _ _ _ _ _ _ Hget) as (_ & _ & _ & _ & H & _).
Qed.

Lemma name_map_into : forall templates first m0 n id,
  dict_get (name_map uuid4 (numbered first templates) m0) n = Some id ->
  dict_get m0 n = Some id
  \/ In id (map uuid4 (seq first (List.length templates))).
Proof.
  induction templates as [|a ts IH]; intros first m0 n id H; [now left|].
  cbn [numbered name_map fold_left fst snd] in H.
  fold (name_map uuid4 (numbered (S first) ts)
          (dict_set m0 (st_name a) (uuid4 first))) in H.
  destruct (IH _ _ _ _ H) as [H0|Hin].
  - rewrite dict_get_set in H0.
    destruct (String.eqb n (st_name a)); [|now left].
    injection H0 as <-. right. cbn [List.length seq map]. now left.
  - right. cbn [List.length seq map]. now right.
Qed.

(** Layered templates give a pipeline without dependency cycles. *)
Lemma instantiated_acyclic vars first templates :
  NoDup (map uuid4 (seq first (List.length templates))) ->
  layered templates = true ->
  acyclic
    (instantiated uuid4 vars
       (name_map uuid4 (numbered first templates) []) first templates).
Proof.
  intros Hnd Hlay.
  destruct (layered_from_spec _ _ Hlay) as (Hnames & _ & Hidx).
  apply (ranked_acyclic
           (position (map uuid4 (seq first (List.length templates))))).
  intros k step d Hget Hd. apply dict_get_In in Hget.
  destruct (In_instantiated _ _ _ _ _ _ Hget)
    as (i & t & Hi & -> & _ & _ & Hdeps).
  rewrite Hdeps in Hd. destruct (resolve_In _ _ _ Hd) as (n & Hn & Hmap).
  destruct (Hidx i t n Hi Hn) as [[]|(j & t' & Hlt & Hj & <-)].
  rewrite (name_map_at _ _ _ _ _ Hnames Hj) in Hmap. injection Hmap as <-.
  assert (Hi_lt : i < List.length templates)
    by (apply nth_error_Some; congruence).
  rewrite !position_map_seq by (assumption || lia). exact Hlt.
Qed.

End Layered.

Section TemplateRuns.

Import PipelineTemplate PipelineExecutor Binder Props Check Layers.

(** [create_pipeline] on distinct ids, with what the executor needs
    to know about the result. *)
Lemma create_pipeline_made uuid4 self app_id version variables rt :
  NoDup (step_ids uuid4 (uuid_next rt) (List.length (steps self))) ->
  exists pipeline rt',
    create_pipeline uuid4 self app_id version variables rt
    = Some (pipeline, rt')
    /\ Pipeline.id pipeline = uuid4 (uuid_next rt)
    /\ Pipeline.app_id pipeline = app_id
    /\ Pipeline.version pipeline = version
    /\ Pipeline.status pipeline = PENDING
    /\ List.length (Pipeline.steps pipeline) = List.length (steps self)
    /\ ready (Pipeline.steps pipeline)
    /\ (layered (steps self) = true -> acyclic (Pipeline.steps pipeline)).
Proof.
  intros Hnd.
  destruct (create_pipeline_with_spec uuid4 self app_id version variables rt
              Hnd)
    as (p & ref & rt' & Hrun & Hsteps & Hid & Happ & Hver & Hst & _).
  exists p, rt'. unfold create_pipeline. rewrite Hrun.
  split; [reflexivity|]. repeat (split; [assumption|]).
  rewrite Hsteps. unfold step_ids in Hnd.
  split; [apply length_instantiated|]. split.
  - apply instantiated_ready; [assumption|].
    intros n id Hn.
    destruct (name_map_into uuid4 _ _ _ _ _ Hn) as [H0|Hin];
      [discriminate | assumption].
  - intros Hlay. now apply instantiated_acyclic.
Qed.

(** X11. When the ids drawn are pairwise distinct, [create_pipeline]
    returns a pipeline as the executor wants it: status PENDING, the app
    id and version of the call, one step per step template, every step
    pending and stored under its own id, all step ids distinct, and every
    dependency the id of a step of the pipeline. *)
Theorem created_pipeline_is_ready :
  forall (uuid4 : nat -> string) (self : PipelineTemplate.t)
         (app_id version : string) (variables : option nat) (rt : Runtime),
    NoDup (step_ids uuid4 (uuid_next rt) (List.length (steps self))) ->
    exists pipeline rt',
      create_pipeline uuid4 self app_id version variables rt
      = Some (pipeline, rt')
      /\ Pipeline.app_id pipeline = app_id
      /\ Pipeline.version pipeline = version
      /\ Pipeline.status pipeline = PENDING
      /\ List.length (Pipeline.steps pipeline) = List.length (steps self)
      /\ dict_wf (Pipeline.steps pipeline)
      /\ all_pending (Pipeline.steps pipeline)
      /\ ids_present (Pipeline.steps pipeline)
      /\ forall k step,
           dict_get (Pipeline.steps pipeline) k = Some step ->
           PipelineStep.id step = k.
Proof.
  intros uuid4 self app_id version variables rt Hnd.
  destruct (create_pipeline_made uuid4 self app_id version variables rt Hnd)
    as (p & rt' & Hrun & _ & Happ & Hver & Hst & Hlen & Hready & _).
  destruct Hready as (Hwf & Hpend & Hpres & Hids).
  exists p, rt'. repeat (split; [assumption|]). assumption.
Qed.

(** X12. A pipeline made by [create_pipeline] never hangs the
    executor: whatever the template lists as dependencies (names of no
    step, names of later steps, cycles) and whatever the step commands
    do, [execute_pipeline] returns on it within as many passes of its
    loop as the template has steps, and one more. *)
Theorem template_pipelines_always_return :
  forall (run_command : PipelineStep.t -> Outcome)
         (uuid4 : nat -> string) (self : PipelineTemplate.t)
         (app_id version : string) (variables : option nat) (rt : Runtime)
         (fuel : nat) (w : State),
    NoDup (step_ids uuid4 (uuid_next rt) (List.length (steps self))) ->
    List.length (steps self) < fuel ->
    exists pipeline rt' r w',
      create_pipeline uuid4 self app_id version variables rt
      = Some (pipeline, rt')
      /\ execute_pipeline run_command fuel w pipeline = Returned r w'.
Proof.
  intros run_command uuid4 self app_id version variables rt fuel w Hnd Hfuel.
  destruct (create_pipeline_made uuid4 self app_id version variables rt Hnd)
    as (p & rt' & Hrun & _ & _ & _ & _ & Hlen & Hready & _).
  destruct Hready as (_ & _ & Hpres & _).
  destruct (execute_pipeline_returns run_command fuel w p Hpres)
    as (w' & Hloop); [lia|].
  exists p, rt'. do 2 eexists. split; [exact Hrun|].
  rewrite execute_pipeline_unfold, Hloop. reflexivity.
Qed.

(** X13. A template with at least one step, in which every step has
    a name of its own and depends only on steps listed before it, gives
    a pipeline that runs to success: with distinct ids drawn and the
    step body of the source, [execute_pipeline] on the pipeline
    [create_pipeline] returns gives [True], the pipeline is SUCCEEDED and
    every step is succeeded. *)
Theorem layered_template_runs_to_success :
  forall (uuid4 : nat -> string) (self : PipelineTemplate.t)
         (app_id version : string) (variables : option nat) (rt : Runtime)
         (fuel : nat) (w : State),
    NoDup (step_ids uuid4 (uuid_next rt) (List.length (steps self))) ->
    layered (steps self) = true ->
    steps self <> [] ->
    List.length (steps self) < fuel ->
    exists pipeline rt' w' p',
      create_pipeline uuid4 self app_id version variables rt
      = Some (pipeline, rt')
      /\ execute_pipeline simulated fuel w pipeline = Returned true w'
      /\ registered w' (Pipeline.id pipeline) p'
      /\ Pipeline.status p' = SUCCEEDED
      /\ List.length (Pipeline.steps p') = List.length (steps self)
      /\ all_succeeded (Pipeline.steps p').
Proof.
  intros uuid4 self app_id version variables rt fuel w Hnd Hlay Hne Hfuel.
  destruct (create_pipeline_made uuid4 self app_id version variables rt Hnd)
    as (p & rt' & Hrun & _ & _ & _ & _ & Hlen & Hready & Hacyc).
  destruct Hready as (Hwf & Hpend & Hpres & _).
  destruct (loop_succeeds fuel w p Hwf Hpend Hpres (Hacyc Hlay))
    as (w' & p' & Hloop & Hp' & Hst & Hall).
  { intros Hnil. rewrite Hnil in Hlen. destruct (steps self);
      [now apply Hne | discriminate]. }
  { lia. }
  pose proof (execute_pipeline_of_loop simulated fuel w p w' p' Hloop Hp')
    as Hexec.
  rewrite Hst in Hexec.
  exists p, rt', w', p'. repeat (split; [assumption|]).
  split; [|assumption].
  destruct (execute_pipeline_tracked simulated fuel w p) as (p1 & Hp1 & Hg).
  rewrite Hexec in Hp1. simpl in Hp1.
  unfold registered in Hp1, Hp'. assert (p1 = p') by congruence. subst p1.
  rewrite <- Hlen, <- (length_graph (Pipeline.steps p')), Hg.
  apply length_graph.
Qed.

End TemplateRuns.

(** ** The manager *)

Section Manager.

Import Binder Props Order Layers.

Lemma NoDup_map_seq_tail (uuid4 : nat -> string) k : forall first n,
  NoDup (map uuid4 (seq first (k + n))) ->
  NoDup (map uuid4 (seq (k + first) n)).
Proof.
  induction k as [|k IH]; intros first n H; [exact H|].
  cbn [Nat.add seq map] in H. inversion H as [|? ? _ H']; subst.
  specialize (IH (S first) n H').
  now rewrite Nat.add_succ_r in IH.
Qed.

(** A pipeline the manager holds under its own id, executed through
    the manager: the manager then holds what the executor made of
    it. *)
Lemma execute_pipeline_stored run_command fuel m pipeline r w' p' :
  CICDManager.get_pipeline m (Pipeline.id pipeline) = Some pipeline ->
  PipelineExecutor.execute_pipeline run_command fuel
    (CICDManager.executor_state m) pipeline
  = PipelineExecutor.Returned r w' ->
  registered w' (Pipeline.id pipeline) p' ->
  exists m',
    CICDManager.execute_pipeline run_command fuel m (Pipeline.id pipeline)
    = CICDManager.Finished r m'
    /\ CICDManager.get_pipeline m' (Pipeline.id pipeline) = Some p'
    /\ CICDManager.pipeline_templates m' = CICDManager.pipeline_templates m
    /\ forall other,
         other <> Pipeline.id pipeline ->
         CICDManager.get_pipeline m' other = CICDManager.get_pipeline m other.
Proof.
  unfold CICDManager.get_pipeline, registered. intros Hget Hrun Hp'.
  unfold CICDManager.execute_pipeline. rewrite Hget, Hrun.
  cbn [PipelineExecutor.final_state]. rewrite Hp'.
  eexists. split; [reflexivity|].
  cbn [CICDManager.pipelines CICDManager.pipeline_templates].
  split; [apply dict_get_set_same|]. split; [reflexivity|].
  intros other Hne. now apply dict_get_set_other.
Qed.

(** A pipeline as it is built, held by the manager under its own id,
    with steps and without dependency cycles, is executed to the end
    through the manager. *)
Lemma manager_runs_ready m p fuel :
  CICDManager.get_pipeline m (Pipeline.id p) = Some p ->
  ready (Pipeline.steps p) ->
  acyclic (Pipeline.steps p) ->
  Pipeline.steps p <> [] ->
  List.length (Pipeline.steps p) < fuel ->
  exists m2 p',
    CICDManager.execute_pipeline PipelineExecutor.simulated fuel m
      (Pipeline.id p)
    = CICDManager.Finished true m2
    /\ CICDManager.get_pipeline m2 (Pipeline.id p) = Some p'
    /\ Pipeline.status p' = SUCCEEDED
    /\ List.length (Pipeline.steps p') = List.length (Pipeline.steps p)
    /\ all_succeeded (Pipeline.steps p').
Proof.
  intros Hget (Hwf & Hpend & Hpres & _) Hacyc Hne Hfuel.
  destruct (loop_succeeds fuel (CICDManager.executor_state m) p
              Hwf Hpend Hpres Hacyc Hne Hfuel)
    as (w' & p' & Hloop & Hp' & Hst & Hall).
  pose proof (execute_pipeline_of_loop PipelineExecutor.simulated fuel
                (CICDManager.executor_state m) p w' p' Hloop Hp') as Hexec.
  rewrite Hst in Hexec.
  destruct (execute_pipeline_stored PipelineExecutor.simulated fuel m p
              true w' p' Hget Hexec Hp')
    as (m2 & Hm2 & Hget2 & _).
  exists m2, p'. repeat (split; [assumption|]). split; [|assumption].
  destruct (execute_pipeline_tracked PipelineExecutor.simulated fuel
              (CICDManager.executor_state m) p) as (p1 & Hp1 & Hg).
  rewrite Hexec in Hp1. simpl in Hp1.
  unfold registered in Hp1, Hp'. assert (p1 = p') by congruence. subst p1.
  rewrite <- (length_graph (Pipeline.steps p')), Hg.
  apply length_graph.
Qed.

(** X14. [create_pipeline_from_template] with a template id the
    manager does not know returns [None] and leaves the manager as it
    was.  With a known id (and distinct ids drawn) it returns a pipeline
    that [get_pipeline] finds under its id from then on, for the app id
    and version given; every other pipeline id is answered as before, and
    the templates and the executor are untouched. *)
Theorem create_from_template_stores_the_pipeline :
  forall (uuid4 : nat -> string) (m : CICDManager.t)
         (template_id app_id version : string) (variables : option nat),
    (CICDManager.get_pipeline_template m template_id = None ->
     CICDManager.create_pipeline_from_template uuid4 m template_id
       app_id version variables
     = Some (None, m))
    /\ (forall template,
          CICDManager.get_pipeline_template m template_id = Some template ->
          NoDup (step_ids uuid4 (CICDManager.uuid_next m)
                   (List.length (PipelineTemplate.steps template))) ->
          exists pipeline m',
            CICDManager.create_pipeline_from_template uuid4 m template_id
              app_id version variables
            = Some (Some pipeline, m')
            /\ CICDManager.get_pipeline m' (Pipeline.id pipeline)
               = Some pipeline
            /\ Pipeline.app_id pipeline = app_id
            /\ Pipeline.version pipeline = version
            /\ Pipeline.status pipeline = PENDING
            /\ (forall other,
                  other <> Pipeline.id pipeline ->
                  CICDManager.get_pipeline m' other
                  = CICDManager.get_pipeline m other)
            /\ CICDManager.pipeline_templates m'
               = CICDManager.pipeline_templates m
            /\ CICDManager.current_executions m'
               = CICDManager.current_executions m).
Proof.
  intros uuid4 m template_id app_id version variables.
  unfold CICDManager.get_pipeline_template,
    CICDManager.create_pipeline_from_template.
  split.
  - now intros ->.
  - intros template -> Hnd.
    destruct (create_pipeline_made uuid4 template app_id version variables
                (CICDManager.runtime m) Hnd)
      as (p & rt' & Hrun & _ & Happ & Hver & Hst & _).
    rewrite Hrun. do 2 eexists. split; [reflexivity|].
    unfold CICDManager.get_pipeline. cbn [CICDManager.pipelines
      CICDManager.pipeline_templates CICDManager.current_executions].
    split; [apply dict_get_set_same|].
    repeat (split; [assumption|]).
    split; [|split; reflexivity].
    intros other Hne. now apply dict_get_set_other.
Qed.

(** X15. [CICDManager.execute_pipeline] with a pipeline id the manager
    does not know returns [False] and leaves everything as it was.  With
    a pipeline held under its own id, when the call returns the manager
    holds under that id what the executor made of the pipeline: the same
    pipeline but for statuses, logs and timestamps, with status
    SUCCEEDED exactly when the call returned [True]; the other pipelines
    and the templates are as before. *)
Theorem manager_sees_the_execution :
  forall (run_command : PipelineStep.t -> PipelineExecutor.Outcome)
         (fuel : nat) (m : CICDManager.t) (pipeline_id : string),
    (CICDManager.get_pipeline m pipeline_id = None ->
     CICDManager.execute_pipeline run_command fuel m pipeline_id
     = CICDManager.Finished false m)
    /\ (forall pipeline result m',
          CICDManager.get_pipeline m pipeline_id = Some pipeline ->
          Pipeline.id pipeline = pipeline_id ->
          CICDManager.execute_pipeline run_command fuel m pipeline_id
          = CICDManager.Finished result m' ->
          exists pipeline',
            CICDManager.get_pipeline m' pipeline_id = Some pipeline'
            /\ same_pipeline pipeline pipeline'
            /\ (result = true <-> Pipeline.status pipeline' = SUCCEEDED)
            /\ (forall other,
                  other <> pipeline_id ->
                  CICDManager.get_pipeline m' other
                  = CICDManager.get_pipeline m other)
            /\ CICDManager.pipeline_templates m'
               = CICDManager.pipeline_templates m).
Proof.
  intros run_command fuel m pipeline_id. split.
  - unfold CICDManager.get_pipeline, CICDManager.execute_pipeline.
    now intros ->.
  - intros p r m' Hget Hid Hcall. subst pipeline_id.
    destruct (PipelineExecutor.execute_pipeline run_command fuel
                (CICDManager.executor_state m) p) as [r0 w'|w'] eqn:Hrun.
    2:{ unfold CICDManager.get_pipeline in Hget.
        unfold CICDManager.execute_pipeline in Hcall.
        rewrite Hget, Hrun in Hcall. discriminate. }
    assert (Hframe : framed (Pipeline.id p) (CICDManager.executor_state m) p
                       (PipelineExecutor.final_state
                          (PipelineExecutor.execute_pipeline run_command fuel
                             (CICDManager.executor_state m) p))).
    { rewrite final_state_execute_pipeline.
      apply (while_loop_keeps run_command (Pipeline.id p) _
               (execute_step_framed run_command (Pipeline.id p)
                  (CICDManager.executor_state m) p)).
      apply (roots_keep run_command (Pipeline.id p) _
               (execute_step_framed run_command (Pipeline.id p)
                  (CICDManager.executor_state m) p)).
      apply entered_framed. }
    rewrite Hrun in Hframe. cbn [PipelineExecutor.final_state] in Hframe.
    destruct Hframe as (_ & p' & Hp' & Hsame).
    destruct (execute_pipeline_stored run_command fuel m p r0 w' p'
                Hget Hrun Hp') as (m2 & Hcall2 & Hget2 & Htemplates & Hother).
    rewrite Hcall in Hcall2. injection Hcall2 as -> ->.
    exists p'. split; [assumption|]. split; [assumption|].
    split; [|split; assumption].
    destruct (execute_pipeline_returned run_command _ _ _ _ _ Hrun)
      as [_ Hr].
    rewrite (live_status_registered _ _ _ Hp') in Hr. rewrite Hr.
    destruct (Pipeline.status p'); split; congruence.
Qed.

(** X16. Any template the manager holds in which every step has a
    name of its own and depends only on steps listed before it, with at
    least one step: the pipeline [create_pipeline_from_template] makes
    of it is executed by [CICDManager.execute_pipeline] to the end (the
    call returns [True]), and [get_pipeline] then shows it SUCCEEDED,
    with one succeeded step per step template. *)
Theorem layered_template_succeeds_through_manager :
  forall (uuid4 : nat -> string) (m : CICDManager.t)
         (template_id : string) (template : PipelineTemplate.t)
         (app_id version : string) (variables : option nat) (fuel : nat),
    CICDManager.get_pipeline_template m template_id = Some template ->
    NoDup (step_ids uuid4 (CICDManager.uuid_next m)
             (List.length (PipelineTemplate.steps template))) ->
    layered (PipelineTemplate.steps template) = true ->
    PipelineTemplate.steps template <> [] ->
    List.length (PipelineTemplate.steps template) < fuel ->
    exists pipeline m1 m2 p',
      CICDManager.create_pipeline_from_template uuid4 m template_id
        app_id version variables
      = Some (Some pipeline, m1)
      /\ CICDManager.execute_pipeline PipelineExecutor.simulated fuel m1
           (Pipeline.id pipeline)
         = CICDManager.Finished true m2
      /\ CICDManager.get_pipeline m2 (Pipeline.id pipeline) = Some p'
      /\ Pipeline.status p' = SUCCEEDED
      /\ List.length (Pipeline.steps p')
         = List.length (PipelineTemplate.steps template)
      /\ all_succeeded (Pipeline.steps p').
Proof.
  intros uuid4 m template_id template app_id version variables fuel
         Htemplate Hnd Hlay Hne Hfuel.
  destruct (create_pipeline_made uuid4 template app_id version variables
              (CICDManager.runtime m) Hnd)
    as (p & rt' & Hrun & _ & _ & _ & _ & Hlen & Hready & Hacyc).
  unfold CICDManager.get_pipeline_template in Htemplate.
  unfold CICDManager.create_pipeline_from_template.
  rewrite Htemplate, Hrun.
  set (m1 := CICDManager.mk _ _ _ _ _ _ _).
  destruct (manager_runs_ready m1 p fuel)
    as (m2 & p' & Hexec & Hget & Hst & Hlen' & Hall);
    [apply dict_get_set_same | assumption | now apply Hacyc | | lia |].
  { intros Hnil. rewrite Hnil in Hlen.
    destruct (PipelineTemplate.steps template);
      [now apply Hne | discriminate]. }
  exists p, m1, m2, p'. split; [reflexivity|].
  repeat (split; [assumption|]). split; [congruence | assumption].
Qed.

(** X17. The two templates [_create_default_templates] installs run
    to success: whatever the manager held before, and for every app id,
    version and variables, a pipeline created from the standard or from
    the microservice template is executed to the end by the manager
    ([True] is returned), and is then SUCCEEDED with six succeeded
    steps. *)
Theorem default_templates_run_to_success :
  forall (uuid4 : nat -> string) (m0 : CICDManager.t)
         (template_id app_id version : string) (variables : option nat)
         (fuel : nat),
    NoDup (map uuid4 (seq (CICDManager.uuid_next m0) 9)) ->
    template_id = uuid4 (CICDManager.uuid_next m0)
    \/ template_id = uuid4 (S (CICDManager.uuid_next m0)) ->
    6 < fuel ->
    exists template pipeline m1 m2 p',
      CICDManager.get_pipeline_template
        (CICDManager._create_default_templates uuid4 m0) template_id
      = Some template
      /\ (PipelineTemplate.name template = "Standard CI/CD Pipeline"
          \/ PipelineTemplate.name template = "Microservice CI/CD Pipeline")
      /\ CICDManager.create_pipeline_from_template uuid4
           (CICDManager._create_default_templates uuid4 m0) template_id
           app_id version variables
         = Some (Some pipeline, m1)
      /\ CICDManager.execute_pipeline PipelineExecutor.simulated fuel m1
           (Pipeline.id pipeline)
         = CICDManager.Finished true m2
      /\ CICDManager.get_pipeline m2 (Pipeline.id pipeline) = Some p'
      /\ Pipeline.status p' = SUCCEEDED
      /\ List.length (Pipeline.steps p') = 6
      /\ all_succeeded (Pipeline.steps p').
Proof.
  intros uuid4 m0 template_id app_id version variables fuel Hnd Hid Hfuel.
  set (u := CICDManager.uuid_next m0) in *.
  set (m := CICDManager._create_default_templates uuid4 m0).
  assert (Hne : uuid4 u <> uuid4 (S u)).
  { cbn [seq map] in Hnd. inversion Hnd as [|? ? Hnotin _]; subst.
    intros E. apply Hnotin. rewrite E. now left. }
  assert (Hsteps : NoDup (step_ids uuid4 (CICDManager.uuid_next m) 6)).
  { unfold step_ids. cbn [m CICDManager._create_default_templates
      CICDManager.uuid_next]. fold u.
    exact (NoDup_map_seq_tail uuid4 3 u 6 Hnd). }
  assert (Htemplate :
            exists template,
              CICDManager.get_pipeline_template m template_id = Some template
              /\ (PipelineTemplate.name template = "Standard CI/CD Pipeline"
                  \/ PipelineTemplate.name template
                     = "Microservice CI/CD Pipeline")
              /\ layered (PipelineTemplate.steps template) = true
              /\ List.length (PipelineTemplate.steps template) = 6).
  { unfold CICDManager.get_pipeline_template, m,
      CICDManager._create_default_templates.
    cbn [CICDManager.pipeline_templates]. fold u.
    destruct Hid as [-> | ->].
    - exists (CICDManager.standard (uuid4 u) (CICDManager.clock m0)).
      split; [|repeat split; now left].
      change (PipelineTemplate.id
                (CICDManager.microservice (uuid4 (S u))
                   (S (CICDManager.clock m0))))
        with (uuid4 (S u)).
      rewrite dict_get_set_other by congruence.
      apply dict_get_set_same.
    - exists (CICDManager.microservice (uuid4 (S u))
                (S (CICDManager.clock m0))).
      split; [|repeat split; now right].
      apply dict_get_set_same. }
  destruct Htemplate as (template & Hget & Hname & Hlay & Hlen).
  rewrite <- Hlen in Hsteps.
  destruct (create_pipeline_made uuid4 template app_id version variables
              (CICDManager.runtime m) Hsteps)
    as (p & rt' & Hrun & _ & _ & _ & _ & Hlen' & Hready & Hacyc).
  set (m1 := CICDManager.mk (CICDManager.pipeline_templates m)
               (dict_set (CICDManager.pipelines m) (Pipeline.id p) p)
               (CICDManager.current_executions m) (CICDManager.started m)
               (PipelineTemplate.clock rt') (PipelineTemplate.uuid_next rt')
               (PipelineTemplate.heap rt')).
  destruct (manager_runs_ready m1 p fuel)
    as (m2 & p' & Hexec & Hget2 & Hst & Hlen2 & Hall);
    [apply dict_get_set_same | assumption | now apply Hacyc | | lia |].
  { intros Hnil. rewrite Hnil in Hlen'. rewrite Hlen in Hlen'.
    discriminate. }
  exists template, p, m1, m2, p'.
  split; [assumption|]. split; [assumption|].
  split.
  { unfold CICDManager.create_pipeline_from_template.
    unfold CICDManager.get_pipeline_template in Hget.
    now rewrite Hget, Hrun. }
  repeat (split; [assumption|]). split; [congruence | assumption].
Qed.

End Manager.

(** ** Executing a pipeline once more *)

Section Rerun.

Import PipelineExecutor Props Order.

Variable pipeline_id : string.

Lemma is_root_graph d d' k : graph d = graph d' -> is_root d k = is_root d' k.
Proof.
  intros Hg. unfold is_root.
  pose proof (dict_get_graph d k) as H. rewrite Hg, dict_get_graph in H.
  destruct (dict_get d k) as [s|], (dict_get d' k) as [s'|];
    simpl in H; try discriminate; [|reflexivity].
  injection H as H. now rewrite H.
Qed.

(** A step without dependencies of a pipeline whose steps have all
    succeeded is started once more, and the pipeline is SUCCEEDED
    afterwards. *)
Lemma execute_root_again w p k :
  registered w pipeline_id p ->
  all_succeeded (Pipeline.steps p) ->
  is_root (Pipeline.steps p) k = true ->
  exists p',
    registered (snd (execute_step simulated w pipeline_id k)) pipeline_id p'
    /\ all_succeeded (Pipeline.steps p')
    /\ graph (Pipeline.steps p') = graph (Pipeline.steps p)
    /\ Pipeline.status p' = SUCCEEDED
    /\ started (snd (execute_step simulated w pipeline_id k))
       = mkStartEvent pipeline_id k (Pipeline.steps p) :: started w
    /\ forall k' step,
         dict_get (Pipeline.steps p) k' = Some step ->
         PipelineStep.dependencies step <> [] ->
         dict_get (Pipeline.steps p') k' = Some step.
Proof.
  intros Hp Hall Hroot. unfold is_root in Hroot.
  destruct (dict_get (Pipeline.steps p) k) as [step|] eqn:Hget;
    [|discriminate].
  destruct (PipelineStep.dependencies step) eqn:Hdeps; [|discriminate].
  assert (Hguard : dependencies_succeeded (Pipeline.steps p)
                     (PipelineStep.dependencies step) = true)
    by now rewrite Hdeps.
  rewrite (execute_step_run simulated pipeline_id w k p step Hp Hget Hguard).
  cbn [snd started].
  pose proof (run_step_steps simulated p k step (clock w)) as Hsteps.
  pose proof (run_step_status simulated p k step (clock w)) as Hstatus.
  cbv zeta in Hstatus.
  change (simulated (PipelineStep.start step (clock w))) with Returns
    in Hstatus.
  set (p' := snd (fst (run_step simulated p k step (clock w)))) in *.
  assert (Hall' : all_succeeded (Pipeline.steps p')).
  { intros s Hs. rewrite Hsteps in Hs.
    destruct (dict_values_set_In _ _ _ _ Hs) as [->|Hold]; [reflexivity|].
    now apply Hall. }
  assert (Hcomplete : all_complete (Pipeline.steps p') = true).
  { apply all_complete_iff. intros s Hs. left. now apply Hall'. }
  rewrite Hcomplete in Hstatus. destruct Hstatus as (Hst & _).
  exists p'. split; [unfold registered; simpl; apply dict_get_set_same|].
  split; [assumption|]. split.
  { rewrite Hsteps. apply graph_set with step; [assumption|].
    apply finished_dependencies. }
  split; [rewrite Hst; now apply all_succeeded_verdict|].
  split; [reflexivity|].
  intros k' s Hk' Hne. rewrite Hsteps.
  rewrite dict_get_set_other; [assumption|].
  intros <-. rewrite Hget in Hk'. injection Hk' as <-. contradiction.
Qed.

Lemma visit_root_unfold w p k :
  registered w pipeline_id p ->
  visit_root simulated pipeline_id w k
  = if is_root (Pipeline.steps p) k
    then snd (execute_step simulated w pipeline_id k)
    else w.
Proof.
  intros Hp. unfold visit_root, is_root.
  rewrite (live_steps_registered _ _ _ Hp).
  destruct (dict_get (Pipeline.steps p) k) as [step|]; [|reflexivity].
  now destruct (PipelineStep.dependencies step).
Qed.

(** The first loop on a pipeline whose steps have all succeeded. *)
Lemma roots_again : forall keys w p,
  registered w pipeline_id p ->
  all_succeeded (Pipeline.steps p) ->
  exists p' new,
    registered (fold_left (visit_root simulated pipeline_id) keys w)
      pipeline_id p'
    /\ all_succeeded (Pipeline.steps p')
    /\ graph (Pipeline.steps p') = graph (Pipeline.steps p)
    /\ started (fold_left (visit_root simulated pipeline_id) keys w)
       = new ++ started w
    /\ started_ids new = rev (filter (is_root (Pipeline.steps p)) keys)
    /\ (forall k step,
          dict_get (Pipeline.steps p) k = Some step ->
          PipelineStep.dependencies step <> [] ->
          dict_get (Pipeline.steps p') k = Some step)
    /\ (Pipeline.status p' = SUCCEEDED
        \/ (Pipeline.status p' = Pipeline.status p
            /\ filter (is_root (Pipeline.steps p)) keys = [])).
Proof.
  induction keys as [|k keys IH]; intros w p Hp Hall.
  - exists p, []. repeat split; auto.
  - cbn [fold_left filter]. rewrite (visit_root_unfold w p k Hp).
    destruct (is_root (Pipeline.steps p) k) eqn:Hroot.
    + destruct (execute_root_again w p k Hp Hall Hroot)
        as (p1 & Hp1 & Hall1 & Hg1 & Hst1 & Hev1 & Hkeep1).
      destruct (IH _ p1 Hp1 Hall1)
        as (p' & new & Hp' & Hall' & Hg' & Hev' & Hids & Hkeep' & Hst').
      exists p', (new ++ [mkStartEvent pipeline_id k (Pipeline.steps p)]).
      split; [assumption|]. split; [assumption|].
      split; [congruence|].
      split; [rewrite Hev', Hev1, <- app_assoc; reflexivity|].
      split.
      { unfold started_ids in *. rewrite map_app, Hids. cbn [map ev_step rev].
        f_equal. f_equal. apply filter_ext. intros x.
        now apply is_root_graph. }
      split.
      { intros k' s Hk' Hne. apply Hkeep'; [|assumption].
        now apply Hkeep1. }
      left. destruct Hst' as [H|[H _]]; congruence.
    + destruct (IH w p Hp Hall)
        as (p' & new & Hp' & Hall' & Hg' & Hev' & Hids & Hkeep' & Hst').
      exists p', new. repeat (split; [assumption|]). assumption.
Qed.

End Rerun.

Section RerunTheorem.

Import PipelineExecutor Props Order.

(** X18. Executing once more a pipeline whose steps have all
    succeeded, when it has a step without dependencies: with the step
    body of the source, [execute_pipeline] starts again exactly the steps
    without dependencies, in the order of the pipeline's steps, leaves
    every step that has dependencies as it was, and returns [True] with
    the pipeline SUCCEEDED, without a single pass of its while loop. *)
Theorem rerun_executes_the_roots_again :
  forall (fuel : nat) (w : State) (pipeline : Pipeline.t) (root : string),
    all_succeeded (Pipeline.steps pipeline) ->
    is_root (Pipeline.steps pipeline) root = true ->
    exists w' p' new,
      execute_pipeline simulated fuel w pipeline = Returned true w'
      /\ registered w' (Pipeline.id pipeline) p'
      /\ Pipeline.status p' = SUCCEEDED
      /\ all_succeeded (Pipeline.steps p')
      /\ started w' = new ++ started w
      /\ started_ids new
         = rev (filter (is_root (Pipeline.steps pipeline))
                  (dict_keys (Pipeline.steps pipeline)))
      /\ forall k step,
           dict_get (Pipeline.steps pipeline) k = Some step ->
           PipelineStep.dependencies step <> [] ->
           dict_get (Pipeline.steps p') k = Some step.
Proof.
  intros fuel w p root Hall Hroot.
  pose proof (registered_entered w p) as Hreg.
  destruct (roots_again (Pipeline.id p)
              (dict_keys (live_steps (entered w p) (Pipeline.id p)))
              (entered w p) (Pipeline.start p (clock w)) Hreg Hall)
    as (p' & new & Hp' & Hall' & _ & Hev & Hids & Hkeep & Hst).
  rewrite (live_steps_registered _ _ _ Hreg) in *.
  cbn [Pipeline.start Pipeline.steps] in *.
  assert (Hs : Pipeline.status p' = SUCCEEDED).
  { destruct Hst as [H|[_ Hnil]]; [assumption|]. exfalso.
    assert (Hin : In root (filter (is_root (Pipeline.steps p))
                             (dict_keys (Pipeline.steps p)))).
    { apply filter_In. split; [|assumption].
      unfold is_root in Hroot.
      destruct (dict_get (Pipeline.steps p) root) as [s|] eqn:E;
        [|discriminate].
      eapply dict_get_In_keys; eauto. }
    rewrite Hnil in Hin. destruct Hin. }
  set (w2 := fold_left (visit_root simulated (Pipeline.id p))
               (dict_keys (Pipeline.steps p)) (entered w p)) in *.
  assert (Hloop : while_loop simulated fuel (Pipeline.id p) true w2
                  = Returned tt w2).
  { destruct fuel; cbn [while_loop];
      now rewrite (live_status_registered _ _ _ Hp'), Hs. }
  exists w2, p', new.
  split.
  { rewrite execute_pipeline_unfold.
    rewrite (live_steps_registered _ _ _ Hreg).
    cbn [Pipeline.start Pipeline.steps]. fold w2. rewrite Hloop.
    now rewrite (live_status_registered _ _ _ Hp'), Hs. }
  repeat (split; [assumption|]). assumption.
Qed.

End RerunTheorem.

(** ** Commands without placeholders, and names used twice *)

Section TemplateEdges.

Import PipelineTemplate Binder Props Layers.

Lemma substitute_plain command : forall vars,
  plain command -> substitute command vars = command.
Proof.
  unfold substitute.
  induction vars as [|[k v] vars IH]; intros Hplain; [reflexivity|].
  cbn [fold_left fst snd].
  pose proof (replace_plain k v command "" Hplain) as H.
  rewrite append_empty_r in H.
  rewrite replace_empty in H by apply placeholder_nonempty.
  rewrite append_empty_r in H. rewrite H. now apply IH.
Qed.

(** The id the name map gives for a name: that of the last step
    carrying the name. *)
Lemma name_map_last uuid4 : forall pre first m0 t post,
  names_step post (st_name t) = false ->
  dict_get (name_map uuid4 (numbered first (pre ++ t :: post)) m0) (st_name t)
  = Some (uuid4 (first + List.length pre)).
Proof.
  induction pre as [|a pre IH]; intros first m0 t post Hpost.
  - cbn [app numbered name_map fold_left fst snd List.length].
    fold (name_map uuid4 (numbered (S first) post)
            (dict_set m0 (st_name t) (uuid4 first))).
    rewrite name_map_keep by (now rewrite names_step_numbered).
    rewrite dict_get_set_same. now rewrite Nat.add_0_r.
  - cbn [app numbered name_map fold_left fst snd List.length].
    fold (name_map uuid4 (numbered (S first) (pre ++ t :: post))
            (dict_set m0 (st_name a) (uuid4 first))).
    rewrite IH by assumption. now rewrite Nat.add_succ_r.
Qed.

(** X19. A step template whose command holds no dollar sign gives a
    step with that very command, whatever the variables bind (also when
    the bound names or values themselves hold dollar signs or braces). *)
Theorem plain_commands_are_copied :
  forall (uuid4 : nat -> string) (self : PipelineTemplate.t)
         (app_id version : string) (variables : option nat) (rt : Runtime),
    NoDup (step_ids uuid4 (uuid_next rt) (List.length (steps self))) ->
    exists pipeline rt',
      create_pipeline uuid4 self app_id version variables rt
      = Some (pipeline, rt')
      /\ forall i step_template,
           nth_error (steps self) i = Some step_template ->
           plain (command_template step_template) ->
           exists step_id step,
             nth_error (Pipeline.steps pipeline) i = Some (step_id, step)
             /\ PipelineStep.name step = st_name step_template
             /\ PipelineStep.command step = command_template step_template.
Proof.
  intros uuid4 self app_id version variables rt Hnd.
  destruct (create_pipeline_steps uuid4 self app_id version variables rt Hnd)
    as (p & rt' & Hrun & Hsteps).
  exists p, rt'. split; [assumption|].
  intros i t Hi Hplain. do 2 eexists.
  split; [apply Hsteps; eassumption|].
  cbn [PipelineStep.name PipelineStep.command].
  split; [reflexivity | now apply substitute_plain].
Qed.

(** X20. When several step templates carry the same name, a
    dependency on that name is a dependency on the last of them: in the
    pipeline [create_pipeline] returns, the dependencies of every step
    are its template's dependency names looked up in a map that sends
    the name to the id of the step made from the last template of that
    name. *)
Theorem shared_name_means_the_last_step :
  forall (uuid4 : nat -> string) (self : PipelineTemplate.t)
         (app_id version : string) (variables : option nat) (rt : Runtime)
         (pre post : list StepTemplate) (last : StepTemplate),
    NoDup (step_ids uuid4 (uuid_next rt) (List.length (steps self))) ->
    steps self = pre ++ last :: post ->
    names_step post (st_name last) = false ->
    exists pipeline rt' step_id_map last_id last_step,
      create_pipeline uuid4 self app_id version variables rt
      = Some (pipeline, rt')
      /\ nth_error (Pipeline.steps pipeline) (List.length pre)
         = Some (last_id, last_step)
      /\ PipelineStep.name last_step = st_name last
      /\ dict_get step_id_map (st_name last) = Some last_id
      /\ forall i step_template,
           nth_error (steps self) i = Some step_template ->
           exists step_id step,
             nth_error (Pipeline.steps pipeline) i = Some (step_id, step)
             /\ PipelineStep.dependencies step
                = resolve_dependencies step_id_map
                    (st_dependencies step_template).
Proof.
  intros uuid4 self app_id version variables rt pre post last Hnd Hsplit Hlast.
  destruct (create_pipeline_steps uuid4 self app_id version variables rt Hnd)
    as (p & rt' & Hrun & Hsteps).
  exists p, rt',
    (name_map uuid4 (numbered (S (uuid_next rt)) (steps self)) []).
  do 2 eexists. split; [exact Hrun|].
  split.
  { apply Hsteps. rewrite Hsplit, nth_error_app2 by lia.
    now rewrite Nat.sub_diag. }
  split; [reflexivity|].
  split; [rewrite Hsplit; apply name_map_last; exact Hlast|].
  intros i t Hi. do 2 eexists. split; [apply Hsteps; eassumption | reflexivity].
Qed.

End TemplateEdges.

(** ** One [variables] dict for two calls *)

Section Reuse.

Import PipelineTemplate Binder.

Lemma dict_set_twice {V : Type} (d : Dict V) k v v' :
  dict_set (dict_set d k v) k v' = dict_set d k v'.
Proof.
  induction d as [|[k0 v0] d IH]; simpl.
  - now rewrite String.eqb_refl.
  - destruct (String.eqb k k0) eqn:E; simpl; rewrite E; [reflexivity|].
    now rewrite IH.
Qed.

Lemma dict_set_again {V : Type} (d : Dict V) k k' v v' v'' :
  k <> k' ->
  dict_set (dict_set (dict_set d k v) k' v') k v''
  = dict_set (dict_set d k v'') k' v'.
Proof.
  intros Hne. induction d as [|[k0 v0] d IH]; simpl.
  - destruct (String.eqb_spec k' k) as [E|_]; [congruence|]. simpl.
    now rewrite String.eqb_refl.
  - destruct (String.eqb k k0) eqn:E; simpl.
    + apply String.eqb_eq in E. subst k0.
      destruct (String.eqb_spec k' k) as [E'|_]; [congruence|]. simpl.
      now rewrite String.eqb_refl.
    + destruct (String.eqb k' k0) eqn:E'; simpl; rewrite E;
        [now rewrite dict_set_twice | now rewrite IH].
Qed.

Lemma dict_set_nonempty {V : Type} (d : Dict V) k v : dict_set d k v <> [].
Proof.
  destruct d as [|[k0 v0] d]; simpl; [discriminate|].
  destruct (String.eqb k k0); discriminate.
Qed.

(** The bindings of a second call do not depend on those of a first
    call on the same dict. *)
Lemma effective_twice a1 v1 a2 v2 d :
  effective a2 v2 (effective a1 v1 d) = effective a2 v2 d.
Proof.
  rewrite !effective_unfold.
  rewrite dict_set_again by discriminate.
  apply dict_set_again. discriminate.
Qed.

(** X21. A [variables] dict that is not empty may be handed to
    [create_pipeline] again: the first call leaves its APP_ID and
    VERSION in the caller's dict, the second call overwrites them, and
    the commands of the second pipeline are those its templates give
    under the caller's original bindings with the APP_ID and VERSION of
    the second call. *)
Theorem variables_dict_can_be_reused :
  forall (uuid4 : nat -> string) (first second : PipelineTemplate.t)
         (app_id1 version1 app_id2 version2 : string) (ref : nat)
         (rt rt1 : Runtime) (pipeline1 : Pipeline.t),
    deref rt ref <> [] ->
    NoDup (step_ids uuid4 (uuid_next rt) (List.length (steps first))) ->
    create_pipeline uuid4 first app_id1 version1 (Some ref) rt
    = Some (pipeline1, rt1) ->
    NoDup (step_ids uuid4 (uuid_next rt1) (List.length (steps second))) ->
    exists pipeline2 rt2,
      create_pipeline uuid4 second app_id2 version2 (Some ref) rt1
      = Some (pipeline2, rt2)
      /\ deref rt2 ref = effective app_id2 version2 (deref rt ref)
      /\ forall i step_template,
           nth_error (steps second) i = Some step_template ->
           exists step_id step,
             nth_error (Pipeline.steps pipeline2) i = Some (step_id, step)
             /\ PipelineStep.command step
                = substitute (command_template step_template)
                    (effective app_id2 version2 (deref rt ref)).
Proof.
  intros uuid4 first second a1 v1 a2 v2 ref rt rt1 p1 Hne Hnd1 Hrun1 Hnd2.
  assert (Hderef1 : deref rt1 ref = effective a1 v1 (deref rt ref)).
  { destruct (create_pipeline_with_spec uuid4 first a1 v1 (Some ref) rt Hnd1)
      as (p & r & rt' & Hwith & _ & _ & _ & _ & _ & Hd & Hcase).
    unfold create_pipeline in Hrun1. rewrite Hwith in Hrun1.
    injection Hrun1 as _ <-.
    destruct Hcase as [(r0 & [= <-] & _ & -> & _)|(Hempty & _)];
      [exact Hd | contradiction]. }
  assert (Hne1 : deref rt1 ref <> []).
  { rewrite Hderef1, effective_unfold. apply dict_set_nonempty. }
  destruct (create_pipeline_with_spec uuid4 second a2 v2 (Some ref) rt1 Hnd2)
    as (p2 & r2 & rt2 & Hwith2 & Hsteps2 & _ & _ & _ & _ & Hd2 & Hcase2).
  cbn [caller_dict] in *. rewrite Hderef1, effective_twice in *.
  exists p2, rt2. unfold create_pipeline. rewrite Hwith2.
  split; [reflexivity|]. split.
  { destruct Hcase2 as [(r0 & [= <-] & _ & -> & _)|(Hempty & _)];
      [exact Hd2|].
    rewrite effective_unfold in Hempty.
    now apply dict_set_nonempty in Hempty. }
  intros i t Hi. rewrite Hsteps2.
  rewrite (nth_error_instantiated uuid4 _ _ _ _ _ _ Hi).
  do 2 eexists. split; reflexivity.
Qed.

End Reuse.

(** *** The further properties of templates and of the manager at work *)

Section TemplateSamples.

Import Binder Props Order Layers Check.

Lemma created_pipeline_is_ready_witness :
  NoDup (step_ids Sample.uuid 0 3)
  /\ exists pipeline rt',
       PipelineTemplate.create_pipeline Sample.uuid Sample.with_undeclared
         "app-1" "2.0" None (Sample.runtime [])
       = Some (pipeline, rt')
       /\ Pipeline.status pipeline = PENDING
       /\ List.length (Pipeline.steps pipeline) = 3
       /\ dict_wf (Pipeline.steps pipeline)
       /\ all_pending (Pipeline.steps pipeline)
       /\ ids_present (Pipeline.steps pipeline).
Proof.
  assert (Hnd : NoDup (step_ids Sample.uuid 0 3))
    by (apply distinctb_sound; reflexivity).
  split; [exact Hnd|].
  destruct (created_pipeline_is_ready Sample.uuid Sample.with_undeclared
              "app-1" "2.0" None (Sample.runtime []) Hnd)
    as (p & rt' & Hrun & _ & _ & Hst & Hlen & Hwf & Hpend & Hpres & _).
  exists p, rt'. repeat (split; [assumption|]). assumption.
Defined.

Lemma template_pipelines_always_return_witness :
  NoDup (step_ids Sample.uuid 0 2)
  /\ 2 < 3
  /\ exists pipeline rt' r w',
       PipelineTemplate.create_pipeline Sample.uuid Demo.knot
         "app-1" "2.0" None (Sample.runtime [])
       = Some (pipeline, rt')
       /\ PipelineExecutor.execute_pipeline PipelineExecutor.simulated 3
            PipelineExecutor.idle pipeline
          = PipelineExecutor.Returned r w'.
Proof.
  assert (Hnd : NoDup (step_ids Sample.uuid 0 2))
    by (apply distinctb_sound; reflexivity).
  assert (Hlt : 2 < 3) by lia.
  split; [exact Hnd|]. split; [exact Hlt|].
  exact (template_pipelines_always_return PipelineExecutor.simulated
           Sample.uuid Demo.knot "app-1" "2.0" None (Sample.runtime [])
           3 PipelineExecutor.idle Hnd Hlt).
Defined.

Lemma layered_template_runs_to_success_witness :
  NoDup (step_ids Sample.uuid 0 6)
  /\ layered (PipelineTemplate.steps (CICDManager.standard "T" 0)) = true
  /\ PipelineTemplate.steps (CICDManager.standard "T" 0) <> []
  /\ 6 < 7
  /\ exists pipeline rt' w' p',
       PipelineTemplate.create_pipeline Sample.uuid
         (CICDManager.standard "T" 0) "app-123" "1.0.0" (Some 0)
         (Sample.runtime Demo.variables)
       = Some (pipeline, rt')
       /\ PipelineExecutor.execute_pipeline PipelineExecutor.simulated 7
            PipelineExecutor.idle pipeline
          = PipelineExecutor.Returned true w'
       /\ registered w' (Pipeline.id pipeline) p'
       /\ Pipeline.status p' = SUCCEEDED
       /\ all_succeeded (Pipeline.steps p').
Proof.
  assert (Hnd : NoDup (step_ids Sample.uuid 0 6))
    by (apply distinctb_sound; reflexivity).
  assert (Hne : PipelineTemplate.steps (CICDManager.standard "T" 0) <> [])
    by discriminate.
  assert (Hlt : 6 < 7) by lia.
  split; [exact Hnd|]. split; [reflexivity|]. split; [exact Hne|].
  split; [exact Hlt|].
  destruct (layered_template_runs_to_success Sample.uuid
              (CICDManager.standard "T" 0) "app-123" "1.0.0" (Some 0)
              (Sample.runtime Demo.variables) 7 PipelineExecutor.idle
              Hnd eq_refl Hne Hlt)
    as (p & rt' & w' & p' & Hrun & Hexec & Hp' & Hst & _ & Hall).
  exists p, rt', w', p'. repeat (split; [assumption|]). assumption.
Defined.

Lemma plain_commands_are_copied_witness :
  NoDup (step_ids Sample.uuid 0 6)
  /\ exists pipeline rt' step_id step,
       PipelineTemplate.create_pipeline Sample.uuid
         (CICDManager.standard "T" 0) "app-123" "1.0.0" (Some 0)
         (Sample.runtime Demo.variables)
       = Some (pipeline, rt')
       /\ nth_error (Pipeline.steps pipeline) 2 = Some (step_id, step)
       /\ PipelineStep.name step = "Run Tests"
       /\ PipelineStep.command step = "pytest tests/ -v".
Proof.
  assert (Hnd : NoDup (step_ids Sample.uuid 0 6))
    by (apply distinctb_sound; reflexivity).
  split; [exact Hnd|].
  destruct (plain_commands_are_copied Sample.uuid
              (CICDManager.standard "T" 0) "app-123" "1.0.0" (Some 0)
              (Sample.runtime Demo.variables) Hnd)
    as (p & rt' & Hrun & Hsteps).
  destruct (Hsteps 2
              (PipelineTemplate.mkStepTemplate "Run Tests" TEST
                 "pytest tests/ -v" ["Install Dependencies"])
              eq_refl eq_refl)
    as (k & s & Hnth & Hname & Hcmd).
  exists p, rt', k, s. repeat (split; [assumption|]). assumption.
Defined.

Lemma shared_name_means_the_last_step_witness :
  NoDup (step_ids Sample.uuid 0 3)
  /\ names_step
       [PipelineTemplate.mkStepTemplate "Ship" DEPLOY "ship ${APP_ID}"
          ["Build"]]
       "Build" = false
  /\ exists pipeline rt' second_id second ship_id ship,
       PipelineTemplate.create_pipeline Sample.uuid Demo.twice
         "app-1" "2.0" None (Sample.runtime [])
       = Some (pipeline, rt')
       /\ nth_error (Pipeline.steps pipeline) 1 = Some (second_id, second)
       /\ PipelineStep.name second = "Build"
       /\ nth_error (Pipeline.steps pipeline) 2 = Some (ship_id, ship)
       /\ PipelineStep.dependencies ship = [second_id].
Proof.
  assert (Hnd : NoDup (step_ids Sample.uuid 0 3))
    by (apply distinctb_sound; reflexivity).
  split; [exact Hnd|]. split; [reflexivity|].
  destruct (shared_name_means_the_last_step Sample.uuid Demo.twice
              "app-1" "2.0" None (Sample.runtime [])
              [PipelineTemplate.mkStepTemplate "Build" BUILD "make" []]
              [PipelineTemplate.mkStepTemplate "Ship" DEPLOY "ship ${APP_ID}"
                 ["Build"]]
              (PipelineTemplate.mkStepTemplate "Build" BUILD "make again" [])
              Hnd eq_refl eq_refl)
    as (p & rt' & m & k & s & Hrun & Hnth & Hname & Hmap & Hsteps).
  destruct (Hsteps 2
              (PipelineTemplate.mkStepTemplate "Ship" DEPLOY "ship ${APP_ID}"
                 ["Build"])
              eq_refl)
    as (k2 & s2 & Hnth2 & Hdeps).
  exists p, rt', k, s, k2, s2. repeat (split; [assumption|]).
  rewrite Hdeps. cbn [PipelineTemplate.st_dependencies
    PipelineTemplate.resolve_dependencies flat_map app].
  cbn [PipelineTemplate.st_name] in Hmap. now rewrite Hmap.
Defined.

Lemma variables_dict_can_be_reused_witness :
  exists pipeline1 rt1 pipeline2 rt2,
    PipelineTemplate.deref (Sample.runtime Demo.variables) 0 <> []
    /\ NoDup (step_ids Sample.uuid 0 1)
    /\ PipelineTemplate.create_pipeline Sample.uuid
         (Sample.one_step "deploy ${APP_ID} to ${ENV}") "app-1" "1.0"
         (Some 0) (Sample.runtime Demo.variables)
       = Some (pipeline1, rt1)
    /\ NoDup (step_ids Sample.uuid (PipelineTemplate.uuid_next rt1) 1)
    /\ PipelineTemplate.create_pipeline Sample.uuid
         (Sample.one_step "deploy ${APP_ID} to ${ENV}") "app-2" "2.0"
         (Some 0) rt1
       = Some (pipeline2, rt2)
    /\ PipelineTemplate.deref rt2 0
       = [("BRANCH", "main"); ("ENV", "staging");
          ("APP_ID", "app-2"); ("VERSION", "2.0")].
Proof.
  assert (Hne : PipelineTemplate.deref (Sample.runtime Demo.variables) 0 <> [])
    by discriminate.
  assert (Hnd1 : NoDup (step_ids Sample.uuid 0 1))
    by (apply distinctb_sound; reflexivity).
  assert (Hrun1 : exists pipeline1 rt1,
             PipelineTemplate.create_pipeline Sample.uuid
               (Sample.one_step "deploy ${APP_ID} to ${ENV}") "app-1" "1.0"
               (Some 0) (Sample.runtime Demo.variables)
             = Some (pipeline1, rt1)
             /\ PipelineTemplate.uuid_next rt1 = 2).
  { do 2 eexists. split; vm_compute; reflexivity. }
  destruct Hrun1 as (p1 & rt1 & Hrun1 & Hnext).
  assert (Hnd2 : NoDup (step_ids Sample.uuid
                          (PipelineTemplate.uuid_next rt1) 1))
    by (rewrite Hnext; apply distinctb_sound; reflexivity).
  destruct (variables_dict_can_be_reused Sample.uuid
              (Sample.one_step "deploy ${APP_ID} to ${ENV}")
              (Sample.one_step "deploy ${APP_ID} to ${ENV}")
              "app-1" "1.0" "app-2" "2.0" 0
              (Sample.runtime Demo.variables) rt1 p1 Hne Hnd1 Hrun1 Hnd2)
    as (p2 & rt2 & Hrun2 & Hderef & _).
  exists p1, rt1, p2, rt2. repeat (split; [assumption|]).
  rewrite Hderef. reflexivity.
Defined.

Lemma rerun_executes_the_roots_again_witness :
  all_succeeded (Pipeline.steps Demo.diamond_done)
  /\ is_root (Pipeline.steps Demo.diamond_done) "A" = true
  /\ exists w' p' new,
       PipelineExecutor.execute_pipeline PipelineExecutor.simulated 0
         PipelineExecutor.idle Demo.diamond_done
       = PipelineExecutor.Returned true w'
       /\ registered w' (Pipeline.id Demo.diamond_done) p'
       /\ Pipeline.status p' = SUCCEEDED
       /\ PipelineExecutor.started w' = new ++ []
       /\ started_ids new = ["A"].
Proof.
  assert (Hall : all_succeeded (Pipeline.steps Demo.diamond_done)).
  { intros step Hin. vm_compute in Hin.
    repeat (destruct Hin as [<-|Hin]; [reflexivity|]). destruct Hin. }
  split; [exact Hall|]. split; [reflexivity|].
  destruct (rerun_executes_the_roots_again 0 PipelineExecutor.idle
              Demo.diamond_done "A" Hall eq_refl)
    as (w' & p' & new & Hrun & Hp' & Hst & _ & Hev & Hids & _).
  exists w', p', new. repeat (split; [assumption|]). exact Hids.
Defined.

End TemplateSamples.

Section ManagerSamples.

Import Binder Props Order Layers Check.

Lemma create_from_template_stores_the_pipeline_witness :
  CICDManager.get_pipeline_template Demo.manager "uuid-0"
  = Some (CICDManager.standard "uuid-0" 0)
  /\ NoDup (step_ids Sample.uuid (CICDManager.uuid_next Demo.manager) 6)
  /\ exists pipeline m',
       CICDManager.create_pipeline_from_template Sample.uuid Demo.manager
         "uuid-0" "app-123" "1.0.0" (Some 0)
       = Some (Some pipeline, m')
       /\ CICDManager.get_pipeline m' (Pipeline.id pipeline) = Some pipeline
       /\ Pipeline.status pipeline = PENDING.
Proof.
  assert (Hnd : NoDup (step_ids Sample.uuid
                         (CICDManager.uuid_next Demo.manager) 6))
    by (apply distinctb_sound; reflexivity).
  split; [reflexivity|]. split; [exact Hnd|].
  destruct (proj2 (create_from_template_stores_the_pipeline Sample.uuid
                     Demo.manager "uuid-0" "app-123" "1.0.0" (Some 0))
              (CICDManager.standard "uuid-0" 0) eq_refl Hnd)
    as (p & m' & Hrun & Hget & _ & _ & Hst & _).
  exists p, m'. repeat (split; [assumption|]). assumption.
Defined.

Lemma manager_sees_the_execution_witness :
  exists pipeline result m' pipeline',
    CICDManager.get_pipeline Demo.manager_with_pipeline "uuid-2"
    = Some pipeline
    /\ Pipeline.id pipeline = "uuid-2"
    /\ CICDManager.execute_pipeline PipelineExecutor.simulated 7
         Demo.manager_with_pipeline "uuid-2"
       = CICDManager.Finished result m'
    /\ CICDManager.get_pipeline m' "uuid-2" = Some pipeline'
    /\ same_pipeline pipeline pipeline'
    /\ (result = true <-> Pipeline.status pipeline' = SUCCEEDED).
Proof.
  assert (Hget : exists pipeline,
             CICDManager.get_pipeline Demo.manager_with_pipeline "uuid-2"
             = Some pipeline
             /\ Pipeline.id pipeline = "uuid-2").
  { eexists. split; vm_compute; reflexivity. }
  destruct Hget as (p & Hget & Hid).
  assert (Hcall : exists result m',
             CICDManager.execute_pipeline PipelineExecutor.simulated 7
               Demo.manager_with_pipeline "uuid-2"
             = CICDManager.Finished result m').
  { do 2 eexists. vm_compute. reflexivity. }
  destruct Hcall as (r & m' & Hcall).
  destruct (proj2 (manager_sees_the_execution PipelineExecutor.simulated 7
                     Demo.manager_with_pipeline "uuid-2")
              p r m' Hget Hid Hcall)
    as (p' & Hget' & Hsame & Hiff & _).
  exists p, r, m', p'. repeat (split; [assumption|]). assumption.
Defined.

Lemma layered_template_succeeds_through_manager_witness :
  CICDManager.get_pipeline_template Demo.manager "uuid-1"
  = Some (CICDManager.microservice "uuid-1" 1)
  /\ NoDup (step_ids Sample.uuid (CICDManager.uuid_next Demo.manager) 6)
  /\ layered (PipelineTemplate.steps (CICDManager.microservice "uuid-1" 1))
     = true
  /\ PipelineTemplate.steps (CICDManager.microservice "uuid-1" 1) <> []
  /\ 6 < 7
  /\ exists pipeline m1 m2 p',
       CICDManager.create_pipeline_from_template Sample.uuid Demo.manager
         "uuid-1" "app-123" "1.0.0" (Some 0)
       = Some (Some pipeline, m1)
       /\ CICDManager.execute_pipeline PipelineExecutor.simulated 7 m1
            (Pipeline.id pipeline)
          = CICDManager.Finished true m2
       /\ CICDManager.get_pipeline m2 (Pipeline.id pipeline) = Some p'
       /\ Pipeline.status p' = SUCCEEDED
       /\ all_succeeded (Pipeline.steps p').
Proof.
  assert (Hnd : NoDup (step_ids Sample.uuid
                         (CICDManager.uuid_next Demo.manager) 6))
    by (apply distinctb_sound; reflexivity).
  assert (Hne : PipelineTemplate.steps (CICDManager.microservice "uuid-1" 1)
                <> []) by discriminate.
  assert (Hlt : 6 < 7) by lia.
  split; [reflexivity|]. split; [exact Hnd|]. split; [reflexivity|].
  split; [exact Hne|]. split; [exact Hlt|].
  destruct (layered_template_succeeds_through_manager Sample.uuid
              Demo.manager "uuid-1" (CICDManager.microservice "uuid-1" 1)
              "app-123" "1.0.0" (Some 0) 7 eq_refl Hnd eq_refl Hne Hlt)
    as (p & m1 & m2 & p' & Hrun & Hexec & Hget & Hst & _ & Hall).
  exists p, m1, m2, p'. repeat (split; [assumption|]). assumption.
Defined.

Lemma default_templates_run_to_success_witness :
  NoDup (map Sample.uuid (seq 0 9))
  /\ 6 < 7
  /\ exists template pipeline m1 m2 p',
       CICDManager.get_pipeline_template
         (CICDManager._create_default_templates Sample.uuid
            CICDManager.empty)
         "uuid-0"
       = Some template
       /\ PipelineTemplate.name template = "Standard CI/CD Pipeline"
       /\ CICDManager.create_pipeline_from_template Sample.uuid
            (CICDManager._create_default_templates Sample.uuid
               CICDManager.empty)
            "uuid-0" "app-123" "1.0.0" None
          = Some (Some pipeline, m1)
       /\ CICDManager.execute_pipeline PipelineExecutor.simulated 7 m1
            (Pipeline.id pipeline)
          = CICDManager.Finished true m2
       /\ CICDManager.get_pipeline m2 (Pipeline.id pipeline) = Some p'
       /\ Pipeline.status p' = SUCCEEDED
       /\ List.length (Pipeline.steps p') = 6.
Proof.
  assert (Hnd : NoDup (map Sample.uuid (seq 0 9)))
    by (apply distinctb_sound; reflexivity).
  assert (Hlt : 6 < 7) by lia.
  split; [exact Hnd|]. split; [exact Hlt|].
  destruct (default_templates_run_to_success Sample.uuid CICDManager.empty
              "uuid-0" "app-123" "1.0.0" None 7 Hnd (or_introl eq_refl) Hlt)
    as (t & p & m1 & m2 & p' & Ht & Hname & Hrun & Hexec & Hget & Hst
        & Hlen & _).
  exists t, p, m1, m2, p'. split; [exact Ht|].
  split.
  { assert (E : Some t = Some (CICDManager.standard "uuid-0" 0))
      by (rewrite <- Ht; reflexivity).
    injection E as ->. reflexivity. }
  repeat (split; [assumption|]). assumption.
Defined.

End ManagerSamples.
